(** * smart_study_ai: the persistence layer and the text extractor

    A shallow embedding of [database.py] (class [Database]), of the
    upload and extraction helpers of [utils.py] and of [prompt.py], with
    the properties of the specification, and further properties of the
    code, stated and proved over it.

    Conventions.
    - A Python [str] is the list of its Unicode code points ([pystr]).
    - SQL tables are lists of rows kept in rowid order.
    - [CURRENT_TIMESTAMP] and [datetime.now()] are read from a [Clock]
      value handed to each operation; a method whose INSERT and UPDATE
      both read [CURRENT_TIMESTAMP] is handed one reading for each.
    - The parameters of a statement are bound before it runs: an [int]
      outside 64 bits and a [str] that holds a surrogate make
      [cursor.execute] raise.
    - The exceptions of the methods ([exn]) are instances of Python's
      [Exception] class, the ones [except Exception] handles; module
      [Wide] has [get_cursor] for bodies that raise any [BaseException].
    - A method of [Database] is a function from the thread's connection to
      an outcome (a returned value or a raised exception) and the
      connection afterwards.
    - A database file holds the tables of the schema or none:
      [sqlite3.connect] creates a missing file empty, and the first
      statement of a method on it raises [no such table].
    - What the environment makes fail (a query, a write, a removal)
      raises an instance of [Exception].
    - The resources of SQLite are not exhausted: no string reaches
      [SQLITE_MAX_LENGTH] (10^9 bytes), no table runs out of rowids, and
      the disk takes what is written. *)

From Stdlib Require Import String Ascii Decimal DecimalString.
From Stdlib Require Import List ZArith NArith Bool Lia Permutation.
Import ListNotations.

(* ================================================================== *)
(** ** Python strings *)

Module Py.

Definition pystr := list N.

(** An ASCII literal of the source, as code points. *)
Definition lit (s : string) : pystr :=
  List.map N_of_ascii (list_ascii_of_string s).

Definition pystr_eqb (a b : pystr) : bool :=
  if list_eq_dec N.eq_dec a b then true else false.

(** Truth value of a string: [not text] holds of the empty string. *)
Definition truthy (s : pystr) : bool :=
  match s with [] => false | _ :: _ => true end.

(** [sep.join(parts)] *)
Fixpoint join (sep : pystr) (parts : list pystr) : pystr :=
  match parts with
  | [] => []
  | [p] => p
  | p :: rest => p ++ sep ++ join sep rest
  end.

(** [s.startswith(p)] *)
Fixpoint startswith (s p : pystr) : bool :=
  match p, s with
  | [], _ => true
  | _ :: _, [] => false
  | x :: p', y :: s' => N.eqb x y && startswith s' p'
  end.

(** [s.endswith(p)] *)
Definition endswith (s p : pystr) : bool := startswith (rev s) (rev p).

(** [p in s] for strings: [p] occurs as a substring of [s]. *)
Fixpoint contains (s p : pystr) : bool :=
  startswith s p ||
  match s with
  | [] => false
  | _ :: s' => contains s' p
  end.

(** [s.lower()].  ASCII capitals map to their small letters.  The two
    code points outside ASCII whose lower case holds an ASCII letter are
    mapped as Python maps them (KELVIN SIGN to [k], LATIN CAPITAL LETTER I
    WITH DOT ABOVE to [i] followed by U+0307); every other code point above
    ASCII lower-cases to code points above ASCII and is kept as it is. *)
Definition lower_char (c : N) : pystr :=
  if (65 <=? c)%N && (c <=? 90)%N then [(c + 32)%N]
  else if (c =? 8490)%N then [107%N]
  else if (c =? 304)%N then [105%N; 775%N]
  else [c].

Definition lower (s : pystr) : pystr := flat_map lower_char s.

(** Whitespace as [str.isspace], [str.strip] and the [\s] class of [re]
    on [str] patterns see it (all three test [Py_UNICODE_ISSPACE]). *)
Definition isspace (c : N) : bool :=
  ((9 <=? c) && (c <=? 13) || (28 <=? c) && (c <=? 32)
   || (c =? 133) || (c =? 160) || (c =? 5760)
   || (8192 <=? c) && (c <=? 8202)
   || (c =? 8232) || (c =? 8233) || (c =? 8239) || (c =? 8287)
   || (c =? 12288))%N.

(** [s.replace(chr(c), "")] for a one-character pattern. *)
Definition remove_char (c : N) (s : pystr) : pystr :=
  filter (fun x => negb (N.eqb x c)) s.

(** [re.sub(cls+, r, s)] for a character class [cls] and a one-character
    replacement [r]: every maximal run of [cls] characters becomes [r].
    [in_run] tells that the previous character belonged to a run whose
    replacement is already out. *)
Fixpoint sub_runs (cls : N -> bool) (r : N) (in_run : bool) (s : pystr)
  : pystr :=
  match s with
  | [] => []
  | c :: s' =>
      if cls c
      then if in_run then sub_runs cls r true s'
           else r :: sub_runs cls r true s'
      else c :: sub_runs cls r false s'
  end.

Definition re_sub_plus (cls : N -> bool) (r : N) (s : pystr) : pystr :=
  sub_runs cls r false s.

Fixpoint lstrip (s : pystr) : pystr :=
  match s with
  | [] => []
  | c :: s' => if isspace c then lstrip s' else s
  end.

Definition rstrip (s : pystr) : pystr := rev (lstrip (rev s)).

(** [s.strip()] *)
Definition strip (s : pystr) : pystr := rstrip (lstrip s).

End Py.
Import Py.

(* ================================================================== *)
(** ** utils.py: [clean_text] *)

Definition NUL : N := 0%N.
Definition SPACE : N := 32%N.
Definition NEWLINE : N := 10%N.

Definition is_newline (c : N) : bool := N.eqb c NEWLINE.

Definition clean_text (text : pystr) : pystr :=
  if negb (truthy text) then []
  else
    let text := remove_char NUL text in
    let text := re_sub_plus isspace SPACE text in
    let text := re_sub_plus is_newline NEWLINE text in
    strip text.

(** Shapes of a text: where its whitespace may stand. *)
Definition no_leading_ws (s : pystr) : Prop :=
  forall c t, s = c :: t -> isspace c = false.

Definition no_trailing_ws (s : pystr) : Prop :=
  forall c t, s = t ++ [c] -> isspace c = false.

Definition no_adjacent_ws (s : pystr) : Prop :=
  forall l a b r, s = l ++ a :: b :: r ->
                  isspace a = true -> isspace b = true -> False.

(* ================================================================== *)
(** ** Exceptions and outcomes *)

(** Instances of [Exception]; [str_exn] is [str(e)]. *)
Inductive exn : Type :=
| IntegrityError (msg : pystr)
| OperationalError (msg : pystr)
| OSError (msg : pystr)
| TypeError (msg : pystr)
| OverflowError (msg : pystr)
| UnicodeEncodeError (msg : pystr)
| OtherException (cls msg : pystr).

Definition str_exn (e : exn) : pystr :=
  match e with
  | IntegrityError m | OperationalError m | OSError m | TypeError m => m
  | OverflowError m | UnicodeEncodeError m => m
  | OtherException _ m => m
  end.

Inductive outcome (A : Type) : Type :=
| Return (a : A)
| Raise (e : exn).
Arguments Return {A} a.
Arguments Raise {A} e.

(** [try: body  except Exception as e: handler(e)] on outcomes. *)
Definition try_except {A} (body : outcome A) (handler : exn -> outcome A)
  : outcome A :=
  match body with
  | Return a => Return a
  | Raise e => handler e
  end.

(* ================================================================== *)
(** ** sqlite3: the parameters of a statement *)

(** [str(n)] for a natural number. *)
Definition str_nat (n : nat) : pystr :=
  lit (NilEmpty.string_of_uint (Nat.to_uint n)).

(** A value handed to [cursor.execute] for a [?] of the statement: an
    [int], a [str] or [None]. *)
Inductive Param : Type :=
| PInt (n : Z)
| PText (s : pystr)
| PNone.

Definition opt_int (v : option Z) : Param :=
  match v with
  | Some n => PInt n
  | None => PNone
  end.

Definition opt_text (v : option pystr) : Param :=
  match v with
  | Some s => PText s
  | None => PNone
  end.

(** An [int] is bound as a signed 64-bit integer. *)
Definition fits_int64 (n : Z) : bool :=
  ((-9223372036854775808 <=? n) && (n <=? 9223372036854775807))%Z.

Definition int_too_large : exn :=
  OverflowError (lit "Python int too large to convert to SQLite INTEGER").

(** A [str] is bound as its UTF-8 encoding, which the code points
    U+D800 to U+DFFF do not have. *)
Definition is_surrogate (c : N) : bool := ((55296 <=? c) && (c <=? 57343))%N.

(** How many surrogates [s] starts with. *)
Fixpoint surrogates_run (s : pystr) : nat :=
  match s with
  | [] => O
  | c :: rest => if is_surrogate c then S (surrogates_run rest) else O
  end.

(** The first surrogate of [s]: its position, the code point, and how
    many surrogates follow it without a gap; [i] is the position of the
    head of [s]. *)
Fixpoint find_surrogate (i : nat) (s : pystr) : option (nat * N * nat) :=
  match s with
  | [] => None
  | c :: rest =>
      if is_surrogate c then Some (i, c, surrogates_run rest)
      else find_surrogate (S i) rest
  end.

Definition hex_digit (d : N) : N :=
  if (d <? 10)%N then (48 + d)%N else (87 + d)%N.

(** The four hexadecimal digits of a code point below 65536. *)
Definition hex4 (c : N) : pystr :=
  [hex_digit (c / 4096); hex_digit ((c / 256) mod 16);
   hex_digit ((c / 16) mod 16); hex_digit (c mod 16)]%N.

(** The [UnicodeEncodeError] of the UTF-8 codec for the run of surrogates
    that starts at [start] with [c] and has [more] further ones. *)
Definition surrogates_not_allowed (start : nat) (c : N) (more : nat) : exn :=
  UnicodeEncodeError
    (lit "'utf-8' codec can't encode "
     ++ match more with
        | O => lit "character '\u" ++ hex4 c ++ lit "' in position "
               ++ str_nat start
        | S _ => lit "characters in position " ++ str_nat start ++ lit "-"
                 ++ str_nat (start + more)
        end
     ++ lit ": surrogates not allowed").

(** What binding one parameter raises, if anything. *)
Definition bind_error (p : Param) : option exn :=
  match p with
  | PInt n => if fits_int64 n then None else Some int_too_large
  | PText s =>
      match find_surrogate 0 s with
      | Some (start, c, more) => Some (surrogates_not_allowed start c more)
      | None => None
      end
  | PNone => None
  end.

(** The parameters are bound in order; the first failure is raised. *)
Fixpoint bind_parameters (parameters : list Param) : option exn :=
  match parameters with
  | [] => None
  | p :: rest =>
      match bind_error p with
      | Some e => Some e
      | None => bind_parameters rest
      end
  end.

(* ================================================================== *)
(** ** database.py: the schema *)

Definition timestamp := Z.

(** What an operation reads from the system clock: [CURRENT_TIMESTAMP]
    in the first statement that reads it,
    [datetime.now().strftime('%Y-%m-%d %H:%M')], and [CURRENT_TIMESTAMP]
    in the UPDATE that follows the INSERT of [add_file] and of
    [add_chat]. *)
Record Clock : Type := {
  current_timestamp : timestamp;
  strftime_now : pystr;
  update_timestamp : timestamp
}.

(** Table [sessions]. *)
Record Session : Type := {
  s_id : Z;
  session_name : pystr;
  s_created_at : timestamp;
  is_active : bool;
  last_accessed : timestamp
}.

(** Table [files]; the columns without [NOT NULL] may hold NULL. *)
Record File : Type := {
  f_id : Z;
  f_session_id : Z;
  filename : pystr;
  filepath : pystr;
  filesize : option Z;
  content_text : option pystr;
  upload_time : timestamp;
  file_type : option pystr
}.

(** Table [chats]. *)
Record Chat : Type := {
  c_id : Z;
  c_session_id : Z;
  question : pystr;
  answer : pystr;
  c_created_at : timestamp
}.

(** A database file: the three tables in rowid order and, for each, the
    [sqlite_sequence] entry that [AUTOINCREMENT] maintains. *)
Record DB : Type := {
  sessions : list Session;
  files : list File;
  chats : list Chat;
  seq_sessions : Z;
  seq_files : Z;
  seq_chats : Z
}.

(** The tables [_init_db] creates in a fresh file. *)
Definition empty_db : DB :=
  {| sessions := []; files := []; chats := [];
     seq_sessions := 0; seq_files := 0; seq_chats := 0 |}.

(** [AUTOINCREMENT]: one more than the largest rowid the table holds or
    has ever held. *)
Definition next_rowid (seq : Z) (ids : list Z) : Z :=
  1 + fold_right Z.max seq ids.

Definition with_sessions (db : DB) (l : list Session) (seq : Z) : DB :=
  {| sessions := l; files := files db; chats := chats db;
     seq_sessions := seq; seq_files := seq_files db;
     seq_chats := seq_chats db |}.

Definition with_files (db : DB) (l : list File) (seq : Z) : DB :=
  {| sessions := sessions db; files := l; chats := chats db;
     seq_sessions := seq_sessions db; seq_files := seq;
     seq_chats := seq_chats db |}.

Definition with_chats (db : DB) (l : list Chat) (seq : Z) : DB :=
  {| sessions := sessions db; files := files db; chats := l;
     seq_sessions := seq_sessions db; seq_files := seq_files db;
     seq_chats := seq |}.

Definition set_active (b : bool) (s : Session) : Session :=
  {| s_id := s_id s; session_name := session_name s;
     s_created_at := s_created_at s; is_active := b;
     last_accessed := last_accessed s |}.

Definition set_last_accessed (t : timestamp) (s : Session) : Session :=
  {| s_id := s_id s; session_name := session_name s;
     s_created_at := s_created_at s; is_active := is_active s;
     last_accessed := t |}.

(* ------------------------------------------------------------------ *)
(** *** The SQL statements of the source, on a database value.
    A statement that changes rows returns what the cursor shows after
    it: [lastrowid] for an INSERT, [rowcount] for an UPDATE or DELETE. *)

(** [UPDATE sessions SET is_active = 0] *)
Definition sql_deactivate_all (db : DB) : nat * DB :=
  (length (sessions db),
   with_sessions db (map (set_active false) (sessions db)) (seq_sessions db)).

(** [INSERT INTO sessions (session_name, is_active) VALUES (?, ?)] *)
Definition sql_insert_session (name : pystr) (active : bool) (clk : Clock)
    (db : DB) : Z * DB :=
  let id := next_rowid (seq_sessions db) (map s_id (sessions db)) in
  let row := {| s_id := id; session_name := name;
                s_created_at := current_timestamp clk;
                is_active := active;
                last_accessed := current_timestamp clk |} in
  (id, with_sessions db (sessions db ++ [row]) id).

(** [SELECT ... FROM sessions WHERE is_active = 1 LIMIT 1], [fetchone()] *)
Definition sql_select_active (db : DB) : option Session :=
  find is_active (sessions db).

(** [UPDATE sessions SET is_active = 1, last_accessed = CURRENT_TIMESTAMP
     WHERE id = ?] *)
Definition sql_activate (id : Z) (clk : Clock) (db : DB) : nat * DB :=
  (length (filter (fun s => s_id s =? id)%Z (sessions db)),
   with_sessions db
     (map (fun s => if (s_id s =? id)%Z
                    then set_last_accessed (current_timestamp clk)
                           (set_active true s)
                    else s) (sessions db))
     (seq_sessions db)).

(** [UPDATE sessions SET last_accessed = CURRENT_TIMESTAMP WHERE id = ?],
    run when [CURRENT_TIMESTAMP] is [now]. *)
Definition sql_touch_session (id : Z) (now : timestamp) (db : DB) : nat * DB :=
  (length (filter (fun s => s_id s =? id)%Z (sessions db)),
   with_sessions db
     (map (fun s => if (s_id s =? id)%Z
                    then set_last_accessed now s
                    else s) (sessions db))
     (seq_sessions db)).

(** [DELETE FROM sessions WHERE id = ?] with [PRAGMA foreign_keys = ON]:
    the rows of [files] and [chats] that refer to a deleted session go
    with it ([ON DELETE CASCADE]); [rowcount] counts the session rows. *)
Definition sql_delete_session (id : Z) (db : DB) : nat * DB :=
  let n := length (filter (fun s => s_id s =? id)%Z (sessions db)) in
  (n,
   if (n =? 0)%nat then db
   else
     {| sessions := filter (fun s => negb (s_id s =? id)%Z) (sessions db);
        files := filter (fun f => negb (f_session_id f =? id)%Z) (files db);
        chats := filter (fun c => negb (c_session_id c =? id)%Z) (chats db);
        seq_sessions := seq_sessions db; seq_files := seq_files db;
        seq_chats := seq_chats db |}).

Definition session_exists (id : Z) (db : DB) : bool :=
  existsb (fun s => s_id s =? id)%Z (sessions db).

Definition fk_failed : exn :=
  IntegrityError (lit "FOREIGN KEY constraint failed").

(** [INSERT INTO files (session_id, filename, filepath, filesize,
     content_text, file_type) VALUES (?, ?, ?, ?, ?, ?)]; the foreign key
    is checked at once. *)
Definition sql_insert_file (session_id : Z) (name path : pystr)
    (size : option Z) (content type : option pystr) (clk : Clock) (db : DB)
  : outcome (Z * DB) :=
  if session_exists session_id db then
    let id := next_rowid (seq_files db) (map f_id (files db)) in
    let row := {| f_id := id; f_session_id := session_id;
                  filename := name; filepath := path; filesize := size;
                  content_text := content;
                  upload_time := current_timestamp clk;
                  file_type := type |} in
    Return (id, with_files db (files db ++ [row]) id)
  else Raise fk_failed.

(** [INSERT INTO chats (session_id, question, answer) VALUES (?, ?, ?)] *)
Definition sql_insert_chat (session_id : Z) (q a : pystr) (clk : Clock)
    (db : DB) : outcome (Z * DB) :=
  if session_exists session_id db then
    let id := next_rowid (seq_chats db) (map c_id (chats db)) in
    let row := {| c_id := id; c_session_id := session_id;
                  question := q; answer := a;
                  c_created_at := current_timestamp clk |} in
    Return (id, with_chats db (chats db ++ [row]) id)
  else Raise fk_failed.

(** [SELECT content_text FROM files WHERE id = ?], [fetchone()] *)
Definition sql_select_file_content (id : Z) (db : DB)
  : option (option pystr) :=
  option_map content_text (find (fun f => f_id f =? id)%Z (files db)).

(** [content_text IS NOT NULL AND content_text != ''] *)
Definition has_text (f : File) : bool :=
  match content_text f with
  | Some t => negb (pystr_eqb t [])
  | None => false
  end.

(** [SELECT content_text FROM files WHERE session_id = ?
     AND content_text IS NOT NULL AND content_text != ''], [fetchall()] *)
Definition sql_select_session_texts (session_id : Z) (db : DB)
  : list (option pystr) :=
  map content_text
      (filter (fun f => (f_session_id f =? session_id)%Z && has_text f)
              (files db)).

(** [DELETE FROM files WHERE id = ?] *)
Definition sql_delete_file (id : Z) (db : DB) : nat * DB :=
  (length (filter (fun f => f_id f =? id)%Z (files db)),
   with_files db (filter (fun f => negb (f_id f =? id)%Z) (files db))
              (seq_files db)).

(** [DELETE FROM chats WHERE session_id = ?] *)
Definition sql_delete_session_chats (session_id : Z) (db : DB) : nat * DB :=
  (length (filter (fun c => c_session_id c =? session_id)%Z (chats db)),
   with_chats db
     (filter (fun c => negb (c_session_id c =? session_id)%Z) (chats db))
     (seq_chats db)).

(** [SELECT filepath FROM files], [fetchall()] *)
Definition sql_select_filepaths (db : DB) : list pystr :=
  map filepath (files db).

(* ================================================================== *)
(** ** database.py: connection, transactions and the methods *)

(** The calling thread's connection ([thread_local.connection]):
    [committed] is what the database file holds, [live] is what the
    connection sees, the changes of the open transaction included. *)
Record Conn : Type := {
  committed : DB;
  live : DB
}.

(** [conn.commit()] and [conn.rollback()] *)
Definition commit (c : Conn) : Conn :=
  {| committed := live c; live := live c |}.

Definition rollback (c : Conn) : Conn :=
  {| committed := committed c; live := committed c |}.

(** Code with a state [S] that returns or raises. *)
Definition Eff (S A : Type) : Type := S -> outcome A * S.

Definition ret {S A} (a : A) : Eff S A := fun s => (Return a, s).

Definition raise {S A} (e : exn) : Eff S A := fun s => (Raise e, s).

Definition bind {S A B} (m : Eff S A) (k : A -> Eff S B) : Eff S B :=
  fun s =>
    match m s with
    | (Return a, s') => k a s'
    | (Raise e, s') => (Raise e, s')
    end.

Notation "x <- m ;; k" := (bind m (fun x => k))
  (at level 61, m at next level, right associativity).
Notation "m ;;; k" := (bind m (fun _ => k))
  (at level 61, right associativity).

(** [try: body  except Exception as e: handler(e)] *)
Definition try_catch {S A} (body : Eff S A) (handler : exn -> Eff S A)
  : Eff S A :=
  fun s =>
    match body s with
    | (Return a, s') => (Return a, s')
    | (Raise e, s') => handler e s'
    end.

(** Code that runs against the connection. *)
Definition M (A : Type) : Type := Eff Conn A.

(** [cursor.execute(stmt)] for a statement that changes rows; a failed
    statement changes nothing. *)
Definition execute {A} (stmt : DB -> A * DB) : M A :=
  fun c =>
    let (a, db') := stmt (live c) in
    (Return a, {| committed := committed c; live := db' |}).

Definition execute_checked {A} (stmt : DB -> outcome (A * DB)) : M A :=
  fun c =>
    match stmt (live c) with
    | Return (a, db') => (Return a, {| committed := committed c; live := db' |})
    | Raise e => (Raise e, c)
    end.

(** [cursor.execute(select)] followed by [fetchone()] or [fetchall()]. *)
Definition query {A} (sel : DB -> A) : M A :=
  fun c => (Return (sel (live c)), c).

Definition query_checked {A} (sel : DB -> outcome A) : M A :=
  fun c => (sel (live c), c).

(** The binding of the parameters of a statement, which comes before
    the statement runs. *)
Definition bound (parameters : list Param) : M unit :=
  fun c =>
    match bind_parameters parameters with
    | Some e => (Raise e, c)
    | None => (Return tt, c)
    end.

(** [with self.get_cursor() as cursor: body] for a body that raises
    instances of [Exception] only, as the statements of the methods do.
    The generator yields the cursor; when the body ends normally (a
    [return] inside it included) the connection commits, when it raises
    the connection rolls back and the exception is raised again. *)
Definition get_cursor {A} (body : M A) : M A :=
  fun c =>
    match body c with
    | (Return a, c') => (Return a, commit c')
    | (Raise e, c') => (Raise e, rollback c')
    end.

(** [get_cursor] for every body: one that returns, one that raises an
    instance of [Exception], and one that raises another
    [BaseException] ([KeyboardInterrupt], [SystemExit], [GeneratorExit]),
    which [except Exception] does not handle: the generator then neither
    commits nor rolls back, and the exception goes on to the caller. *)
Module Wide.

Inductive raised : Type :=
| ExceptionInstance (e : exn)
| BaseExceptionOnly (cls msg : pystr).

Inductive ending (A : Type) : Type :=
| Returns (a : A)
| Raises (r : raised).
Arguments Returns {A} a.
Arguments Raises {A} r.

Definition Body (A : Type) : Type := Conn -> ending A * Conn.

Definition get_cursor {A} (body : Body A) : Body A :=
  fun c =>
    match body c with
    | (Returns a, c') => (Returns a, commit c')
    | (Raises (ExceptionInstance e), c') =>
        (Raises (ExceptionInstance e), rollback c')
    | (Raises (BaseExceptionOnly cls msg), c') =>
        (Raises (BaseExceptionOnly cls msg), c')
    end.

(** A body of the methods, among all bodies. *)
Definition of_outcome {A} (r : outcome A * Conn) : ending A * Conn :=
  match r with
  | (Return a, c) => (Returns a, c)
  | (Raise e, c) => (Raises (ExceptionInstance e), c)
  end.

Definition of_method {A} (body : M A) : Body A :=
  fun c => of_outcome (body c).

End Wide.

Definition default_session_name : pystr := lit "Default Session".

Definition _ensure_active_session (clk : Clock) : M unit :=
  get_cursor
    (row <- query sql_select_active ;;
     match row with
     | None =>
         bound [PText default_session_name; PInt 1] ;;;
         execute (sql_insert_session default_session_name true clk) ;;;
         ret tt
     | Some _ => ret tt
     end).

(** The [CREATE TABLE IF NOT EXISTS] and [CREATE INDEX IF NOT EXISTS]
    statements leave the tables of a [DB] value as they are. *)
Definition _init_db (clk : Clock) : M unit :=
  get_cursor (ret tt) ;;;
  _ensure_active_session clk.

(** [if not session_name: session_name = f"Session {...}"] *)
Definition name_or_default (session_name : option pystr) (clk : Clock)
  : pystr :=
  match session_name with
  | Some n => if truthy n then n else lit "Session " ++ strftime_now clk
  | None => lit "Session " ++ strftime_now clk
  end.

Definition create_session (session_name : option pystr) (clk : Clock)
  : M Z :=
  let session_name := name_or_default session_name clk in
  get_cursor
    (execute sql_deactivate_all ;;;
     bound [PText session_name; PInt 1] ;;;
     id <- execute (sql_insert_session session_name true clk) ;;
     ret id).

Definition get_active_session : M (option Session) :=
  get_cursor (query sql_select_active).

Definition set_active_session (session_id : Z) (clk : Clock) : M bool :=
  get_cursor
    (execute sql_deactivate_all ;;;
     bound [PInt session_id] ;;;
     rowcount <- execute (sql_activate session_id clk) ;;
     ret (0 <? rowcount)%nat).

(** The binding of the id in [DELETE FROM sessions WHERE id = ?].  The
    rowids of a table are 64-bit integers, so the id of a row of
    [sessions] is bound without more ado; any other id is checked as
    every parameter is. *)
Definition bound_session_id (session_id : Z) : M unit :=
  fun c =>
    if session_exists session_id (live c) then (Return tt, c)
    else bound [PInt session_id] c.

Definition delete_session (session_id : Z) (clk : Clock) : M bool :=
  get_cursor
    (bound_session_id session_id ;;;
     rowcount <- execute (sql_delete_session session_id) ;;
     if (0 <? rowcount)%nat
     then _ensure_active_session clk ;;; ret true
     else ret false).

(** The parameters of the INSERT of [add_file]. *)
Definition file_parameters (session_id : Z) (filename filepath : pystr)
    (filesize : option Z) (content_text file_type : option pystr)
  : list Param :=
  [PInt session_id; PText filename; PText filepath; opt_int filesize;
   opt_text content_text; opt_text file_type].

(** The statements of [add_file], between the start of the [with] block
    and its commit. *)
Definition add_file_statements (session_id : Z) (filename filepath : pystr)
    (filesize : option Z) (content_text file_type : option pystr)
    (clk : Clock) : M Z :=
  bound (file_parameters session_id filename filepath filesize content_text
                         file_type) ;;;
  id <- execute_checked
          (sql_insert_file session_id filename filepath filesize
                           content_text file_type clk) ;;
  bound [PInt session_id] ;;;
  execute (sql_touch_session session_id (update_timestamp clk)) ;;;
  ret id.

Definition add_file (session_id : Z) (filename filepath : pystr)
    (filesize : option Z) (content_text file_type : option pystr)
    (clk : Clock) : M Z :=
  get_cursor
    (add_file_statements session_id filename filepath filesize content_text
                         file_type clk).

(** [row[0] if row else ""]: the column value as stored, [None] for
    NULL. *)
Definition get_file_content (file_id : Z) : M (option pystr) :=
  get_cursor
    (bound [PInt file_id] ;;;
     row <- query (sql_select_file_content file_id) ;;
     ret (match row with
          | Some v => v
          | None => Some []
          end)).

(** [sep.join(items)] raises [TypeError] on the first item that is not a
    string; [i] is the position of the head of [items]. *)
Fixpoint str_items (i : nat) (items : list (option pystr))
  : outcome (list pystr) :=
  match items with
  | [] => Return []
  | Some s :: rest =>
      match str_items (S i) rest with
      | Return l => Return (s :: l)
      | Raise e => Raise e
      end
  | None :: _ =>
      Raise (TypeError (lit "sequence item " ++ str_nat i
                        ++ lit ": expected str instance, NoneType found"))
  end.

Definition py_join (sep : pystr) (items : list (option pystr)) : M pystr :=
  match str_items 0 items with
  | Return l => ret (join sep l)
  | Raise e => raise e
  end.

Definition blank_line : pystr := [NEWLINE; NEWLINE].

Definition get_session_content (session_id : Z) : M pystr :=
  get_cursor
    (bound [PInt session_id] ;;;
     contents <- query (sql_select_session_texts session_id) ;;
     py_join blank_line contents).

Definition delete_file (file_id : Z) : M bool :=
  get_cursor
    (bound [PInt file_id] ;;;
     rowcount <- execute (sql_delete_file file_id) ;;
     ret (0 <? rowcount)%nat).

(** The statements of [add_chat], between the start of the [with] block
    and its commit. *)
Definition add_chat_statements (session_id : Z) (question answer : pystr)
    (clk : Clock) : M Z :=
  bound [PInt session_id; PText question; PText answer] ;;;
  id <- execute_checked (sql_insert_chat session_id question answer clk) ;;
  bound [PInt session_id] ;;;
  execute (sql_touch_session session_id (update_timestamp clk)) ;;;
  ret id.

Definition add_chat (session_id : Z) (question answer : pystr)
    (clk : Clock) : M Z :=
  get_cursor (add_chat_statements session_id question answer clk).

Definition delete_session_chats (session_id : Z) : M nat :=
  get_cursor
    (bound [PInt session_id] ;;;
     execute (sql_delete_session_chats session_id)).

(** [Database()] on a fresh database file. *)
Definition fresh_conn : Conn := {| committed := empty_db; live := empty_db |}.

Definition Database (clk : Clock) : Conn := snd (_init_db clk fresh_conn).

(** Number of rows of [sessions] with [is_active = 1]. *)
Definition active_count (db : DB) : nat :=
  length (filter is_active (sessions db)).

(** The calls of the session lifecycle, each with the clock it reads. *)
Inductive Call : Type :=
| CreateSession (name : option pystr)
| SetActiveSession (id : Z)
| DeleteSession (id : Z).

Definition run_call (call : Call) (clk : Clock) (c : Conn) : Conn :=
  match call with
  | CreateSession name => snd (create_session name clk c)
  | SetActiveSession id => snd (set_active_session id clk c)
  | DeleteSession id => snd (delete_session id clk c)
  end.

Fixpoint run_calls (calls : list (Call * Clock)) (c : Conn) : Conn :=
  match calls with
  | [] => c
  | (call, clk) :: rest => run_calls rest (run_call call clk c)
  end.

(** The texts [get_session_content] is specified to join: of every file
    of the session, the extracted text when it is neither NULL nor
    empty. *)
Definition session_texts (session_id : Z) (db : DB) : list pystr :=
  flat_map
    (fun f =>
       if (f_session_id f =? session_id)%Z then
         match content_text f with
         | Some t => if truthy t then [t] else []
         | None => []
         end
       else [])
    (files db).

(* ================================================================== *)
(** ** database.py: [clear_all_data] and its surroundings *)

(** What a database file holds: no table, as the empty file that
    [sqlite3.connect] creates, or the tables of the schema. *)
Inductive Store : Type :=
| NoTables
| Tables (db : DB).

(** What [clear_all_data] touches: the database file ([None] when
    [data/study_ai.db] does not exist), the thread's connection with what
    it sees ([None] when [thread_local] has no [connection]), the paths
    that exist in the file system, and what was printed. *)
Record World : Type := {
  db_file : option Store;
  connection : option Store;
  paths : list pystr;
  stdout : list pystr
}.

(** Which steps of [clear_all_data] the environment makes fail, and with
    which exception. *)
Record Faults : Type := {
  query_fault : option exn;
  remove_db_fault : option exn;
  remove_fault : pystr -> option exn;
  makedirs_fault : option exn;
  init_fault : option exn
}.

Definition W (A : Type) : Type := Eff World A.

Definition faulty {A} (f : option exn) (m : W A) : W A :=
  match f with
  | Some e => raise e
  | None => m
  end.

(** [_get_connection]: a missing connection is opened on the database
    file, and a missing file is created, with no table in it. *)
Definition _get_connection (w : World) : World :=
  match connection w with
  | Some _ => w
  | None =>
      let s := match db_file w with Some s => s | None => NoTables end in
      {| db_file := Some s; connection := Some s;
         paths := paths w; stdout := stdout w |}
  end.

(** Whether the open connection is on the file that [DB_FILE] names.  A
    connection stays on its file when that is removed or replaced under
    it: a connection that sees tables is then not on the file of that
    name, which is missing or has none. *)
Definition linked (w : World) : bool :=
  match connection w, db_file w with
  | Some (Tables _), Some (Tables _) => true
  | Some NoTables, Some _ => true
  | _, _ => false
  end.

(** The tables that the open connection sees, if any, with what the
    file holds of them. *)
Definition tables (w : World) : option Conn :=
  match connection w, db_file w with
  | Some (Tables l), Some (Tables d) => Some {| committed := d; live := l |}
  | Some (Tables l), _ => Some {| committed := l; live := l |}
  | Some NoTables, Some (Tables d) => Some {| committed := d; live := d |}
  | _, _ => None
  end.

(** The world once code has left the connection as [c]. *)
Definition with_tables (w : World) (c : Conn) : World :=
  {| db_file := if linked w then Some (Tables (committed c)) else db_file w;
     connection := Some (Tables (live c));
     paths := paths w; stdout := stdout w |}.

Definition no_such_table (table : pystr) : exn :=
  OperationalError (lit "no such table: " ++ table).

(** A method run by the thread.  The connection is fetched; on a
    database without tables the first statement of the method, which
    names [table], raises; otherwise the method runs on the tables, and
    the file and the connection are left as it leaves them. *)
Definition on_connection {A} (table : pystr) (m : M A) : W A :=
  fun w =>
    let w := _get_connection w in
    match tables w with
    | Some c => let (r, c') := m c in (r, with_tables w c')
    | None => (Raise (no_such_table table), w)
    end.

(** [_init_db] run by the thread: its [CREATE TABLE IF NOT EXISTS]
    statements create the tables of a database that has none. *)
Definition init_db_on_connection (clk : Clock) : W unit :=
  fun w =>
    let w := _get_connection w in
    let c := match tables w with Some c => c | None => fresh_conn end in
    let (r, c') := _init_db clk c in
    (r, with_tables w c').

Definition _close_connection : W unit :=
  fun w =>
    (Return tt, {| db_file := db_file w; connection := None;
                   paths := paths w; stdout := stdout w |}).

(** [os.path.exists(DB_FILE)] and [os.remove(DB_FILE)] *)
Definition db_file_exists : W bool :=
  fun w => (Return (match db_file w with Some _ => true | None => false end), w).

Definition remove_db_file (flt : Faults) : W unit :=
  faulty (remove_db_fault flt)
    (fun w =>
       (Return tt, {| db_file := None; connection := connection w;
                      paths := paths w; stdout := stdout w |})).

(** [os.path.exists(filepath)] and [os.remove(filepath)] *)
Definition path_exists (p : pystr) : W bool :=
  fun w => (Return (existsb (pystr_eqb p) (paths w)), w).

Definition os_remove (flt : Faults) (p : pystr) : W unit :=
  faulty (remove_fault flt p)
    (fun w =>
       if existsb (pystr_eqb p) (paths w) then
         (Return tt,
          {| db_file := db_file w; connection := connection w;
             paths := filter (fun q => negb (pystr_eqb p q)) (paths w);
             stdout := stdout w |})
       else (Raise (OSError (lit "No such file or directory")), w)).

Definition os_makedirs (flt : Faults) : W unit :=
  faulty (makedirs_fault flt) (ret tt).

Definition print (line : pystr) : W unit :=
  fun w =>
    (Return tt, {| db_file := db_file w; connection := connection w;
                   paths := paths w; stdout := stdout w ++ [line] |}).

(** [for filepath in file_paths: if filepath and os.path.exists(filepath):
       try: os.remove(filepath)  except: pass] *)
Fixpoint remove_uploads (flt : Faults) (file_paths : list pystr) : W unit :=
  match file_paths with
  | [] => ret tt
  | filepath :: rest =>
      (e <- path_exists filepath ;;
       if truthy filepath && e
       then try_catch (os_remove flt filepath) (fun _ => ret tt)
       else ret tt) ;;;
      remove_uploads flt rest
  end.

Definition clear_all_data (flt : Faults) (clk : Clock) : W bool :=
  try_catch
    (file_paths <-
       faulty (query_fault flt)
         (on_connection (lit "files")
            (get_cursor (query sql_select_filepaths))) ;;
     _close_connection ;;;
     (e <- db_file_exists ;;
      if e then remove_db_file flt else ret tt) ;;;
     remove_uploads flt file_paths ;;;
     os_makedirs flt ;;;
     faulty (init_fault flt) (init_db_on_connection clk) ;;;
     ret true)
    (fun e =>
       print (lit "Error clearing data: " ++ str_exn e) ;;;
       ret false).

(** The steps of [clear_all_data] whose exception reaches its
    [except Exception] clause. *)
Definition fatal (flt : Faults) : bool :=
  match query_fault flt, remove_db_fault flt, makedirs_fault flt,
        init_fault flt with
  | None, None, None, None => false
  | _, _, _, _ => true
  end.

(* ================================================================== *)
(** ** utils.py: text extraction *)

(** The collaborators that read a file: [PdfReader(path).pages] with what
    [extract_text()] gives on each page, [open(path).read()], and the
    paragraph texts of [Document(path)]. *)
Record Readers : Type := {
  PdfReader : pystr -> outcome (list (outcome (option pystr)));
  read_text : pystr -> outcome pystr;
  Document : pystr -> outcome (list pystr)
}.

(** [for page in reader.pages: text += page.extract_text() or ""] *)
Fixpoint pdf_pages_text (text : pystr) (pages : list (outcome (option pystr)))
  : outcome pystr :=
  match pages with
  | [] => Return text
  | Return (Some t) :: rest =>
      pdf_pages_text (text ++ (if truthy t then t else [])) rest
  | Return None :: rest => pdf_pages_text (text ++ []) rest
  | Raise e :: _ => Raise e
  end.

Definition extract_pdf (rd : Readers) (file_path : pystr) : outcome pystr :=
  match
    try_except
      (match PdfReader rd file_path with
       | Return pages =>
           match pdf_pages_text [] pages with
           | Return text => Return (inl text)
           | Raise e => Raise e
           end
       | Raise e => Raise e
       end)
      (fun e => Return (inr (lit "Error reading PDF: " ++ str_exn e)))
  with
  | Return (inl text) => Return (clean_text text)
  | Return (inr msg) => Return msg
  | Raise e => Raise e
  end.

Definition extract_txt (rd : Readers) (file_path : pystr) : outcome pystr :=
  try_except
    (match read_text rd file_path with
     | Return text => Return (clean_text text)
     | Raise e => Raise e
     end)
    (fun e => Return (lit "Error reading TXT: " ++ str_exn e)).

Definition extract_docx (rd : Readers) (file_path : pystr) : outcome pystr :=
  try_except
    (match Document rd file_path with
     | Return paragraphs =>
         Return (clean_text (join [NEWLINE] paragraphs))
     | Raise e => Raise e
     end)
    (fun e => Return (lit "Error reading DOCX: " ++ str_exn e)).

Definition extract_text_from_file (rd : Readers) (file_path file_type : pystr)
  : outcome pystr :=
  try_except
    (if contains (lower file_type) (lit "pdf")
        || endswith file_path (lit ".pdf")
     then extract_pdf rd file_path
     else if contains (lower file_type) (lit "text")
             || endswith file_path (lit ".txt")
     then extract_txt rd file_path
     else if contains (lower file_type) (lit "word")
             || endswith file_path (lit ".docx")
     then extract_docx rd file_path
     else if endswith file_path (lit ".pdf") then extract_pdf rd file_path
     else if endswith file_path (lit ".txt") then extract_txt rd file_path
     else if endswith file_path (lit ".docx") then extract_docx rd file_path
     else Return (lit "Unsupported file format: " ++ file_type))
    (fun e => Return (lit "Error extracting text: " ++ str_exn e)).

(** No branch of [extract_text_from_file] takes the file. *)
Definition unsupported (file_path file_type : pystr) : bool :=
  negb (contains (lower file_type) (lit "pdf")
        || endswith file_path (lit ".pdf")
        || contains (lower file_type) (lit "text")
        || endswith file_path (lit ".txt")
        || contains (lower file_type) (lit "word")
        || endswith file_path (lit ".docx")).

(* ================================================================== *)
(** ** Predicates and derived forms the properties are stated with *)

(** A string in the shape the collapse pass leaves: no NUL, SPACE the
    only whitespace. *)
Definition plain (s : pystr) : Prop :=
  Forall (fun c => c <> NUL /\ (isspace c = true -> c = SPACE)) s.

(** A text after the first two passes of [clean_text]. *)
Definition collapsed (s : pystr) : pystr :=
  re_sub_plus isspace SPACE (remove_char NUL s).

(** A connection with no open transaction on the database [db]. *)
Definition clean (db : DB) : Conn := {| committed := db; live := db |}.

(** Work that issues no commit of its own: it leaves the database file
    as it found it. *)
Definition no_commit {A : Type} (work : M A) : Prop :=
  forall c, committed (snd (work c)) = committed c.

(** What [_ensure_active_session] leaves of a database. *)
Definition ensured (clk : Clock) (db : DB) : DB :=
  match sql_select_active db with
  | Some _ => db
  | None => snd (sql_insert_session default_session_name true clk db)
  end.

(** The session ids are distinct and none exceeds the sequence value:
    what [PRIMARY KEY AUTOINCREMENT] maintains. *)
Definition session_keys_ok (db : DB) : Prop :=
  NoDup (map s_id (sessions db)) /\
  Forall (fun s => (s_id s <= seq_sessions db)%Z) (sessions db).

(** The store as the lifecycle calls keep it: distinct ids issued by the
    sequence, and at most one session active. *)
Definition lifecycle_inv (db : DB) : Prop :=
  session_keys_ok db /\ (active_count db <= 1)%nat.

(** How [set_active_session id] leaves a session row [s], as [s']. *)
Definition activated (id : Z) (clk : Clock) (s s' : Session) : Prop :=
  s_id s' = s_id s /\ session_name s' = session_name s /\
  s_created_at s' = s_created_at s /\
  if (s_id s =? id)%Z
  then is_active s' = true /\ last_accessed s' = current_timestamp clk
  else is_active s' = false /\ last_accessed s' = last_accessed s.

(** How [add_file] and [add_chat] for session [id] leave a session row
    [s], as [s']: the owner's last-accessed time is the reading of the
    UPDATE, whatever it was before. *)
Definition touched (id : Z) (clk : Clock) (s s' : Session) : Prop :=
  s_id s' = s_id s /\ session_name s' = session_name s /\
  s_created_at s' = s_created_at s /\ is_active s' = is_active s /\
  if (s_id s =? id)%Z
  then last_accessed s' = update_timestamp clk
  else last_accessed s' = last_accessed s.

(** The store [_init_db] builds in a fresh file: the default session,
    active, and nothing else. *)
Definition fresh_store (clk : Clock) : DB :=
  {| sessions := [{| s_id := 1; session_name := default_session_name;
                     s_created_at := current_timestamp clk;
                     is_active := true;
                     last_accessed := current_timestamp clk |}];
     files := []; chats := [];
     seq_sessions := 1; seq_files := 0; seq_chats := 0 |}.

(** The formats [extract_text_from_file] knows. *)
Inductive Format : Type := PDF | TXT | DOCX.

(** The branch [extract_text_from_file] takes. *)
Definition detect (file_path file_type : pystr) : option Format :=
  if contains (lower file_type) (lit "pdf") || endswith file_path (lit ".pdf")
  then Some PDF
  else if contains (lower file_type) (lit "text")
          || endswith file_path (lit ".txt")
  then Some TXT
  else if contains (lower file_type) (lit "word")
          || endswith file_path (lit ".docx")
  then Some DOCX
  else None.

(** What the schema maintains: in every table the ids are distinct and
    issued by the table's sequence, and every file and chat refers to a
    session of the store. *)
Definition wf (db : DB) : Prop :=
  session_keys_ok db /\
  (NoDup (map f_id (files db)) /\
   Forall (fun f => (f_id f <= seq_files db)%Z) (files db)) /\
  (NoDup (map c_id (chats db)) /\
   Forall (fun x => (c_id x <= seq_chats db)%Z) (chats db)) /\
  Forall (fun f => In (f_session_id f) (map s_id (sessions db))) (files db) /\
  Forall (fun x => In (c_session_id x) (map s_id (sessions db))) (chats db).

(** The methods that change the store. *)
Inductive Op : Type :=
| OpCreateSession (name : option pystr)
| OpSetActiveSession (id : Z)
| OpDeleteSession (id : Z)
| OpAddFile (session_id : Z) (name path : pystr) (size : option Z)
            (content type : option pystr)
| OpDeleteFile (id : Z)
| OpAddChat (session_id : Z) (q a : pystr)
| OpDeleteSessionChats (session_id : Z).

Definition run_op (op : Op) (clk : Clock) (c : Conn) : Conn :=
  match op with
  | OpCreateSession name => snd (create_session name clk c)
  | OpSetActiveSession id => snd (set_active_session id clk c)
  | OpDeleteSession id => snd (delete_session id clk c)
  | OpAddFile sid name path size content type =>
      snd (add_file sid name path size content type clk c)
  | OpDeleteFile id => snd (delete_file id c)
  | OpAddChat sid q a => snd (add_chat sid q a clk c)
  | OpDeleteSessionChats sid => snd (delete_session_chats sid c)
  end.

(** The connections a program reaches from [Database()] on a fresh
    file. *)
Inductive reachable : Conn -> Prop :=
| reach_init (clk : Clock) : reachable (Database clk)
| reach_step (op : Op) (clk : Clock) (c : Conn) :
    reachable c -> reachable (run_op op clk c).

(** No stored last-accessed time is later than [t]. *)
Definition stamped (t : timestamp) (db : DB) : Prop :=
  Forall (fun s => (last_accessed s <= t)%Z) (sessions db).

(** The rowid that the next INSERT into [files] gets. *)
Definition next_file_id (db : DB) : Z :=
  next_rowid (seq_files db) (map f_id (files db)).

(** The strings of ASCII, on which [lower] is [str.lower]. *)
Definition is_ascii (s : pystr) : bool := forallb (fun ch => (ch <? 128)%N) s.

(** Unfolds the run of a method on a connection. *)
Ltac run_method :=
  unfold get_cursor, bind, execute, execute_checked, query, query_checked,
         ret, raise, commit, rollback, clean; simpl.

(* ================================================================== *)
(** ** Inputs of the examples *)

(** A clock reading. *)
Definition clk0 : Clock :=
  {| current_timestamp := 1000%Z; strftime_now := lit "2026-01-01 00:00";
     update_timestamp := 1001%Z |}.

(** A later clock reading. *)
Definition clk1 : Clock :=
  {| current_timestamp := 2000%Z; strftime_now := lit "2026-01-01 00:17";
     update_timestamp := 2001%Z |}.

(** A with-body that inserts a session and then fails. *)
Definition insert_then_fail : M unit :=
  execute (sql_insert_session (lit "Draft") true clk0) ;;;
  raise (OSError (lit "disk I/O error")).

(** A with-body that inserts a session and is then interrupted from the
    keyboard. *)
Definition insert_then_interrupt : Wide.Body unit :=
  fun c =>
    (Wide.Raises (Wide.BaseExceptionOnly (lit "KeyboardInterrupt") []),
     snd (execute (sql_insert_session (lit "Draft") true clk0) c)).

(** A with-body that does nothing. *)
Definition pass : Wide.Body unit := fun c => (Wide.Returns tt, c).

(** The body of [delete_session] for session 1, with a failure after
    the repair step (which commits). *)
Definition repair_then_fail : M unit :=
  execute (sql_delete_session 1) ;;;
  _ensure_active_session clk0 ;;;
  raise (OSError (lit "disk I/O error")).

(** The initialized store after one upload. *)
Definition one_upload : Conn :=
  snd (add_file 1 (lit "notes.txt") (lit "data/uploads/notes.txt") (Some 5%Z)
         (Some (lit "hello")) (Some (lit "text/plain")) clk1 (Database clk0)).

(** The initialized store after the upload of a file that gave no
    text. *)
Definition upload_without_text : Conn :=
  snd (add_file 1 (lit "scan.pdf") (lit "data/uploads/scan.pdf") (Some 5%Z)
         None (Some (lit "application/pdf")) clk1 (Database clk0)).

(** The row of that upload. *)
Definition notes_row : File :=
  {| f_id := 1; f_session_id := 1; filename := lit "notes.txt";
     filepath := lit "data/uploads/notes.txt"; filesize := Some 5%Z;
     content_text := Some (lit "hello"); upload_time := 2000%Z;
     file_type := Some (lit "text/plain") |}.

(** Readers for which every file is unreadable. *)
Definition unreadable : Readers :=
  {| PdfReader := fun _ => Raise (OSError (lit "No such file"));
     read_text := fun _ => Raise (OSError (lit "No such file"));
     Document := fun _ => Raise (OSError (lit "No such file")) |}.

(* ================================================================== *)
(** ** database.py: the listing methods *)

From Stdlib Require Import Sorted.

(** [ORDER BY]: the rows in the order [le] of their keys.  Each row of
    the scan is put before the first row it is not after, so rows with
    equal keys stay in scan order. *)
Fixpoint place_row {A : Type} (le : A -> A -> bool) (x : A) (sorted : list A)
  : list A :=
  match sorted with
  | [] => [x]
  | y :: rest => if le x y then x :: y :: rest else y :: place_row le x rest
  end.

Definition order_by {A : Type} (le : A -> A -> bool) (rows : list A) : list A :=
  fold_right (place_row le) [] rows.

(** [ORDER BY key ASC] and [ORDER BY key DESC] *)
Definition asc {A : Type} (key : A -> Z) (a b : A) : bool := (key a <=? key b)%Z.
Definition desc {A : Type} (key : A -> Z) (a b : A) : bool := (key b <=? key a)%Z.

(** [LIMIT ?]: a negative limit is no limit. *)
Definition limit_rows {A : Type} (limit : Z) (rows : list A) : list A :=
  if (limit <? 0)%Z then rows else firstn (Z.to_nat limit) rows.

(** A dict of [get_all_sessions]. *)
Record SessionInfo : Type := {
  si_id : Z;
  si_session_name : pystr;
  si_created_at : timestamp;
  si_last_accessed : timestamp;
  si_is_active : bool;
  file_count : nat;
  chat_count : nat
}.

(** [(SELECT COUNT( * ) FROM files WHERE session_id = sessions.id)] and
    the same on [chats]. *)
Definition count_files (id : Z) (db : DB) : nat :=
  length (filter (fun f => f_session_id f =? id)%Z (files db)).

Definition count_chats (id : Z) (db : DB) : nat :=
  length (filter (fun x => c_session_id x =? id)%Z (chats db)).

(** One row of the SELECT of [get_all_sessions], the two counts last,
    and the dict built from it; [row[5] or 0] is the count itself. *)
Definition session_row (db : DB) (s : Session) : Session * nat * nat :=
  (s, count_files (s_id s) db, count_chats (s_id s) db).

Definition session_info (row : Session * nat * nat) : SessionInfo :=
  let '(s, files, chats) := row in
  {| si_id := s_id s; si_session_name := session_name s;
     si_created_at := s_created_at s; si_last_accessed := last_accessed s;
     si_is_active := is_active s;
     file_count := files;
     chat_count := chats |}.

(** [SELECT ..., (SELECT COUNT...), (SELECT COUNT...) FROM sessions
     ORDER BY last_accessed DESC LIMIT ?], [fetchall()] *)
Definition sql_select_sessions (limit : Z) (db : DB)
  : list (Session * nat * nat) :=
  limit_rows limit
    (order_by (desc (fun row => last_accessed (fst (fst row))))
              (map (session_row db) (sessions db))).

Definition get_all_sessions (limit : Z) : M (list SessionInfo) :=
  get_cursor
    (bound [PInt limit] ;;;
     rows <- query (sql_select_sessions limit) ;;
     ret (map session_info rows)).

(** A dict of [get_session_files]. *)
Record FileInfo : Type := {
  fi_id : Z;
  fi_filename : pystr;
  fi_filesize : Z;
  fi_upload_time : timestamp;
  fi_file_type : pystr
}.

(** [row[2] or 0] and [row[4] or 'Unknown'] *)
Definition size_or_zero (v : option Z) : Z :=
  match v with
  | Some n => if (n =? 0)%Z then 0%Z else n
  | None => 0%Z
  end.

Definition type_or_unknown (v : option pystr) : pystr :=
  match v with
  | Some t => if truthy t then t else lit "Unknown"
  | None => lit "Unknown"
  end.

Definition file_info (f : File) : FileInfo :=
  {| fi_id := f_id f; fi_filename := filename f;
     fi_filesize := size_or_zero (filesize f);
     fi_upload_time := upload_time f;
     fi_file_type := type_or_unknown (file_type f) |}.

(** [SELECT id, filename, filesize, upload_time, file_type FROM files
     WHERE session_id = ? ORDER BY upload_time DESC], [fetchall()] *)
Definition sql_select_session_files (session_id : Z) (db : DB) : list File :=
  order_by (desc upload_time)
           (filter (fun f => f_session_id f =? session_id)%Z (files db)).

Definition get_session_files (session_id : Z) : M (list FileInfo) :=
  get_cursor
    (bound [PInt session_id] ;;;
     rows <- query (sql_select_session_files session_id) ;;
     ret (map file_info rows)).

(** A dict of [get_session_chats]. *)
Record ChatInfo : Type := {
  ci_id : Z;
  ci_question : pystr;
  ci_answer : pystr;
  ci_created_at : timestamp
}.

Definition chat_info (x : Chat) : ChatInfo :=
  {| ci_id := c_id x; ci_question := question x; ci_answer := answer x;
     ci_created_at := c_created_at x |}.

(** [SELECT id, question, answer, created_at FROM chats
     WHERE session_id = ? ORDER BY created_at ASC LIMIT ?], [fetchall()] *)
Definition sql_select_session_chats (session_id limit : Z) (db : DB)
  : list Chat :=
  limit_rows limit
    (order_by (asc c_created_at)
       (filter (fun x => c_session_id x =? session_id)%Z (chats db))).

Definition get_session_chats (session_id limit : Z) : M (list ChatInfo) :=
  get_cursor
    (bound [PInt session_id; PInt limit] ;;;
     rows <- query (sql_select_session_chats session_id limit) ;;
     ret (map chat_info rows)).

(** A dict of [get_all_chats]. *)
Record ChatWithSession : Type := {
  cs_id : Z;
  cs_question : pystr;
  cs_answer : pystr;
  cs_created_at : timestamp;
  cs_session_name : pystr
}.

(** [chats c JOIN sessions s ON c.session_id = s.id]: a row for every
    pair of a chat and a session with the chat's session id. *)
Definition join_chats_sessions (db : DB) : list (Chat * Session) :=
  flat_map
    (fun x =>
       map (fun s => (x, s))
           (filter (fun s => s_id s =? c_session_id x)%Z (sessions db)))
    (chats db).

Definition chat_with_session (r : Chat * Session) : ChatWithSession :=
  {| cs_id := c_id (fst r); cs_question := question (fst r);
     cs_answer := answer (fst r); cs_created_at := c_created_at (fst r);
     cs_session_name := session_name (snd r) |}.

(** [SELECT c.id, c.question, c.answer, c.created_at, s.session_name
     FROM chats c JOIN sessions s ON c.session_id = s.id
     ORDER BY c.created_at DESC LIMIT ?], [fetchall()] *)
Definition sql_select_all_chats (limit : Z) (db : DB) : list (Chat * Session) :=
  limit_rows limit
    (order_by (desc (fun r => c_created_at (fst r))) (join_chats_sessions db)).

Definition get_all_chats (limit : Z) : M (list ChatWithSession) :=
  get_cursor
    (bound [PInt limit] ;;;
     rows <- query (sql_select_all_chats limit) ;;
     ret (map chat_with_session rows)).

(** The dict of [get_stats]. *)
Record Stats : Type := {
  total_sessions : nat;
  active_sessions : nat;
  total_files : nat;
  total_size : Z;
  total_chats : nat
}.

(** The sizes that are not NULL. *)
Definition known_sizes (rows : list File) : list Z :=
  flat_map (fun f => match filesize f with
                     | Some n => [n]
                     | None => []
                     end) rows.

(** The running sum of [SUM]: the sizes are added one by one to [acc],
    in the order of the rows, as long as the sum stays a 64-bit
    integer. *)
Fixpoint add_sizes (acc : Z) (sizes : list Z) : option Z :=
  match sizes with
  | [] => Some acc
  | n :: rest =>
      if fits_int64 (acc + n) then add_sizes (acc + n)%Z rest else None
  end.

Definition integer_overflow : exn := OperationalError (lit "integer overflow").

(** [SELECT SUM(filesize) FROM files]: the sum of the sizes that are not
    NULL, and NULL when there is none; the statement fails when the
    running sum leaves the 64-bit integers. *)
Definition sql_sum_filesize (db : DB) : outcome (option Z) :=
  match known_sizes (files db) with
  | [] => Return None
  | sizes =>
      match add_sizes 0 sizes with
      | Some total => Return (Some total)
      | None => Raise integer_overflow
      end
  end.

Definition get_stats : M Stats :=
  get_cursor
    (total_sessions <- query (fun db => length (sessions db)) ;;
     active_sessions <- query (fun db => length (filter is_active (sessions db))) ;;
     total_files <- query (fun db => length (files db)) ;;
     sum <- query_checked sql_sum_filesize ;;
     let total_size := size_or_zero sum in
     total_chats <- query (fun db => length (chats db)) ;;
     ret {| total_sessions := total_sessions;
            active_sessions := active_sessions;
            total_files := total_files;
            total_size := total_size;
            total_chats := total_chats |}).

(** A run of mutating methods, each with the clock it reads. *)
Fixpoint run_ops (ops : list (Op * Clock)) (c : Conn) : Conn :=
  match ops with
  | [] => c
  | (op, clk) :: rest => run_ops rest (run_op op clk c)
  end.


(** Whether the thread's connection, once open, sees the tables. *)
Definition has_tables (w : World) : bool :=
  match tables (_get_connection w) with
  | Some _ => true
  | None => false
  end.

(** Whether a step of [clear_all_data] raises into its [except
    Exception] clause: the query for the paths, which the environment
    can make fail and which fails on a database without tables; the
    removal of the database file, which is attempted when the file
    exists; the creation of the directory; the re-initialization. *)
Definition step_raises (flt : Faults) (w : World) : bool :=
  match query_fault flt with
  | Some _ => true
  | None =>
      negb (has_tables w)
      || match remove_db_fault flt, db_file (_get_connection w) with
         | Some _, Some _ => true
         | _, _ => false
         end
      || match makedirs_fault flt, init_fault flt with
         | None, None => false
         | _, _ => true
         end
  end.

(** The paths [clear_all_data] reads from the files table. *)
Definition recorded_paths (w : World) : list pystr :=
  match tables (_get_connection w) with
  | Some c => sql_select_filepaths (live c)
  | None => []
  end.

(** [get_stats] called from the world. *)
Definition world_stats : W Stats := on_connection (lit "sessions") get_stats.

(* ================================================================== *)
(** ** utils.py: what the text-cleaning keeps *)

(** A character that is neither whitespace nor NUL. *)
Definition visible (c : N) : bool := negb (isspace c) && negb (N.eqb c NUL).

(* ================================================================== *)
(** ** utils.py: uploads *)

Definition UPLOAD_DIR : pystr := lit "data/uploads".

(** What [save_uploaded_file] reads of the uploaded file: its name, the
    type the browser declared ([None] or empty when it declared none)
    and its bytes. *)
Record UploadedFile : Type := {
  up_name : pystr;
  up_type : option pystr;
  up_buffer : list N
}.

(** [s.replace(" ", "_")] *)
Definition spaces_to_underscores (s : pystr) : pystr :=
  map (fun ch => if N.eqb ch SPACE then 95%N else ch) s.

(** [s.split(sep)[-1]] for a one-character [sep]: what follows the last
    [sep], the whole of [s] when it holds none; [seen] is what has been
    read since the last [sep]. *)
Fixpoint last_segment (sep : N) (seen s : pystr) : pystr :=
  match s with
  | [] => seen
  | ch :: rest =>
      if N.eqb ch sep then last_segment sep [] rest
      else last_segment sep (seen ++ [ch]) rest
  end.

Definition DOT : N := 46%N.
Definition SLASH : N := 47%N.

(** [os.path.join(dir, name)] (POSIX) for a [dir] that does not end in a
    slash: an absolute [name] replaces [dir]. *)
Definition os_path_join (dir name : pystr) : pystr :=
  if startswith name [SLASH] then name else dir ++ [SLASH] ++ name.

(** The dict of [save_uploaded_file]. *)
Record SavedFile : Type := {
  sf_filename : pystr;
  sf_original_name : pystr;
  sf_file_path : pystr;
  sf_file_size : Z;
  sf_file_type : pystr
}.

(** [uploaded_file.type or uploaded_file.name.split('.')[-1].lower()].
    The lower-casing is that of [lower], which is [str.lower] on ASCII
    and keeps the cased letters outside ASCII as they are. *)
Definition declared_or_extension (up : UploadedFile) : pystr :=
  match up_type up with
  | Some t => if truthy t then t else lower (last_segment DOT [] (up_name up))
  | None => lower (last_segment DOT [] (up_name up))
  end.

(** [with open(file_path, "wb") as f: f.write(file_content)]: the path
    exists afterwards, unless the environment makes the write fail. *)
Definition write_file (fault : option exn) (file_path : pystr) : W unit :=
  faulty fault
    (fun w =>
       (Return tt,
        {| db_file := db_file w; connection := connection w;
           paths := if existsb (pystr_eqb file_path) (paths w)
                    then paths w else paths w ++ [file_path];
           stdout := stdout w |})).

(** [stamp] is [datetime.now().strftime("%Y%m%d_%H%M%S")]. *)
Definition save_uploaded_file (up : UploadedFile) (stamp : pystr)
    (fault : option exn) : W SavedFile :=
  let safe_name := spaces_to_underscores (up_name up) in
  let filename := stamp ++ lit "_" ++ safe_name in
  let file_path := os_path_join UPLOAD_DIR filename in
  write_file fault file_path ;;;
  ret {| sf_filename := filename;
         sf_original_name := up_name up;
         sf_file_path := file_path;
         sf_file_size := Z.of_nat (length (up_buffer up));
         sf_file_type := declared_or_extension up |}.

(** The dict of [process_file_upload]. *)
Record Uploaded : Type := {
  ur_file_id : Z;
  ur_session_id : Z;
  ur_filename : pystr;
  ur_content : pystr
}.

Definition of_outcome {A : Type} (o : outcome A) : W A := fun w => (o, w).

(** [clk] is the clock [create_session] reads, [clk'] the one [add_file]
    reads. *)
Definition process_file_upload (rd : Readers) (up : UploadedFile)
    (stamp : pystr) (clk clk' : Clock) (fault : option exn) : W Uploaded :=
  active_session <- on_connection (lit "sessions") get_active_session ;;
  session_id <- match active_session with
                | None =>
                    on_connection (lit "sessions") (create_session None clk)
                | Some s => ret (s_id s)
                end ;;
  file_info <- save_uploaded_file up stamp fault ;;
  extracted_text <- of_outcome
                      (extract_text_from_file rd (sf_file_path file_info)
                                              (sf_file_type file_info)) ;;
  file_id <- on_connection (lit "files")
               (add_file session_id (sf_original_name file_info)
                         (sf_file_path file_info)
                         (Some (sf_file_size file_info))
                         (Some extracted_text)
                         (Some (sf_file_type file_info)) clk') ;;
  ret {| ur_file_id := file_id; ur_session_id := session_id;
         ur_filename := sf_original_name file_info;
         ur_content := extracted_text |}.

(** What [process_file_upload] stores: the last row of the files table
    of [db], for the result [r] of the upload of [up]. *)
Definition stored_upload (up : UploadedFile) (stamp : pystr) (clk' : Clock)
    (r : Uploaded) (db : DB) : Prop :=
  exists rows,
    files db
    = rows ++ [{| f_id := ur_file_id r; f_session_id := ur_session_id r;
                  filename := up_name up;
                  filepath := os_path_join UPLOAD_DIR
                                (stamp ++ lit "_"
                                 ++ spaces_to_underscores (up_name up));
                  filesize := Some (Z.of_nat (length (up_buffer up)));
                  content_text := Some (ur_content r);
                  upload_time := current_timestamp clk';
                  file_type := Some (declared_or_extension up) |}].

(** The path [save_uploaded_file] writes to. *)
Definition upload_path (up : UploadedFile) (stamp : pystr) : pystr :=
  os_path_join UPLOAD_DIR (stamp ++ lit "_" ++ spaces_to_underscores (up_name up)).

(** The session [process_file_upload] adds the file to, on the store
    [db]: the active one, and the one it creates when none is active. *)
Definition upload_session (clk : Clock) (db : DB) : Z :=
  match sql_select_active db with
  | Some s => s_id s
  | None =>
      fst (sql_insert_session (name_or_default None clk) true clk
             (snd (sql_deactivate_all db)))
  end.

(** Whether the type is one on which [declared_or_extension] is what the
    code computes: the type the browser declared, or the extension of a
    name whose extension is ASCII, where [lower] is [str.lower]. *)
Definition type_declared_or_ascii (up : UploadedFile) : bool :=
  match up_type up with
  | Some t => truthy t || is_ascii (last_segment DOT [] (up_name up))
  | None => is_ascii (last_segment DOT [] (up_name up))
  end.

(* ================================================================== *)
(** ** prompt.py *)

Definition QUOTE : N := 34%N.

Definition banner : pystr := lit "============================".

(** The text of the template before [{context_text}], between it and
    [{user_question}], and after that. *)
Definition prompt_head : pystr :=
  join [NEWLINE]
    [ []; lit "You are an intelligent and helpful study assistant."; [];
      banner; lit "STUDY MATERIAL"; banner; [] ].

Definition prompt_middle : pystr :=
  join [NEWLINE] [ []; []; banner; lit "STUDENT QUESTION"; banner; [] ].

Definition prompt_tail : pystr :=
  join [NEWLINE]
    [ []; []; banner; lit "INSTRUCTIONS"; banner;
      lit "- Answer ONLY using the study material";
      lit "- Explain in simple, clear language";
      lit "- Use bullet points if helpful";
      lit "- Give examples when possible";
      lit "- If the answer is not in the material, say:";
      lit "  " ++ [QUOTE]
        ++ lit "This information is not available in the uploaded content."
        ++ [QUOTE];
      lit "- Do NOT add extra unrelated knowledge"; [] ].

Definition study_prompt (context_text user_question : pystr) : pystr :=
  prompt_head ++ context_text ++ prompt_middle ++ user_question ++ prompt_tail.

(** [page.extract_text() or ""] *)
Definition page_text (p : option pystr) : pystr :=
  match p with
  | Some t => t
  | None => []
  end.

(** Sum of a list of counts. *)
Definition total (counts : list nat) : nat := fold_right Nat.add 0%nat counts.

(* ================================================================== *)
(** ** Further inputs of the examples *)

(** A still later clock reading. *)
Definition clk2 : Clock :=
  {| current_timestamp := 3000%Z; strftime_now := lit "2026-01-01 00:34";
     update_timestamp := 3001%Z |}.

(** The initialized store after one chat. *)
Definition one_chat : Conn :=
  snd (add_chat 1 (lit "What color is the sky?") (lit "Blue.") clk1
         (Database clk0)).

(** An environment in which no step fails. *)
Definition no_faults : Faults :=
  {| query_fault := None; remove_db_fault := None;
     remove_fault := fun _ => None; makedirs_fault := None;
     init_fault := None |}.

(** A world before the first connection, with one stray file. *)
Definition new_world : World :=
  {| db_file := None; connection := None;
     paths := [lit "data/uploads/old.txt"]; stdout := [] |}.

(** That world once [Database()] has run in it. *)
Definition started_world : World :=
  snd (init_db_on_connection clk0 new_world).

(** Two uploads whose names differ in a space against an underscore. *)
Definition upload_a : UploadedFile :=
  {| up_name := lit "my notes.txt"; up_type := Some (lit "text/plain");
     up_buffer := [104; 105]%N |}.

Definition upload_b : UploadedFile :=
  {| up_name := lit "my_notes.txt"; up_type := None; up_buffer := [] |}.

(** A stamp as [strftime("%Y%m%d_%H%M%S")] gives it. *)
Definition stamp0 : pystr := lit "20260101_000000".

(** [s.split()]: the words of [s], cut at runs of whitespace; [word] is
    the word being read. *)
Fixpoint split_ws (word s : pystr) : list pystr :=
  match s with
  | [] => if truthy word then [word] else []
  | ch :: rest =>
      if isspace ch
      then if truthy word then word :: split_ws [] rest else split_ws [] rest
      else split_ws (word ++ [ch]) rest
  end.

Definition py_split (s : pystr) : list pystr := split_ws [] s.

(* ================================================================== *)
(** * Properties *)

(** ** Strings *)

Lemma pystr_eqb_eq (a b : pystr) : pystr_eqb a b = true <-> a = b.
Proof.
  unfold pystr_eqb. destruct (list_eq_dec N.eq_dec a b); split; congruence.
Qed.

Lemma pystr_eqb_refl (a : pystr) : pystr_eqb a a = true.
Proof. now apply pystr_eqb_eq. Qed.

Lemma truthy_nil (t : pystr) : truthy t = negb (pystr_eqb t []).
Proof.
  destruct t; [reflexivity|]. simpl.
  destruct (pystr_eqb (n :: t) []) eqn:E; [|reflexivity].
  apply pystr_eqb_eq in E. discriminate.
Qed.

(** ** [clean_text] *)

Lemma newline_is_space : isspace NEWLINE = true.
Proof. reflexivity. Qed.

Lemma no_adjacent_nil : no_adjacent_ws [].
Proof. intros l a b r H. destruct l; discriminate. Qed.

Lemma no_adjacent_cons (a : N) (s : pystr) :
  no_adjacent_ws (a :: s) <->
  (isspace a = true -> no_leading_ws s) /\ no_adjacent_ws s.
Proof.
  split.
  - intros H. split.
    + intros Ha c t ->. destruct (isspace c) eqn:E; [|reflexivity].
      exfalso. exact (H [] a c t eq_refl Ha E).
    + intros l x y r -> Hx Hy. exact (H (a :: l) x y r eq_refl Hx Hy).
  - intros [H1 H2] l x y r E Hx Hy. destruct l as [|z l]; simpl in E.
    + injection E as -> ->. specialize (H1 Hx y r eq_refl). congruence.
    + injection E as -> ->. exact (H2 l x y r eq_refl Hx Hy).
Qed.

Lemma no_leading_nil : no_leading_ws [].
Proof. intros c t H. discriminate. Qed.

Lemma no_leading_cons (a : N) (s : pystr) :
  no_leading_ws (a :: s) <-> isspace a = false.
Proof.
  split.
  - intros H. exact (H a s eq_refl).
  - intros H c t E. injection E as -> ->. exact H.
Qed.

Lemma no_trailing_rev (s : pystr) : no_trailing_ws s <-> no_leading_ws (rev s).
Proof.
  split.
  - intros H c t E. apply (H c (rev t)).
    rewrite <- (rev_involutive s), E. reflexivity.
  - intros H c t ->. apply (H c (rev t)). rewrite rev_app_distr. reflexivity.
Qed.

(** *** Removing NUL *)

Lemma remove_char_no_nul (s : pystr) : Forall (fun c => c <> NUL) (remove_char NUL s).
Proof.
  unfold remove_char. apply Forall_forall. intros c Hc.
  apply filter_In in Hc. destruct Hc as [_ Hc]. intros ->.
  rewrite N.eqb_refl in Hc. discriminate.
Qed.

Lemma remove_char_id (s : pystr) :
  Forall (fun c => c <> NUL) s -> remove_char NUL s = s.
Proof.
  unfold remove_char. induction 1 as [|c s Hc _ IH]; simpl; [reflexivity|].
  apply N.eqb_neq in Hc. rewrite Hc. simpl. now rewrite IH.
Qed.

(** *** Collapsing runs *)

Lemma sub_runs_plain (b : bool) (s : pystr) :
  Forall (fun c => c <> NUL) s -> plain (sub_runs isspace SPACE b s).
Proof.
  intros H. revert b. induction H as [|c s Hc _ IH]; intros b; simpl.
  - constructor.
  - destruct (isspace c) eqn:E.
    + destruct b; [apply IH|]. constructor; [|apply IH].
      split; [discriminate | reflexivity].
    + constructor; [|apply IH]. split; [exact Hc | congruence].
Qed.

Lemma sub_runs_shape (s : pystr) :
  no_leading_ws (sub_runs isspace SPACE true s) /\
  forall b, no_adjacent_ws (sub_runs isspace SPACE b s).
Proof.
  induction s as [|c s [IH1 IH2]]; simpl.
  - split; [apply no_leading_nil | intros _; apply no_adjacent_nil].
  - destruct (isspace c) eqn:E.
    + split; [exact IH1|]. intros [|]; [apply IH2|].
      apply no_adjacent_cons. split; [intros _; exact IH1 | apply IH2].
    + split; [now apply no_leading_cons|]. intros _.
      apply no_adjacent_cons. split; [congruence | apply IH2].
Qed.

Lemma sub_runs_none (cls : N -> bool) (r : N) (b : bool) (s : pystr) :
  Forall (fun c => cls c = false) s -> sub_runs cls r b s = s.
Proof.
  intros H. revert b. induction H as [|c s Hc _ IH]; intros b; simpl.
  - reflexivity.
  - rewrite Hc. now rewrite IH.
Qed.

Lemma sub_runs_fixed (b : bool) (s : pystr) :
  plain s -> no_adjacent_ws s -> (b = true -> no_leading_ws s) ->
  sub_runs isspace SPACE b s = s.
Proof.
  intros H. revert b. induction H as [|c s [_ Hc] _ IH]; intros b Hadj Hlead.
  - reflexivity.
  - simpl. apply no_adjacent_cons in Hadj. destruct Hadj as [Hnext Hadj].
    destruct (isspace c) eqn:E.
    + destruct b.
      * specialize (Hlead eq_refl). apply no_leading_cons in Hlead. congruence.
      * rewrite (Hc eq_refl). f_equal. apply IH; [exact Hadj|].
        intros _. apply Hnext. reflexivity.
    + f_equal. apply IH; [exact Hadj | discriminate].
Qed.

Lemma plain_no_newline (s : pystr) :
  plain s -> Forall (fun c => is_newline c = false) s.
Proof.
  intros H. eapply Forall_impl; [|exact H]. intros c [_ Hc].
  unfold is_newline. destruct (N.eqb c NEWLINE) eqn:E; [|reflexivity].
  apply N.eqb_eq in E. subst c. specialize (Hc newline_is_space). discriminate.
Qed.

(** *** Stripping *)

Lemma lstrip_suffix (s : pystr) : exists p, s = p ++ lstrip s.
Proof.
  induction s as [|c s [p IH]]; simpl.
  - now exists [].
  - destruct (isspace c).
    + exists (c :: p). simpl. now f_equal.
    + now exists [].
Qed.

Lemma lstrip_no_leading (s : pystr) : no_leading_ws (lstrip s).
Proof.
  induction s as [|c s IH]; simpl.
  - apply no_leading_nil.
  - destruct (isspace c) eqn:E; [exact IH | now apply no_leading_cons].
Qed.

Lemma lstrip_id (s : pystr) : no_leading_ws s -> lstrip s = s.
Proof.
  destruct s as [|c s]; [reflexivity|]. intros H.
  apply no_leading_cons in H. simpl. now rewrite H.
Qed.

Lemma rstrip_prefix (s : pystr) : exists q, s = rstrip s ++ q.
Proof.
  unfold rstrip. destruct (lstrip_suffix (rev s)) as [p Hp].
  exists (rev p). rewrite <- rev_app_distr, <- Hp. now rewrite rev_involutive.
Qed.

Lemma rstrip_no_trailing (s : pystr) : no_trailing_ws (rstrip s).
Proof.
  apply no_trailing_rev. unfold rstrip. rewrite rev_involutive.
  apply lstrip_no_leading.
Qed.

Lemma rstrip_id (s : pystr) : no_trailing_ws s -> rstrip s = s.
Proof.
  intros H. unfold rstrip. apply no_trailing_rev in H.
  rewrite (lstrip_id _ H). apply rev_involutive.
Qed.

Lemma strip_infix (s : pystr) : exists p q, s = p ++ strip s ++ q.
Proof.
  unfold strip. destruct (lstrip_suffix s) as [p Hp].
  destruct (rstrip_prefix (lstrip s)) as [q Hq].
  exists p, q. now rewrite <- Hq.
Qed.

Lemma no_leading_prefix (s q : pystr) :
  no_leading_ws (s ++ q) -> no_leading_ws s.
Proof.
  intros H c t ->. exact (H c (t ++ q) eq_refl).
Qed.

Lemma strip_no_leading (s : pystr) : no_leading_ws (strip s).
Proof.
  unfold strip. destruct (rstrip_prefix (lstrip s)) as [q Hq].
  apply no_leading_prefix with q. rewrite <- Hq. apply lstrip_no_leading.
Qed.

Lemma strip_no_trailing (s : pystr) : no_trailing_ws (strip s).
Proof. apply rstrip_no_trailing. Qed.

Lemma no_adjacent_infix (p s q : pystr) :
  no_adjacent_ws (p ++ s ++ q) -> no_adjacent_ws s.
Proof.
  intros H l a b r ->. apply (H (p ++ l) a b (r ++ q)).
  rewrite <- !app_assoc. reflexivity.
Qed.

Lemma plain_infix (p s q : pystr) : plain (p ++ s ++ q) -> plain s.
Proof.
  unfold plain. intros H. apply Forall_app in H. destruct H as [_ H].
  apply Forall_app in H. tauto.
Qed.

(** *** The shape of a cleaned text *)

Lemma clean_text_unfold (s : pystr) :
  s <> [] -> clean_text s = strip (collapsed s).
Proof.
  intros H. unfold clean_text, collapsed. destruct s; [congruence|]. simpl negb.
  cbv iota. cbv zeta. unfold re_sub_plus at 1.
  rewrite sub_runs_none; [reflexivity|].
  apply plain_no_newline. apply sub_runs_plain. apply remove_char_no_nul.
Qed.

Lemma clean_text_shape (s : pystr) :
  plain (clean_text s) /\ no_adjacent_ws (clean_text s) /\
  no_leading_ws (clean_text s) /\ no_trailing_ws (clean_text s).
Proof.
  destruct s as [|c s].
  - simpl. repeat split.
    + constructor.
    + apply no_adjacent_nil.
    + apply no_leading_nil.
    + intros x t H. destruct t; discriminate.
  - rewrite clean_text_unfold by discriminate.
    destruct (strip_infix (collapsed (c :: s))) as (p & q & E).
    assert (Hp : plain (collapsed (c :: s)))
      by (apply sub_runs_plain, remove_char_no_nul).
    assert (Ha : no_adjacent_ws (collapsed (c :: s)))
      by apply sub_runs_shape.
    rewrite E in Hp, Ha. repeat split.
    + exact (plain_infix p _ q Hp).
    + exact (no_adjacent_infix p _ q Ha).
    + apply strip_no_leading.
    + apply strip_no_trailing.
Qed.

Lemma clean_text_fixed (s : pystr) :
  plain s -> no_adjacent_ws s -> no_leading_ws s -> no_trailing_ws s ->
  clean_text s = s.
Proof.
  intros Hp Ha Hl Ht. remember s as s0 eqn:Es. destruct s as [|c s].
  { now subst. }
  rewrite clean_text_unfold by (subst; discriminate). unfold collapsed.
  rewrite remove_char_id.
  - unfold re_sub_plus. rewrite (sub_runs_fixed false s0 Hp Ha) by discriminate.
    unfold strip. rewrite (lstrip_id _ Hl). now apply rstrip_id.
  - eapply Forall_impl; [|exact Hp]. now intros x [Hx _].
Qed.

(** C10.  [clean_text] is idempotent, and a cleaned text holds no NUL
    character, no two whitespace characters in a row, and no whitespace
    at its start or at its end. *)
Theorem clean_text_normal_form (s : pystr) :
  clean_text (clean_text s) = clean_text s /\
  ~ In NUL (clean_text s) /\
  no_adjacent_ws (clean_text s) /\
  no_leading_ws (clean_text s) /\
  no_trailing_ws (clean_text s).
Proof.
  destruct (clean_text_shape s) as (Hp & Ha & Hl & Ht).
  split; [now apply clean_text_fixed|].
  split; [|now repeat split].
  intros Hin. unfold plain in Hp. rewrite Forall_forall in Hp.
  destruct (Hp _ Hin) as [Hn _]. now apply Hn.
Qed.

(* ================================================================== *)
(** ** Transactions *)

(** On a body of the methods, [Wide.get_cursor] is the [get_cursor] the
    methods are written with. *)
Lemma get_cursor_of_method {A : Type} (body : M A) (c : Conn) :
  Wide.get_cursor (Wide.of_method body) c = Wide.of_outcome (get_cursor body c).
Proof.
  unfold Wide.get_cursor, Wide.of_method, get_cursor.
  now destruct (body c) as [[a|e] c'].
Qed.

(** C3.  Work run under [get_cursor] ends in one of three ways.  When it
    returns, its result goes to the caller and the database file holds
    every change the connection saw.  When it raises an instance of
    [Exception], the same exception goes to the caller and the connection
    is back on what the file holds: that is the file of before the call
    unless the work itself committed, and the connection of before the
    call if it had nothing uncommitted then.  When it raises another
    [BaseException], the exception goes to the caller and the connection
    is left as the work left it, with its changes neither committed nor
    undone: the next block that returns commits them. *)
Theorem get_cursor_commit_rollback_or_open
    {A : Type} (work : Wide.Body A) (c : Conn) :
  (forall a c',
     work c = (Wide.Returns a, c') ->
     fst (Wide.get_cursor work c) = Wide.Returns a /\
     committed (snd (Wide.get_cursor work c)) = live c' /\
     live (snd (Wide.get_cursor work c)) = live c') /\
  (forall e c',
     work c = (Wide.Raises (Wide.ExceptionInstance e), c') ->
     fst (Wide.get_cursor work c) = Wide.Raises (Wide.ExceptionInstance e) /\
     committed (snd (Wide.get_cursor work c)) = committed c' /\
     live (snd (Wide.get_cursor work c)) = committed c' /\
     (committed c' = committed c ->
      committed (snd (Wide.get_cursor work c)) = committed c /\
      (live c = committed c -> snd (Wide.get_cursor work c) = c))) /\
  (forall cls msg c',
     work c = (Wide.Raises (Wide.BaseExceptionOnly cls msg), c') ->
     Wide.get_cursor work c
     = (Wide.Raises (Wide.BaseExceptionOnly cls msg), c') /\
     committed (snd (Wide.get_cursor pass c')) = live c' /\
     live (snd (Wide.get_cursor pass c')) = live c').
Proof.
  unfold Wide.get_cursor. split; [|split].
  - intros a c' E. rewrite E. now repeat split.
  - intros e c' E. rewrite E. cbn [fst snd rollback committed live].
    split; [reflexivity|]. split; [reflexivity|]. split; [reflexivity|].
    intros Hfile. split; [exact Hfile|]. intros Hsettled.
    destruct c as [d l]. cbn [committed live] in Hfile, Hsettled.
    subst l. unfold rollback. now rewrite Hfile.
  - intros cls msg c' E. rewrite E. now repeat split.
Qed.

(* ================================================================== *)
(** ** Binding parameters *)

Lemma bind_int (n : Z) :
  bind_parameters [PInt n] = if fits_int64 n then None else Some int_too_large.
Proof. cbn [bind_parameters bind_error]. now destruct (fits_int64 n). Qed.

Lemma bind_two_ints (n m : Z) :
  bind_parameters [PInt n; PInt m]
  = if fits_int64 n && fits_int64 m then None else Some int_too_large.
Proof.
  cbn [bind_parameters bind_error].
  now destruct (fits_int64 n), (fits_int64 m).
Qed.

(** The first parameter of a list that binds, binds alone. *)
Lemma bind_first (p : Param) (rest : list Param) :
  bind_parameters (p :: rest) = None -> bind_parameters [p] = None.
Proof.
  cbn [bind_parameters]. now destruct (bind_error p).
Qed.

Lemma bind_int_fits (n : Z) (rest : list Param) :
  bind_parameters (PInt n :: rest) = None -> fits_int64 n = true.
Proof.
  cbn [bind_parameters bind_error]. now destruct (fits_int64 n).
Qed.

Lemma default_session_binds :
  bind_parameters [PText default_session_name; PInt 1] = None.
Proof. reflexivity. Qed.

(** The binding of the id of [delete_session] is the binding of any
    parameter, on a store whose session ids are 64-bit integers. *)
Lemma bound_session_id_is_bound (id : Z) (c : Conn) :
  Forall (fun s => fits_int64 (s_id s) = true) (sessions (live c)) ->
  bound_session_id id c = bound [PInt id] c.
Proof.
  intros Hids. unfold bound_session_id, bound.
  destruct (session_exists id (live c)) eqn:E; [|reflexivity].
  rewrite bind_int. unfold session_exists in E.
  apply existsb_exists in E. destruct E as (s & Hs & E).
  apply Z.eqb_eq in E. rewrite Forall_forall in Hids.
  specialize (Hids s Hs). rewrite E in Hids. now rewrite Hids.
Qed.

(* ================================================================== *)
(** ** The methods as functions of the live database *)

Lemma rowcount_positive {A : Type} (p : A -> bool) (l : list A) :
  (0 <? length (filter p l))%nat = existsb p l.
Proof.
  induction l as [|x l IH]; simpl; [reflexivity|].
  destruct (p x); simpl; [reflexivity | exact IH].
Qed.

Lemma rowcount_zero {A : Type} (p : A -> bool) (l : list A) :
  (length (filter p l) =? 0)%nat = negb (existsb p l).
Proof.
  induction l as [|x l IH]; simpl; [reflexivity|].
  destruct (p x); simpl; [reflexivity | exact IH].
Qed.

Lemma ensure_active_session_run (clk : Clock) (c : Conn) :
  _ensure_active_session clk c = (Return tt, clean (ensured clk (live c))).
Proof.
  unfold _ensure_active_session, ensured, get_cursor, bind, query.
  destruct (sql_select_active (live c)); [reflexivity|].
  unfold bound. rewrite default_session_binds. reflexivity.
Qed.

Lemma init_db_run (clk : Clock) (c : Conn) :
  _init_db clk c = (Return tt, clean (ensured clk (live c))).
Proof.
  unfold _init_db. unfold bind at 1. unfold get_cursor at 1. unfold ret at 1.
  rewrite ensure_active_session_run. reflexivity.
Qed.

Lemma create_session_run (name : option pystr) (clk : Clock) (c : Conn) :
  create_session name clk c
  = match bind_parameters [PText (name_or_default name clk); PInt 1] with
    | None =>
        (Return (fst (sql_insert_session (name_or_default name clk) true clk
                        (snd (sql_deactivate_all (live c))))),
         clean (snd (sql_insert_session (name_or_default name clk) true clk
                       (snd (sql_deactivate_all (live c))))))
    | Some e => (Raise e, rollback c)
    end.
Proof.
  unfold create_session, get_cursor, bind, bound, execute.
  cbn [sql_deactivate_all fst snd live committed].
  now destruct (bind_parameters _).
Qed.

Lemma set_active_session_run (id : Z) (clk : Clock) (c : Conn) :
  set_active_session id clk c
  = if fits_int64 id
    then (Return (session_exists id (live c)),
          clean (snd (sql_activate id clk (snd (sql_deactivate_all (live c))))))
    else (Raise int_too_large, rollback c).
Proof.
  unfold set_active_session, get_cursor, bind, bound, execute.
  cbn [sql_deactivate_all fst snd live committed]. rewrite bind_int.
  destruct (fits_int64 id); [|reflexivity].
  unfold ret, commit, clean. simpl. f_equal. f_equal.
  rewrite rowcount_positive. unfold session_exists.
  induction (sessions (live c)) as [|s l IH]; simpl; [reflexivity|].
  now rewrite IH.
Qed.

Lemma delete_session_run (id : Z) (clk : Clock) (c : Conn) :
  delete_session id clk c
  = if session_exists id (live c)
    then (Return true, clean (ensured clk (snd (sql_delete_session id (live c)))))
    else if fits_int64 id then (Return false, clean (live c))
         else (Raise int_too_large, rollback c).
Proof.
  unfold delete_session. unfold get_cursor at 1. unfold bind at 1.
  unfold bound_session_id.
  destruct (session_exists id (live c)) eqn:E.
  - unfold bind at 1. unfold execute at 1. unfold sql_delete_session at 1.
    rewrite rowcount_positive. fold (session_exists id (live c)). rewrite E.
    unfold bind. rewrite ensure_active_session_run. unfold ret, commit, clean.
    simpl. unfold sql_delete_session. simpl. reflexivity.
  - unfold bound. rewrite bind_int. destruct (fits_int64 id); [|reflexivity].
    unfold bind at 1. unfold execute at 1. unfold sql_delete_session at 1.
    rewrite rowcount_positive. fold (session_exists id (live c)). rewrite E.
    unfold ret, commit, clean. simpl. rewrite rowcount_zero.
    fold (session_exists id (live c)). rewrite E. reflexivity.
Qed.
(* ================================================================== *)
(** ** Row identifiers *)

Lemma fold_max_ge_seq (seq : Z) (ids : list Z) :
  (seq <= fold_right Z.max seq ids)%Z.
Proof. induction ids as [|x l IH]; simpl; lia. Qed.

Lemma fold_max_ge_in (seq : Z) (ids : list Z) (x : Z) :
  In x ids -> (x <= fold_right Z.max seq ids)%Z.
Proof.
  induction ids as [|y l IH]; simpl; [tauto|].
  intros [->|H]; [lia|]. specialize (IH H). lia.
Qed.

Lemma next_rowid_above_seq (seq : Z) (ids : list Z) :
  (seq < next_rowid seq ids)%Z.
Proof. unfold next_rowid. pose proof (fold_max_ge_seq seq ids). lia. Qed.

Lemma next_rowid_fresh (seq : Z) (ids : list Z) : ~ In (next_rowid seq ids) ids.
Proof.
  intros H. apply (fold_max_ge_in seq) in H. unfold next_rowid in H. lia.
Qed.

Lemma session_exists_in (id : Z) (db : DB) :
  session_exists id db = true <-> In id (map s_id (sessions db)).
Proof.
  unfold session_exists. rewrite existsb_exists, in_map_iff. split.
  - intros (s & Hs & E). apply Z.eqb_eq in E. now exists s.
  - intros (s & E & Hs). exists s. split; [exact Hs | now apply Z.eqb_eq].
Qed.

Lemma session_exists_not_in (id : Z) (db : DB) :
  session_exists id db = false <-> ~ In id (map s_id (sessions db)).
Proof.
  rewrite <- session_exists_in. destruct (session_exists id db); split;
    congruence.
Qed.

Lemma keys_ok_insert (n : pystr) (a : bool) (clk : Clock) (db : DB) :
  session_keys_ok db -> session_keys_ok (snd (sql_insert_session n a clk db)).
Proof.
  intros [Hnd Hle]. unfold session_keys_ok. simpl. split.
  - rewrite map_app. simpl.
    apply NoDup_app_remove_l with (l := []). simpl.
    apply Permutation_NoDup with (l := next_rowid (seq_sessions db)
                                        (map s_id (sessions db))
                                      :: map s_id (sessions db)).
    + apply Permutation_cons_append.
    + constructor; [apply next_rowid_fresh | exact Hnd].
  - apply Forall_app. split.
    + eapply Forall_impl; [|exact Hle]. simpl. intros s Hs.
      pose proof (next_rowid_above_seq (seq_sessions db)
                    (map s_id (sessions db))). lia.
    + constructor; [simpl; lia | constructor].
Qed.

Lemma map_id_relabel (g : Session -> Session) (l : list Session) :
  (forall s, s_id (g s) = s_id s) -> map s_id (map g l) = map s_id l.
Proof.
  intros H. rewrite map_map. apply map_ext. exact H.
Qed.

Lemma keys_ok_relabel (g : Session -> Session) (db : DB) :
  (forall s, s_id (g s) = s_id s) ->
  session_keys_ok db ->
  session_keys_ok (with_sessions db (map g (sessions db)) (seq_sessions db)).
Proof.
  intros Hg [Hnd Hle]. unfold session_keys_ok. simpl. split.
  - now rewrite map_id_relabel.
  - apply Forall_map. eapply Forall_impl; [|exact Hle].
    simpl. intros s Hs. now rewrite Hg.
Qed.

Lemma keys_ok_deactivate (db : DB) :
  session_keys_ok db -> session_keys_ok (snd (sql_deactivate_all db)).
Proof. apply keys_ok_relabel. reflexivity. Qed.

Lemma keys_ok_activate (id : Z) (clk : Clock) (db : DB) :
  session_keys_ok db -> session_keys_ok (snd (sql_activate id clk db)).
Proof.
  apply keys_ok_relabel. intros s. now destruct (s_id s =? id)%Z.
Qed.

Lemma distinct_ids_filter (keep : Session -> bool) (rows : list Session) :
  NoDup (map s_id rows) -> NoDup (map s_id (filter keep rows)).
Proof.
  intros Hnd. induction rows as [|s rows IH]; [constructor|].
  simpl in Hnd. apply NoDup_cons_iff in Hnd. destruct Hnd as [Hs Hrows].
  simpl. destruct (keep s); [|now apply IH].
  simpl. apply NoDup_cons_iff. split; [|now apply IH].
  rewrite in_map_iff. intros (y & E & Hy). apply filter_In in Hy.
  apply Hs. rewrite <- E. apply in_map. tauto.
Qed.

Lemma keys_ok_delete (id : Z) (db : DB) :
  session_keys_ok db -> session_keys_ok (snd (sql_delete_session id db)).
Proof.
  intros [Hnd Hle]. unfold sql_delete_session. simpl.
  destruct (length _ =? 0)%nat; [now split|].
  unfold session_keys_ok. simpl. split.
  - now apply distinct_ids_filter.
  - apply Forall_forall. intros s Hs. apply filter_In in Hs.
    rewrite Forall_forall in Hle. now apply Hle.
Qed.

Lemma keys_ok_ensured (clk : Clock) (db : DB) :
  session_keys_ok db -> session_keys_ok (ensured clk db).
Proof.
  intros H. unfold ensured. destruct (sql_select_active db); [exact H|].
  now apply keys_ok_insert.
Qed.

(* ================================================================== *)
(** ** The active session *)

Lemma active_count_deactivate (db : DB) :
  active_count (snd (sql_deactivate_all db)) = 0%nat.
Proof.
  unfold active_count. simpl.
  induction (sessions db) as [|s l IH]; simpl; [reflexivity | exact IH].
Qed.

Lemma active_count_insert (n : pystr) (clk : Clock) (db : DB) :
  active_count (snd (sql_insert_session n true clk db))
  = S (active_count db).
Proof.
  unfold active_count. simpl. rewrite filter_app, length_app. simpl. lia.
Qed.

Lemma select_active_none (db : DB) :
  sql_select_active db = None <-> active_count db = 0%nat.
Proof.
  unfold sql_select_active, active_count.
  induction (sessions db) as [|s l IH]; simpl; [tauto|].
  destruct (is_active s); simpl; [split; discriminate | exact IH].
Qed.

Lemma active_count_ensured (clk : Clock) (db : DB) :
  active_count (ensured clk db)
  = match active_count db with O => 1%nat | S n => S n end.
Proof.
  unfold ensured. destruct (sql_select_active db) eqn:E.
  - destruct (active_count db) eqn:E'; [|reflexivity].
    apply select_active_none in E'. congruence.
  - rewrite active_count_insert. apply select_active_none in E.
    now rewrite E.
Qed.

Lemma filter_length_le {A : Type} (p q : A -> bool) (l : list A) :
  (length (filter p (filter q l)) <= length (filter p l))%nat.
Proof.
  induction l as [|x l IH]; simpl; [lia|].
  destruct (q x); simpl; destruct (p x); simpl; lia.
Qed.

Lemma active_count_delete_le (id : Z) (db : DB) :
  (active_count (snd (sql_delete_session id db)) <= active_count db)%nat.
Proof.
  unfold sql_delete_session, active_count. simpl.
  destruct (length _ =? 0)%nat; simpl; [lia|]. apply filter_length_le.
Qed.

(** After [UPDATE ... SET is_active = 1 ... WHERE id = ?] on a table with
    nobody active, the active rows are the rows with that id. *)
Lemma active_count_activate (id : Z) (clk : Clock) (db : DB) :
  active_count db = 0%nat ->
  active_count (snd (sql_activate id clk db))
  = length (filter (fun s => s_id s =? id)%Z (sessions db)).
Proof.
  unfold active_count. simpl.
  induction (sessions db) as [|s l IH]; simpl; [reflexivity|].
  destruct (is_active s) eqn:Ea; simpl; [discriminate|]. intros H.
  destruct (s_id s =? id)%Z; simpl; [now rewrite IH | rewrite Ea; now apply IH].
Qed.

Lemma rows_with_id_le_one (id : Z) (l : list Session) :
  NoDup (map s_id l) ->
  (length (filter (fun s => s_id s =? id)%Z l) <= 1)%nat.
Proof.
  induction l as [|s l IH]; simpl; [lia|].
  intros H. inversion H as [|? ? Hs Hl]; subst. specialize (IH Hl).
  destruct (s_id s =? id)%Z eqn:E; simpl; [|exact IH].
  apply Z.eqb_eq in E. subst id.
  destruct (filter (fun s0 => s_id s0 =? s_id s)%Z l) as [|y r] eqn:F;
    simpl; [lia|]. exfalso. apply Hs.
  assert (Hy : In y (filter (fun s0 => s_id s0 =? s_id s)%Z l))
    by (rewrite F; now left).
  apply filter_In in Hy. destruct Hy as [Hy Ey]. apply Z.eqb_eq in Ey.
  rewrite <- Ey. now apply in_map.
Qed.

Lemma rows_with_id_one (id : Z) (db : DB) :
  NoDup (map s_id (sessions db)) -> session_exists id db = true ->
  length (filter (fun s => s_id s =? id)%Z (sessions db)) = 1%nat.
Proof.
  intros Hnd Hex. pose proof (rows_with_id_le_one id _ Hnd) as Hle.
  unfold session_exists in Hex. rewrite <- rowcount_positive in Hex.
  apply Nat.ltb_lt in Hex. lia.
Qed.

Lemma rows_with_id_none (id : Z) (db : DB) :
  session_exists id db = false ->
  length (filter (fun s => s_id s =? id)%Z (sessions db)) = 0%nat.
Proof.
  unfold session_exists. rewrite <- rowcount_positive. intros H.
  apply Nat.ltb_ge in H. lia.
Qed.

Lemma session_exists_deactivate (id : Z) (db : DB) :
  session_exists id (snd (sql_deactivate_all db)) = session_exists id db.
Proof.
  unfold session_exists. simpl.
  induction (sessions db) as [|s l IH]; simpl; [reflexivity | now rewrite IH].
Qed.

(** Every lifecycle call leaves the connection without an open
    transaction. *)
Lemma run_call_clean (call : Call) (clk : Clock) (c : Conn) :
  committed (run_call call clk c) = live (run_call call clk c).
Proof.
  destruct call as [name|id|id]; unfold run_call.
  - rewrite create_session_run. now destruct (bind_parameters _).
  - rewrite set_active_session_run. now destruct (fits_int64 id).
  - rewrite delete_session_run.
    now destruct (session_exists id (live c)), (fits_int64 id).
Qed.

Lemma Database_inv (clk : Clock) :
  lifecycle_inv (live (Database clk)) /\
  active_count (live (Database clk)) = 1%nat.
Proof.
  unfold Database. rewrite init_db_run. cbn [snd live clean]. split; [split|].
  - apply keys_ok_ensured. split; simpl; constructor.
  - rewrite active_count_ensured. reflexivity.
  - rewrite active_count_ensured. reflexivity.
Qed.

Lemma run_call_inv (call : Call) (clk : Clock) (c : Conn) :
  committed c = live c ->
  lifecycle_inv (live c) -> lifecycle_inv (live (run_call call clk c)).
Proof.
  intros Hc [Hk Ha]. destruct call as [name|id|id]; unfold run_call.
  - rewrite create_session_run. destruct (bind_parameters _).
    + cbn [snd live rollback]. rewrite Hc. now split.
    + cbn [snd live clean]. split.
      * now apply keys_ok_insert, keys_ok_deactivate.
      * rewrite active_count_insert, active_count_deactivate. lia.
  - rewrite set_active_session_run. destruct (fits_int64 id).
    + cbn [snd live clean]. split.
      * now apply keys_ok_activate, keys_ok_deactivate.
      * rewrite active_count_activate by apply active_count_deactivate.
        apply rows_with_id_le_one. now apply keys_ok_deactivate.
    + cbn [snd live rollback]. rewrite Hc. now split.
  - rewrite delete_session_run. destruct (session_exists id (live c)).
    + cbn [snd live clean]. split.
      * now apply keys_ok_ensured, keys_ok_delete.
      * rewrite active_count_ensured.
        pose proof (active_count_delete_le id (live c)).
        destruct (active_count (snd (sql_delete_session id (live c)))); lia.
    + destruct (fits_int64 id).
      * cbn [snd live clean]. now split.
      * cbn [snd live rollback]. rewrite Hc. now split.
Qed.

(** At most one session is active after every call of every sequence. *)
Lemma lifecycle_at_most_one (calls : list (Call * Clock)) (clk : Clock) :
  (active_count (live (run_calls calls (Database clk))) <= 1)%nat.
Proof.
  assert (H : forall c, committed c = live c -> lifecycle_inv (live c) ->
                        lifecycle_inv (live (run_calls calls c))).
  { induction calls as [|[call k] rest IH]; intros c Hc Hinv; simpl;
      [exact Hinv|].
    apply IH; [apply run_call_clean | now apply run_call_inv]. }
  apply H; [reflexivity | apply Database_inv].
Qed.

(** Exactly one session stays active through a call, as long as
    [set_active_session] is given the id of a session of the store. *)
Lemma run_call_exactly_one (call : Call) (clk : Clock) (c : Conn) :
  committed c = live c ->
  lifecycle_inv (live c) ->
  active_count (live c) = 1%nat ->
  match call with
  | SetActiveSession id => session_exists id (live c) = true
  | _ => True
  end ->
  active_count (live (run_call call clk c)) = 1%nat.
Proof.
  intros Hc [[Hnd Hle] _] Hone Hcall.
  destruct call as [name|id|id]; unfold run_call.
  - rewrite create_session_run. destruct (bind_parameters _).
    + cbn [snd live rollback]. now rewrite Hc.
    + cbn [snd live clean].
      now rewrite active_count_insert, active_count_deactivate.
  - rewrite set_active_session_run. destruct (fits_int64 id).
    + cbn [snd live clean].
      rewrite active_count_activate by apply active_count_deactivate.
      apply rows_with_id_one.
      * simpl. now rewrite map_id_relabel.
      * now rewrite session_exists_deactivate.
    + cbn [snd live rollback]. now rewrite Hc.
  - rewrite delete_session_run. destruct (session_exists id (live c)).
    + cbn [snd live clean]. rewrite active_count_ensured.
      pose proof (active_count_delete_le id (live c)).
      destruct (active_count (snd (sql_delete_session id (live c)))); lia.
    + destruct (fits_int64 id).
      * cbn [snd live clean]. exact Hone.
      * cbn [snd live rollback]. now rewrite Hc.
Qed.

(** [set_active_session] with an id that no session has returns [False]
    and leaves no session active. *)
Lemma set_active_session_missing (id : Z) (clk : Clock) (c : Conn) :
  fits_int64 id = true ->
  session_exists id (live c) = false ->
  fst (set_active_session id clk c) = Return false /\
  active_count (live (snd (set_active_session id clk c))) = 0%nat /\
  active_count (committed (snd (set_active_session id clk c))) = 0%nat.
Proof.
  intros Hfits H. rewrite set_active_session_run, Hfits.
  cbn [fst snd live committed clean].
  rewrite H. split; [reflexivity|].
  assert (E : active_count (snd (sql_activate id clk
                                   (snd (sql_deactivate_all (live c))))) = 0%nat).
  { rewrite active_count_activate by apply active_count_deactivate.
    apply rows_with_id_none. now rewrite session_exists_deactivate. }
  now split.
Qed.

(** C1.  On a freshly initialized store, whose one session has id 1 and
    is active, [set_active_session(2)] deactivates that session, finds no
    row with id 2, commits and returns [False]: no session is active
    after the call. *)
Theorem set_active_session_unknown_id_leaves_none_active :
  active_count (live (Database clk0)) = 1%nat /\
  session_exists 2 (live (Database clk0)) = false /\
  fst (set_active_session 2 clk0 (Database clk0)) = Return false /\
  active_count
    (committed (run_calls [(SetActiveSession 2, clk0)] (Database clk0)))
  = 0%nat /\
  active_count
    (live (run_calls [(SetActiveSession 2, clk0)] (Database clk0)))
  = 0%nat.
Proof. repeat split; reflexivity. Qed.

(* ================================================================== *)
(** ** Deleting a session *)

Lemma delete_session_present (id : Z) (db : DB) :
  session_exists id db = true ->
  snd (sql_delete_session id db)
  = {| sessions := filter (fun s => negb (s_id s =? id)%Z) (sessions db);
       files := filter (fun f => negb (f_session_id f =? id)%Z) (files db);
       chats := filter (fun c => negb (c_session_id c =? id)%Z) (chats db);
       seq_sessions := seq_sessions db; seq_files := seq_files db;
       seq_chats := seq_chats db |}.
Proof.
  intros H. unfold sql_delete_session. cbn [snd]. rewrite rowcount_zero.
  fold (session_exists id db). now rewrite H.
Qed.

Lemma ensured_tables (clk : Clock) (db : DB) :
  files (ensured clk db) = files db /\ chats (ensured clk db) = chats db /\
  exists extra,
    sessions (ensured clk db) = sessions db ++ extra /\
    Forall (fun s => (seq_sessions db < s_id s)%Z) extra.
Proof.
  unfold ensured. destruct (sql_select_active db).
  - repeat split. exists []. split; [now rewrite app_nil_r | constructor].
  - repeat split. eexists. split; [reflexivity|].
    constructor; [|constructor]. cbn [s_id]. apply next_rowid_above_seq.
Qed.

Lemma ensured_has_active (clk : Clock) (db : DB) :
  existsb is_active (sessions (ensured clk db)) = true.
Proof.
  rewrite <- rowcount_positive. apply Nat.ltb_lt.
  fold (active_count (ensured clk db)). rewrite active_count_ensured.
  destruct (active_count db); lia.
Qed.

(** C2.  [delete_session] on the id of a session of the store returns
    [True] and commits a store in which no session has that id, the
    files and the chats are those of the other sessions, the other
    sessions are all still there, and some session is active (whether
    the deleted one was the active one or not). *)
Theorem delete_session_cascades_and_keeps_active
    (id : Z) (clk : Clock) (c : Conn)
    (Hkeys : session_keys_ok (live c))
    (Hin : session_exists id (live c) = true) :
  exists c',
    delete_session id clk c = (Return true, c') /\
    committed c' = live c' /\
    session_exists id (live c') = false /\
    files (live c')
    = filter (fun f => negb (f_session_id f =? id)%Z) (files (live c)) /\
    chats (live c')
    = filter (fun x => negb (c_session_id x =? id)%Z) (chats (live c)) /\
    Forall (fun f => f_session_id f <> id) (files (live c')) /\
    Forall (fun x => c_session_id x <> id) (chats (live c')) /\
    (forall s, In s (sessions (live c)) -> s_id s <> id ->
               In s (sessions (live c'))) /\
    existsb is_active (sessions (live c')) = true.
Proof.
  rewrite delete_session_run, Hin. eexists. split; [reflexivity|].
  cbn [live committed clean].
  destruct (ensured_tables clk (snd (sql_delete_session id (live c))))
    as (Hf & Hc & extra & Hs & Hextra).
  rewrite Hf, Hc. rewrite (delete_session_present _ _ Hin) in *.
  cbn [sessions files chats seq_sessions] in *.
  destruct Hkeys as [_ Hle]. rewrite Forall_forall in Hle.
  split; [reflexivity|]. split.
  { apply session_exists_not_in. rewrite Hs, map_app, in_app_iff.
    intros [H|H]; apply in_map_iff in H; destruct H as (s & E & H).
    - apply filter_In in H. destruct H as [_ H].
      apply negb_true_iff, Z.eqb_neq in H. contradiction.
    - rewrite Forall_forall in Hextra. specialize (Hextra _ H).
      apply session_exists_in, in_map_iff in Hin.
      destruct Hin as (s0 & E0 & H0). specialize (Hle _ H0). lia. }
  split; [reflexivity|]. split; [reflexivity|]. split.
  { apply Forall_forall. intros f Hf'. apply filter_In in Hf'.
    destruct Hf' as [_ Hf']. now apply negb_true_iff, Z.eqb_neq in Hf'. }
  split.
  { apply Forall_forall. intros x Hx. apply filter_In in Hx.
    destruct Hx as [_ Hx]. now apply negb_true_iff, Z.eqb_neq in Hx. }
  split.
  { intros s H Hne. rewrite Hs. apply in_app_iff. left. apply filter_In.
    split; [exact H|]. now apply negb_true_iff, Z.eqb_neq. }
  apply ensured_has_active.
Qed.

(* ================================================================== *)
(** ** Choosing the active session *)

(** C5.  With an id that SQLite binds, [set_active_session id] commits a
    store in which every session but the one with the given id is
    inactive and otherwise as before, the session with the given id is
    active with its last-accessed time set to the current time, and files
    and chats are untouched; it returns whether a session with that id
    existed.  With any other id it raises [OverflowError] and the
    connection is rolled back, so that no session is deactivated. *)
Theorem set_active_session_activates_only_target
    (id : Z) (clk : Clock) (c : Conn) :
  (fits_int64 id = true ->
   exists c',
     set_active_session id clk c = (Return (session_exists id (live c)), c') /\
     committed c' = live c' /\
     Forall2 (activated id clk) (sessions (live c)) (sessions (live c')) /\
     files (live c') = files (live c) /\
     chats (live c') = chats (live c) /\
     (session_exists id (live c) = true <->
      exists s, In s (sessions (live c)) /\ s_id s = id)) /\
  (fits_int64 id = false ->
   set_active_session id clk c
   = (Raise (OverflowError
               (lit "Python int too large to convert to SQLite INTEGER")),
      {| committed := committed c; live := committed c |})).
Proof.
  rewrite set_active_session_run. split; intros Hfits; rewrite Hfits;
    [|reflexivity].
  eexists. split; [reflexivity|].
  cbn [live committed clean]. split; [reflexivity|]. split.
  { cbn. induction (sessions (live c)) as [|s l IH]; cbn; constructor.
    - unfold activated. cbn. destruct (s_id s =? id)%Z; cbn; tauto.
    - exact IH. }
  split; [reflexivity|]. split; [reflexivity|].
  rewrite session_exists_in, in_map_iff. split; intros (s & H1 & H2);
    exists s; tauto.
Qed.

(** An id that is no 64-bit integer: the call raises, and the session
    that was active still is. *)
Lemma set_active_session_unbindable_id :
  fst (set_active_session 9223372036854775808 clk1 (Database clk0))
  = Raise (OverflowError
             (lit "Python int too large to convert to SQLite INTEGER")) /\
  snd (set_active_session 9223372036854775808 clk1 (Database clk0))
  = Database clk0 /\
  map is_active (sessions (live (Database clk0))) = [true].
Proof. repeat split. Qed.

(* ================================================================== *)
(** ** Reading file content *)

Lemma find_unique_id (id : Z) (l : list File) (f : File) :
  NoDup (map f_id l) -> In f l -> f_id f = id ->
  find (fun x => f_id x =? id)%Z l = Some f.
Proof.
  induction l as [|x l IH]; simpl; [tauto|].
  intros Hnd Hin E. inversion Hnd as [|? ? Hx Hl]; subst.
  destruct Hin as [->|Hin].
  - now rewrite Z.eqb_refl.
  - destruct (f_id x =? f_id f)%Z eqn:Ex.
    + apply Z.eqb_eq in Ex. exfalso. apply Hx. rewrite Ex. now apply in_map.
    + now apply IH.
Qed.

Lemma find_absent_id (id : Z) (l : list File) :
  (forall f, In f l -> f_id f <> id) ->
  find (fun x => f_id x =? id)%Z l = None.
Proof.
  intros H. destruct (find _ l) as [f|] eqn:E; [|reflexivity].
  apply find_some in E. destruct E as [Hin E]. apply Z.eqb_eq in E.
  now specialize (H _ Hin).
Qed.

Lemma get_file_content_run (id : Z) (c : Conn) :
  get_file_content id c
  = if fits_int64 id
    then (Return (match sql_select_file_content id (live c) with
                  | Some v => v
                  | None => Some []
                  end), commit c)
    else (Raise int_too_large, rollback c).
Proof.
  unfold get_file_content, get_cursor, bind, bound. rewrite bind_int.
  now destruct (fits_int64 id).
Qed.

(** C6.  With an id that SQLite binds, [get_file_content id] returns
    what the row of the file with that id holds as extracted text, which
    is [None] and no string when the column is NULL, and it returns the
    empty string when no file has that id.  With any other id it raises
    [OverflowError]. *)
Theorem get_file_content_stored_or_empty (id : Z) (c : Conn)
    (Hkeys : NoDup (map f_id (files (live c)))) :
  (fits_int64 id = true ->
   (forall f, In f (files (live c)) -> f_id f = id ->
              get_file_content id c = (Return (content_text f), commit c)) /\
   ((forall f, In f (files (live c)) -> f_id f <> id) ->
    get_file_content id c = (Return (Some []), commit c))) /\
  (fits_int64 id = false ->
   get_file_content id c
   = (Raise (OverflowError
               (lit "Python int too large to convert to SQLite INTEGER")),
      rollback c)).
Proof.
  rewrite get_file_content_run. unfold sql_select_file_content.
  split; intros Hfits; rewrite Hfits; [|reflexivity]. split.
  - intros f Hin E. now rewrite (find_unique_id id _ f Hkeys Hin E).
  - intros H. now rewrite (find_absent_id id _ H).
Qed.

(** A file stored without text: [get_file_content] returns [None], which
    is neither a text nor the empty string.  And an id that is no 64-bit
    integer, which no file has: the call raises instead of returning the
    empty string. *)
Lemma get_file_content_null_text :
  map f_id (files (live upload_without_text)) = [1%Z] /\
  map content_text (files (live upload_without_text)) = [None] /\
  fst (get_file_content 1 upload_without_text) = Return None /\
  fst (get_file_content 9223372036854775808 upload_without_text)
  = Raise (OverflowError
             (lit "Python int too large to convert to SQLite INTEGER")).
Proof. repeat split. Qed.

(* ================================================================== *)
(** ** Aggregating a session's text *)

Lemma has_text_truthy (f : File) :
  has_text f = match content_text f with
               | Some t => truthy t
               | None => false
               end.
Proof.
  unfold has_text. destruct (content_text f); [|reflexivity].
  symmetry. apply truthy_nil.
Qed.

Lemma selected_texts_are_strings (id : Z) (db : DB) (i : nat) :
  str_items i (sql_select_session_texts id db) = Return (session_texts id db).
Proof.
  unfold sql_select_session_texts, session_texts. revert i.
  induction (files db) as [|f l IH]; intros i; simpl; [reflexivity|].
  destruct (f_session_id f =? id)%Z; simpl; [|apply IH].
  rewrite has_text_truthy.
  destruct (content_text f) as [t|] eqn:E; [|apply IH].
  destruct (truthy t); [|apply IH].
  simpl. now rewrite E, IH.
Qed.

Lemma get_session_content_run (id : Z) (c : Conn) :
  get_session_content id c
  = if fits_int64 id
    then (Return (join [10; 10]%N (session_texts id (live c))), commit c)
    else (Raise int_too_large, rollback c).
Proof.
  unfold get_session_content, get_cursor, bind, bound. rewrite bind_int.
  destruct (fits_int64 id); [|reflexivity].
  unfold py_join, query. cbn [live]. now rewrite selected_texts_are_strings.
Qed.

(** C4.  With an id that SQLite binds, [get_session_content id] returns
    the texts of the files of the session that are neither NULL nor
    empty, each two neighbours separated by the two characters
    [\n\n], in some order (here the order of the rows); when there is no
    such text it returns the empty string.  With any other id it raises
    [OverflowError]. *)
Theorem get_session_content_joins_texts (id : Z) (c : Conn) :
  (fits_int64 id = true ->
   exists texts,
     Permutation texts (session_texts id (live c)) /\
     get_session_content id c = (Return (join [10; 10]%N texts), commit c) /\
     (session_texts id (live c) = [] ->
      get_session_content id c = (Return [], commit c)) /\
     (forall a b, texts = [a; b] ->
                  get_session_content id c
                  = (Return (a ++ [10; 10]%N ++ b), commit c))) /\
  (fits_int64 id = false ->
   get_session_content id c
   = (Raise (OverflowError
               (lit "Python int too large to convert to SQLite INTEGER")),
      rollback c)).
Proof.
  rewrite get_session_content_run.
  split; intros Hfits; rewrite Hfits; [|reflexivity].
  exists (session_texts id (live c)). split; [apply Permutation_refl|].
  split; [reflexivity|]. split.
  - intros H. now rewrite H.
  - intros a b H. now rewrite H.
Qed.

(** An id that is no 64-bit integer: the session owns no file, and the
    call raises instead of returning the empty string. *)
Lemma get_session_content_unbindable_id :
  session_texts 9223372036854775808 (live one_upload) = [] /\
  get_session_content 9223372036854775808 one_upload
  = (Raise (OverflowError
              (lit "Python int too large to convert to SQLite INTEGER")),
     one_upload).
Proof. split; reflexivity. Qed.

(* ================================================================== *)
(** ** Work that does not commit *)

Lemma no_commit_ret {A : Type} (a : A) : no_commit (ret a).
Proof. intros c. reflexivity. Qed.

Lemma no_commit_raise {A : Type} (e : exn) : no_commit (@raise Conn A e).
Proof. intros c. reflexivity. Qed.

Lemma no_commit_execute {A : Type} (stmt : DB -> A * DB) : no_commit (execute stmt).
Proof. intros c. unfold execute. now destruct (stmt (live c)). Qed.

Lemma no_commit_execute_checked {A : Type} (stmt : DB -> outcome (A * DB)) :
  no_commit (execute_checked stmt).
Proof.
  intros c. unfold execute_checked.
  now destruct (stmt (live c)) as [[a db]|e].
Qed.

Lemma no_commit_query {A : Type} (sel : DB -> A) : no_commit (query sel).
Proof. intros c. reflexivity. Qed.

Lemma no_commit_bound (parameters : list Param) : no_commit (bound parameters).
Proof. intros c. unfold bound. now destruct (bind_parameters parameters). Qed.

Lemma no_commit_bind {A B : Type} (m : M A) (k : A -> M B) :
  no_commit m -> (forall a, no_commit (k a)) -> no_commit (bind m k).
Proof.
  intros Hm Hk c. unfold bind. specialize (Hm c).
  destruct (m c) as [[a|e] c1]; simpl in *; [|exact Hm].
  now rewrite Hk.
Qed.

Lemma add_file_statements_no_commit
    (session_id : Z) (name path : pystr) (size : option Z)
    (content type : option pystr) (clk : Clock) :
  no_commit (add_file_statements session_id name path size content type clk).
Proof.
  unfold add_file_statements.
  repeat (apply no_commit_bind; [|intros ?]);
    auto using no_commit_bound, no_commit_execute_checked, no_commit_execute,
               no_commit_ret.
Qed.

Lemma add_chat_statements_no_commit
    (session_id : Z) (q a : pystr) (clk : Clock) :
  no_commit (add_chat_statements session_id q a clk).
Proof.
  unfold add_chat_statements.
  repeat (apply no_commit_bind; [|intros ?]);
    auto using no_commit_bound, no_commit_execute_checked, no_commit_execute,
               no_commit_ret.
Qed.

(* ================================================================== *)
(** ** Adding files and chats *)

Lemma add_file_run
    (session_id : Z) (name path : pystr) (size : option Z)
    (content type : option pystr) (clk : Clock) (c : Conn) :
  session_exists session_id (live c) = true ->
  bind_parameters (file_parameters session_id name path size content type)
  = None ->
  add_file session_id name path size content type clk c
  = (Return (next_file_id (live c)),
     clean (snd (sql_touch_session session_id (update_timestamp clk)
                   (with_files (live c)
                      (files (live c)
                       ++ [{| f_id := next_file_id (live c);
                              f_session_id := session_id; filename := name;
                              filepath := path; filesize := size;
                              content_text := content;
                              upload_time := current_timestamp clk;
                              file_type := type |}])
                      (next_file_id (live c)))))).
Proof.
  intros Hin Hbind. pose proof (bind_first _ _ Hbind) as Hid.
  unfold add_file, add_file_statements, get_cursor, bind, bound.
  rewrite Hbind. unfold execute_checked, sql_insert_file. rewrite Hin.
  rewrite Hid. reflexivity.
Qed.

(** With a parameter that cannot be bound, the INSERT does not run: the
    call raises what the binding raises and the connection is rolled
    back. *)
Lemma add_file_unbindable
    (session_id : Z) (name path : pystr) (size : option Z)
    (content type : option pystr) (clk : Clock) (c : Conn) (e : exn) :
  bind_parameters (file_parameters session_id name path size content type)
  = Some e ->
  add_file session_id name path size content type clk c
  = (Raise e, rollback c).
Proof.
  intros Hbind. unfold add_file, add_file_statements, get_cursor, bind, bound.
  now rewrite Hbind.
Qed.

(** Without the session, the foreign key stops the INSERT: the call
    raises and the store is rolled back. *)
Lemma add_file_unknown_session
    (session_id : Z) (name path : pystr) (size : option Z)
    (content type : option pystr) (clk : Clock) (c : Conn) :
  bind_parameters (file_parameters session_id name path size content type)
  = None ->
  session_exists session_id (live c) = false ->
  add_file session_id name path size content type clk c
  = (Raise fk_failed, rollback c).
Proof.
  intros Hbind H. unfold add_file, add_file_statements, get_cursor, bind, bound.
  rewrite Hbind. unfold execute_checked, sql_insert_file. now rewrite H.
Qed.

Lemma add_chat_run
    (session_id : Z) (q a : pystr) (clk : Clock) (c : Conn) :
  session_exists session_id (live c) = true ->
  bind_parameters [PInt session_id; PText q; PText a] = None ->
  add_chat session_id q a clk c
  = (Return (next_rowid (seq_chats (live c)) (map c_id (chats (live c)))),
     clean (snd (sql_touch_session session_id (update_timestamp clk)
                   (with_chats (live c)
                      (chats (live c)
                       ++ [{| c_id := next_rowid (seq_chats (live c))
                                        (map c_id (chats (live c)));
                              c_session_id := session_id; question := q;
                              answer := a;
                              c_created_at := current_timestamp clk |}])
                      (next_rowid (seq_chats (live c))
                         (map c_id (chats (live c)))))))).
Proof.
  intros Hin Hbind. pose proof (bind_first _ _ Hbind) as Hid.
  unfold add_chat, add_chat_statements, get_cursor, bind, bound.
  rewrite Hbind. unfold execute_checked, sql_insert_chat. rewrite Hin.
  rewrite Hid. reflexivity.
Qed.

Lemma add_chat_unbindable
    (session_id : Z) (q a : pystr) (clk : Clock) (c : Conn) (e : exn) :
  bind_parameters [PInt session_id; PText q; PText a] = Some e ->
  add_chat session_id q a clk c = (Raise e, rollback c).
Proof.
  intros Hbind. unfold add_chat, add_chat_statements, get_cursor, bind, bound.
  now rewrite Hbind.
Qed.

Lemma add_chat_unknown_session
    (session_id : Z) (q a : pystr) (clk : Clock) (c : Conn) :
  bind_parameters [PInt session_id; PText q; PText a] = None ->
  session_exists session_id (live c) = false ->
  add_chat session_id q a clk c = (Raise fk_failed, rollback c).
Proof.
  intros Hbind H. unfold add_chat, add_chat_statements, get_cursor, bind, bound.
  rewrite Hbind. unfold execute_checked, sql_insert_chat. now rewrite H.
Qed.

(** What the UPDATE of [add_file] and [add_chat] does to the rows of
    [sessions]. *)
Lemma touch_session_rows (id : Z) (clk : Clock) (l : list Session) :
  Forall2 (touched id clk) l
    (map (fun s => if (s_id s =? id)%Z
                   then set_last_accessed (update_timestamp clk) s
                   else s) l).
Proof.
  induction l as [|s l IH]; simpl; constructor; [|exact IH].
  unfold touched. destruct (s_id s =? id)%Z eqn:E; rewrite ?E; simpl;
    repeat split; assumption.
Qed.

(** No time goes back in that UPDATE exactly when the stored time of
    the session with the id is not later than the clock's reading. *)
Lemma touch_session_later (id : Z) (t : timestamp) (l : list Session) :
  Forall2 (fun s s' => (last_accessed s <= last_accessed s')%Z) l
    (map (fun s => if (s_id s =? id)%Z then set_last_accessed t s else s) l)
  <-> Forall (fun s => s_id s = id -> (last_accessed s <= t)%Z) l.
Proof.
  induction l as [|s l IH]; simpl.
  - split; constructor.
  - split; intros H.
    + inversion H as [|? ? ? ? Hs Hl]; subst. constructor; [|now apply IH].
      intros E. apply Z.eqb_eq in E. rewrite E in Hs. exact Hs.
    + inversion H as [|? ? Hs Hl]; subst. constructor; [|now apply IH].
      destruct (s_id s =? id)%Z eqn:E; simpl; [|lia].
      apply Z.eqb_eq in E. now apply Hs.
Qed.

(** C8.  For a session of the store and parameters that SQLite binds,
    [add_file] and [add_chat] each commit the new row at the end of its
    table together with the session's last-accessed time, which becomes
    the time the UPDATE reads from the clock: a time that is not before
    the previous value exactly when the time stored for the session is
    not later than that reading.
    Every other session keeps its row, time included.  The method is
    one [get_cursor] block, and its statements commit nothing before
    the commit that ends it.  With a parameter that cannot be bound the
    method raises and the connection is rolled back. *)
Theorem add_file_add_chat_touch_owner
    (session_id : Z) (name path : pystr) (size : option Z)
    (content type : option pystr) (q a : pystr) (clk : Clock) (c : Conn)
    (Hin : session_exists session_id (live c) = true) :
  ((bind_parameters (file_parameters session_id name path size content type)
    = None ->
    exists id c',
      add_file session_id name path size content type clk c = (Return id, c') /\
      committed c' = live c' /\
      files (live c')
      = files (live c)
        ++ [{| f_id := id; f_session_id := session_id; filename := name;
               filepath := path; filesize := size; content_text := content;
               upload_time := current_timestamp clk; file_type := type |}] /\
      chats (live c') = chats (live c) /\
      Forall2 (touched session_id clk) (sessions (live c)) (sessions (live c')) /\
      (Forall2 (fun s s' => (last_accessed s <= last_accessed s')%Z)
               (sessions (live c)) (sessions (live c'))
       <-> Forall (fun s => s_id s = session_id ->
                            (last_accessed s <= update_timestamp clk)%Z)
                  (sessions (live c)))) /\
   (forall e,
      bind_parameters (file_parameters session_id name path size content type)
      = Some e ->
      add_file session_id name path size content type clk c
      = (Raise e, rollback c)) /\
   add_file session_id name path size content type clk
   = get_cursor
       (add_file_statements session_id name path size content type clk) /\
   no_commit (add_file_statements session_id name path size content type clk))
  /\
  ((bind_parameters [PInt session_id; PText q; PText a] = None ->
    exists id c',
      add_chat session_id q a clk c = (Return id, c') /\
      committed c' = live c' /\
      chats (live c')
      = chats (live c)
        ++ [{| c_id := id; c_session_id := session_id; question := q;
               answer := a; c_created_at := current_timestamp clk |}] /\
      files (live c') = files (live c) /\
      Forall2 (touched session_id clk) (sessions (live c)) (sessions (live c')) /\
      (Forall2 (fun s s' => (last_accessed s <= last_accessed s')%Z)
               (sessions (live c)) (sessions (live c'))
       <-> Forall (fun s => s_id s = session_id ->
                            (last_accessed s <= update_timestamp clk)%Z)
                  (sessions (live c)))) /\
   (forall e,
      bind_parameters [PInt session_id; PText q; PText a] = Some e ->
      add_chat session_id q a clk c = (Raise e, rollback c)) /\
   add_chat session_id q a clk
   = get_cursor (add_chat_statements session_id q a clk) /\
   no_commit (add_chat_statements session_id q a clk)).
Proof.
  split; (split; [|split; [|split]]).
  - intros Hbind. rewrite (add_file_run _ _ _ _ _ _ _ _ Hin Hbind).
    do 2 eexists. split; [reflexivity|]. cbn.
    split; [reflexivity|]. split; [reflexivity|]. split; [reflexivity|].
    split; [apply touch_session_rows | apply touch_session_later].
  - intros e. apply add_file_unbindable.
  - reflexivity.
  - apply add_file_statements_no_commit.
  - intros Hbind. rewrite (add_chat_run _ _ _ _ _ Hin Hbind).
    do 2 eexists. split; [reflexivity|]. cbn.
    split; [reflexivity|]. split; [reflexivity|]. split; [reflexivity|].
    split; [apply touch_session_rows | apply touch_session_later].
  - intros e. apply add_chat_unbindable.
  - reflexivity.
  - apply add_chat_statements_no_commit.
Qed.

(** A clock that was set back: [add_file] and [add_chat] at a reading
    before the stored time move the session's last-accessed time back,
    from 2000 to 1001.  And a question that holds a lone surrogate, for
    the session of the store: [add_chat] raises and inserts nothing. *)
Lemma add_file_add_chat_clock_set_back :
  map last_accessed (sessions (live (Database clk1))) = [2000%Z] /\
  fst (add_file 1 (lit "notes.txt") (lit "data/uploads/notes.txt") (Some 5%Z)
         (Some (lit "hello")) (Some (lit "text/plain")) clk0 (Database clk1))
  = Return 1%Z /\
  map last_accessed
    (sessions
       (live (snd (add_file 1 (lit "notes.txt") (lit "data/uploads/notes.txt")
                     (Some 5%Z) (Some (lit "hello"))
                     (Some (lit "text/plain")) clk0 (Database clk1)))))
  = [1001%Z] /\
  fst (add_chat 1 (lit "What color is the sky?") (lit "Blue.") clk0
         (Database clk1))
  = Return 1%Z /\
  map last_accessed
    (sessions
       (live (snd (add_chat 1 (lit "What color is the sky?") (lit "Blue.")
                     clk0 (Database clk1)))))
  = [1001%Z] /\
  add_chat 1 [97; 56448]%N (lit "Blue.") clk1 (Database clk0)
  = (Raise (UnicodeEncodeError
              (lit "'utf-8' codec can't encode character '\udc80' in position 1: surrogates not allowed")),
     Database clk0).
Proof. repeat split. Qed.

(* ================================================================== *)
(** ** Clearing all data *)

Lemma Database_fresh_store (clk : Clock) : Database clk = clean (fresh_store clk).
Proof. reflexivity. Qed.

Lemma get_connection_paths (w : World) :
  paths (_get_connection w) = paths w /\ stdout (_get_connection w) = stdout w.
Proof. unfold _get_connection. now destruct (connection w). Qed.

(** The query of [clear_all_data] for the recorded paths. *)
Lemma select_filepaths_run (w : World) :
  on_connection (lit "files") (get_cursor (query sql_select_filepaths)) w
  = match tables (_get_connection w) with
    | Some c => (Return (recorded_paths w),
                 with_tables (_get_connection w) (commit c))
    | None => (Raise (no_such_table (lit "files")), _get_connection w)
    end.
Proof.
  unfold on_connection, recorded_paths.
  now destruct (tables (_get_connection w)).
Qed.

(** [_init_db] where there is neither a database file nor a
    connection. *)
Lemma init_db_from_nothing (clk : Clock) (w : World) :
  db_file w = None -> connection w = None ->
  init_db_on_connection clk w
  = (Return tt,
     {| db_file := Some (Tables (fresh_store clk));
        connection := Some (Tables (fresh_store clk));
        paths := paths w; stdout := stdout w |}).
Proof.
  intros Hd Hc. unfold init_db_on_connection, _get_connection.
  rewrite Hc, Hd. cbn [tables connection db_file]. rewrite init_db_run.
  reflexivity.
Qed.

(** Deleting the uploaded files never raises and touches the paths
    only. *)
Lemma remove_uploads_swallows (flt : Faults) (file_paths : list pystr) (w : World) :
  exists w',
    remove_uploads flt file_paths w = (Return tt, w') /\
    db_file w' = db_file w /\ connection w' = connection w /\
    stdout w' = stdout w.
Proof.
  revert w. induction file_paths as [|p rest IH]; intros w.
  - exists w. now repeat split.
  - cbn [remove_uploads]. unfold bind at 1. unfold bind at 1.
    unfold path_exists at 1.
    assert (Hstep : exists w1,
               (if truthy p && existsb (pystr_eqb p) (paths w)
                then try_catch (os_remove flt p) (fun _ => ret tt)
                else ret tt) w = (Return tt, w1) /\
               db_file w1 = db_file w /\ connection w1 = connection w /\
               stdout w1 = stdout w).
    { destruct (truthy p && existsb (pystr_eqb p) (paths w)).
      - unfold try_catch, os_remove, faulty.
        destruct (remove_fault flt p).
        + exists w. now repeat split.
        + destruct (existsb (pystr_eqb p) (paths w)).
          * eexists. split; [reflexivity|]. now repeat split.
          * exists w. now repeat split.
      - exists w. now repeat split. }
    destruct Hstep as (w1 & E1 & Hd & Hc & Ho). rewrite E1.
    destruct (IH w1) as (w' & E' & Hd' & Hc' & Ho'). exists w'.
    split; [exact E'|]. repeat split; congruence.
Qed.

Lemma bind_return {S A B : Type} (m : Eff S A) (k : A -> Eff S B)
    (s s' : S) (a : A) :
  m s = (Return a, s') -> bind m k s = k a s'.
Proof. intros H. unfold bind. now rewrite H. Qed.

Lemma bind_raise {S A B : Type} (m : Eff S A) (k : A -> Eff S B)
    (s s' : S) (e : exn) :
  m s = (Raise e, s') -> bind m k s = (Raise e, s').
Proof. intros H. unfold bind. now rewrite H. Qed.

(** The removal of the database file, when it exists. *)
Lemma remove_db_file_fails (flt : Faults) (w : World) (e : exn) (s : Store) :
  remove_db_fault flt = Some e -> db_file w = Some s ->
  (e <- db_file_exists ;; if e then remove_db_file flt else ret tt) w
  = (Raise e, w).
Proof.
  intros Hf Hd. unfold bind, db_file_exists, remove_db_file, faulty.
  now rewrite Hd, Hf.
Qed.

Lemma remove_db_file_done (flt : Faults) (w : World) :
  remove_db_fault flt = None \/ db_file w = None ->
  (e <- db_file_exists ;; if e then remove_db_file flt else ret tt) w
  = (Return tt, {| db_file := None; connection := connection w;
                   paths := paths w; stdout := stdout w |}).
Proof.
  unfold bind, db_file_exists, remove_db_file, faulty, ret.
  intros [H|H]; rewrite H.
  - destruct (db_file w) eqn:E; [reflexivity|].
    destruct w; cbn in *; now subst.
  - destruct w; cbn in *; now subst.
Qed.

Lemma with_tables_file (w : World) (c : Conn) :
  match db_file (with_tables w c), db_file w with
  | Some _, Some _ | None, None => True
  | _, _ => False
  end.
Proof.
  unfold with_tables, linked. cbn [db_file].
  destruct (connection w) as [[|l]|], (db_file w) as [[|d]|]; exact I.
Qed.

(** How [clear_all_data] ends: with the paths as they were, or with the
    paths the loop over the recorded paths left; and on success with the
    fresh store. *)
Lemma clear_all_data_run (flt : Faults) (clk : Clock) (w : World) :
  exists b w',
    clear_all_data flt clk w = (Return b, w') /\
    b = negb (step_raises flt w) /\
    (paths w' = paths w \/
     exists w2 w3,
       paths w2 = paths w /\
       remove_uploads flt (recorded_paths w) w2 = (Return tt, w3) /\
       paths w' = paths w3) /\
    (b = true ->
     db_file w' = Some (Tables (fresh_store clk)) /\
     connection w' = Some (Tables (fresh_store clk)) /\
     exists w2 w3,
       paths w2 = paths w /\
       remove_uploads flt (recorded_paths w) w2 = (Return tt, w3) /\
       paths w' = paths w3).
Proof.
  destruct (get_connection_paths w) as [Hp1 _].
  unfold clear_all_data, step_raises, try_catch, has_tables.
  (* the query *)
  unfold faulty at 1. destruct (query_fault flt) as [e|].
  { unfold bind at 1. unfold raise at 1. do 2 eexists.
    split; [reflexivity|]. split; [reflexivity|].
    split; [now left | discriminate]. }
  pose proof (select_filepaths_run w) as E1.
  destruct (tables (_get_connection w)) as [c|].
  2:{ rewrite (bind_raise _ _ _ _ _ E1). do 2 eexists.
      split; [reflexivity|]. split; [reflexivity|].
      split; [left; exact Hp1 | discriminate]. }
  rewrite (bind_return _ _ _ _ _ E1). clear E1. cbn [negb orb].
  (* closing the connection *)
  unfold bind at 1. unfold _close_connection at 1.
  (* removing the database file *)
  pose proof (with_tables_file (_get_connection w) (commit c)) as Hfile.
  set (w0 := {| db_file := db_file (with_tables (_get_connection w) (commit c));
                connection := None;
                paths := paths (with_tables (_get_connection w) (commit c));
                stdout := stdout (with_tables (_get_connection w) (commit c)) |}).
  assert (Hp0 : paths w0 = paths w) by exact Hp1.
  assert (Hrest : forall w4 : World,
             db_file w4 = None -> connection w4 = None -> paths w4 = paths w ->
             exists b w',
               match
                 (remove_uploads flt (recorded_paths w) ;;;
                  os_makedirs flt ;;;
                  faulty (init_fault flt) (init_db_on_connection clk) ;;;
                  ret true) w4
               with
               | (Return a, s') => (Return a, s')
               | (Raise e, s') =>
                   (print (lit "Error clearing data: " ++ str_exn e) ;;;
                    ret false) s'
               end = (Return b, w') /\
               b = negb match makedirs_fault flt, init_fault flt with
                        | None, None => false
                        | _, _ => true
                        end /\
               (exists w2 w3,
                  paths w2 = paths w /\
                  remove_uploads flt (recorded_paths w) w2 = (Return tt, w3) /\
                  paths w' = paths w3) /\
               (b = true ->
                db_file w' = Some (Tables (fresh_store clk)) /\
                connection w' = Some (Tables (fresh_store clk)))).
  { intros w4 Hd4 Hc4 Hp4.
    destruct (remove_uploads_swallows flt (recorded_paths w) w4)
      as (w3 & E4 & Hd3 & Hc3 & _).
    rewrite (bind_return _ _ _ _ _ E4).
    assert (Hloop : exists w2' w3',
               paths w2' = paths w /\
               remove_uploads flt (recorded_paths w) w2' = (Return tt, w3') /\
               paths w3 = paths w3').
    { exists w4, w3. now repeat split. }
    unfold bind at 1. unfold os_makedirs, faulty at 1.
    destruct (makedirs_fault flt) as [e'|].
    { do 2 eexists. split; [reflexivity|]. split; [reflexivity|].
      split; [exact Hloop | discriminate]. }
    unfold ret at 1. unfold bind at 1. unfold faulty at 1.
    destruct (init_fault flt) as [e'|].
    { do 2 eexists. split; [reflexivity|]. split; [reflexivity|].
      split; [exact Hloop | discriminate]. }
    rewrite init_db_from_nothing by congruence.
    do 2 eexists. split; [reflexivity|]. split; [reflexivity|].
    split; [exact Hloop|]. intros _. now split. }
  destruct (remove_db_fault flt) as [e|] eqn:Ef.
  - destruct (db_file (_get_connection w)) as [s0|] eqn:Ed0.
    + (* the removal is attempted and fails *)
      destruct (db_file (with_tables (_get_connection w) (commit c)))
        as [s1|] eqn:Ed1; [|contradiction].
      rewrite (bind_raise _ _ _ _ _
                 (remove_db_file_fails flt w0 e s1 Ef eq_refl)).
      do 2 eexists. split; [reflexivity|]. split; [reflexivity|].
      split; [left; exact Hp1 | discriminate].
    + destruct (db_file (with_tables (_get_connection w) (commit c)))
        eqn:Ed1; [contradiction|].
      rewrite (bind_return _ _ _ _ _
                 (remove_db_file_done flt w0 (or_intror eq_refl))).
      destruct (Hrest {| db_file := None; connection := connection w0;
                           paths := paths w0; stdout := stdout w0 |}
                eq_refl eq_refl Hp0)
        as (b & w' & E & Hb & Hloop & Hfresh).
      exists b, w'. split; [exact E|]. split; [exact Hb|].
      split; [now right|]. intros Ht. destruct (Hfresh Ht). now repeat split.
  - rewrite (bind_return _ _ _ _ _
               (remove_db_file_done flt w0 (or_introl Ef))).
    destruct (Hrest {| db_file := None; connection := connection w0;
                           paths := paths w0; stdout := stdout w0 |}
                eq_refl eq_refl Hp0)
      as (b & w' & E & Hb & Hloop & Hfresh).
    exists b, w'. split; [exact E|].
    split; [now destruct (db_file (_get_connection w))|].
    split; [now right|]. intros Ht. destruct (Hfresh Ht). now repeat split.
Qed.

(** Without a failing step the outcome is decided by the tables alone. *)
Lemma step_raises_no_fault (flt : Faults) (w : World) :
  fatal flt = false -> step_raises flt w = negb (has_tables w).
Proof.
  unfold fatal, step_raises.
  destruct (query_fault flt), (remove_db_fault flt), (makedirs_fault flt),
    (init_fault flt); try discriminate.
  intros _. now rewrite !orb_false_r.
Qed.

(** C7.  [clear_all_data] always returns a boolean.  It is [False]
    exactly when a step other than the deletion of an uploaded file
    raised: the query for the paths (which raises on a database that has
    no tables, as the one [sqlite3.connect] creates for a missing file),
    the removal of the database file where there is one, the creation
    of the directory, the re-initialization.  Whether the deletions of
    the uploaded files fail does not change it.  When it returns [True]
    the database file and the connection hold the freshly initialized
    store, whose only row is the active default session. *)
Theorem clear_all_data_returns_boolean (flt : Faults) (clk : Clock) (w : World) :
  exists b w',
    clear_all_data flt clk w = (Return b, w') /\
    b = negb (step_raises flt w) /\
    (fatal flt = false -> b = has_tables w) /\
    (forall failing : pystr -> option exn,
       fst (clear_all_data
              {| query_fault := query_fault flt;
                 remove_db_fault := remove_db_fault flt;
                 remove_fault := failing;
                 makedirs_fault := makedirs_fault flt;
                 init_fault := init_fault flt |} clk w) = Return b) /\
    (b = true ->
     db_file w' = Some (Tables (fresh_store clk)) /\
     connection w' = Some (Tables (fresh_store clk)) /\
     sessions (fresh_store clk)
     = [{| s_id := 1; session_name := default_session_name;
           s_created_at := current_timestamp clk; is_active := true;
           last_accessed := current_timestamp clk |}] /\
     files (fresh_store clk) = [] /\ chats (fresh_store clk) = []).
Proof.
  destruct (clear_all_data_run flt clk w) as (b & w' & E & Hb & _ & Hfresh).
  exists b, w'. split; [exact E|]. split; [exact Hb|]. split; [|split].
  - intros Hf. rewrite Hb, (step_raises_no_fault flt w Hf).
    now destruct (has_tables w).
  - intros failing.
    destruct (clear_all_data_run
                {| query_fault := query_fault flt;
                   remove_db_fault := remove_db_fault flt;
                   remove_fault := failing;
                   makedirs_fault := makedirs_fault flt;
                   init_fault := init_fault flt |} clk w)
      as (b2 & w2 & E2 & Hb2 & _).
    rewrite E2. cbn [fst]. now rewrite Hb2, Hb.
  - intros Ht. destruct (Hfresh Ht) as (Hd & Hc & _).
    split; [exact Hd|]. split; [exact Hc|]. now repeat split.
Qed.
(* ================================================================== *)
(** ** Text extraction *)

Lemma detect_none_unsupported (file_path file_type : pystr) :
  detect file_path file_type = None <-> unsupported file_path file_type = true.
Proof.
  unfold detect, unsupported.
  destruct (contains (lower file_type) (lit "pdf") || endswith file_path (lit ".pdf"));
    cbn [orb negb]; [split; discriminate|].
  destruct (contains (lower file_type) (lit "text") || endswith file_path (lit ".txt"));
    cbn [orb negb]; [split; discriminate|].
  destruct (contains (lower file_type) (lit "word") || endswith file_path (lit ".docx"));
    cbn [orb negb]; [split; discriminate|].
  split; reflexivity.
Qed.

Lemma extract_pdf_returns (rd : Readers) (file_path : pystr) :
  extract_pdf rd file_path
  = Return
      match PdfReader rd file_path with
      | Return pages =>
          match pdf_pages_text [] pages with
          | Return text => clean_text text
          | Raise e => lit "Error reading PDF: " ++ str_exn e
          end
      | Raise e => lit "Error reading PDF: " ++ str_exn e
      end.
Proof.
  unfold extract_pdf, try_except.
  destruct (PdfReader rd file_path) as [pages|e]; [|reflexivity].
  destruct (pdf_pages_text [] pages); reflexivity.
Qed.

Lemma extract_txt_returns (rd : Readers) (file_path : pystr) :
  extract_txt rd file_path
  = Return
      match read_text rd file_path with
      | Return text => clean_text text
      | Raise e => lit "Error reading TXT: " ++ str_exn e
      end.
Proof.
  unfold extract_txt, try_except. destruct (read_text rd file_path); reflexivity.
Qed.

Lemma extract_docx_returns (rd : Readers) (file_path : pystr) :
  extract_docx rd file_path
  = Return
      match Document rd file_path with
      | Return paragraphs => clean_text (join [NEWLINE] paragraphs)
      | Raise e => lit "Error reading DOCX: " ++ str_exn e
      end.
Proof.
  unfold extract_docx, try_except. destruct (Document rd file_path); reflexivity.
Qed.

(** C9.  [extract_text_from_file] returns a string whatever the path,
    the declared type and the readers do: the message
    [Unsupported file format: ...] when no branch takes the file, a
    message [Error reading ...: ...] carrying the text of the exception
    when the reader of the chosen format raises, and the cleaned text
    otherwise. *)
Theorem extract_text_from_file_returns_string
    (rd : Readers) (file_path file_type : pystr) :
  exists text,
    extract_text_from_file rd file_path file_type = Return text /\
    match detect file_path file_type with
    | None => text = lit "Unsupported file format: " ++ file_type
    | Some PDF =>
        match PdfReader rd file_path with
        | Return pages =>
            match pdf_pages_text [] pages with
            | Return t => text = clean_text t
            | Raise e => text = lit "Error reading PDF: " ++ str_exn e
            end
        | Raise e => text = lit "Error reading PDF: " ++ str_exn e
        end
    | Some TXT =>
        match read_text rd file_path with
        | Return t => text = clean_text t
        | Raise e => text = lit "Error reading TXT: " ++ str_exn e
        end
    | Some DOCX =>
        match Document rd file_path with
        | Return paragraphs => text = clean_text (join [NEWLINE] paragraphs)
        | Raise e => text = lit "Error reading DOCX: " ++ str_exn e
        end
    end.
Proof.
  unfold extract_text_from_file, detect.
  rewrite extract_pdf_returns, extract_txt_returns, extract_docx_returns.
  destruct (contains (lower file_type) (lit "pdf")
            || endswith file_path (lit ".pdf")) eqn:Epdf.
  { eexists. split; [reflexivity|].
    destruct (PdfReader rd file_path) as [pages|e]; [|reflexivity].
    destruct (pdf_pages_text [] pages); reflexivity. }
  destruct (contains (lower file_type) (lit "text")
            || endswith file_path (lit ".txt")) eqn:Etxt.
  { eexists. split; [reflexivity|].
    destruct (read_text rd file_path); reflexivity. }
  destruct (contains (lower file_type) (lit "word")
            || endswith file_path (lit ".docx")) eqn:Edocx.
  { eexists. split; [reflexivity|].
    destruct (Document rd file_path); reflexivity. }
  apply orb_false_elim in Epdf, Etxt, Edocx.
  destruct Epdf as [_ ->], Etxt as [_ ->], Edocx as [_ ->].
  eexists. split; reflexivity.
Qed.

(* ================================================================== *)
(** ** Reachable stores are well formed *)

Lemma wf_sessions_relabel (g : Session -> Session) (db : DB) :
  (forall s, s_id (g s) = s_id s) -> wf db ->
  wf (with_sessions db (map g (sessions db)) (seq_sessions db)).
Proof.
  intros Hg (Hk & Hf & Hc & Hfk & Hck).
  repeat split; try (apply Hf); try (apply Hc); cbn [sessions files chats
    seq_sessions seq_files seq_chats with_sessions].
  - rewrite (map_id_relabel g _ Hg). apply Hk.
  - apply Forall_map. destruct Hk as [_ Hle].
    eapply Forall_impl; [|exact Hle]. cbn. intros s Hs. now rewrite Hg.
  - now rewrite (map_id_relabel g _ Hg).
  - now rewrite (map_id_relabel g _ Hg).
Qed.

Lemma wf_deactivate (db : DB) : wf db -> wf (snd (sql_deactivate_all db)).
Proof. apply wf_sessions_relabel. reflexivity. Qed.

Lemma wf_activate (id : Z) (clk : Clock) (db : DB) :
  wf db -> wf (snd (sql_activate id clk db)).
Proof.
  apply wf_sessions_relabel. intros s. now destruct (s_id s =? id)%Z.
Qed.

Lemma wf_touch (id : Z) (now : timestamp) (db : DB) :
  wf db -> wf (snd (sql_touch_session id now db)).
Proof.
  apply wf_sessions_relabel. intros s. now destruct (s_id s =? id)%Z.
Qed.

Lemma wf_insert_session (n : pystr) (a : bool) (clk : Clock) (db : DB) :
  wf db -> wf (snd (sql_insert_session n a clk db)).
Proof.
  intros (Hk & Hf & Hc & Hfk & Hck). split; [now apply keys_ok_insert|].
  split; [exact Hf|]. split; [exact Hc|].
  cbn [snd sql_insert_session sessions files chats with_sessions].
  split; (eapply Forall_impl; [|eassumption]); cbn; intros x Hx;
    rewrite map_app; apply in_app_iff; now left.
Qed.

Lemma wf_ensured (clk : Clock) (db : DB) : wf db -> wf (ensured clk db).
Proof.
  intros H. unfold ensured. destruct (sql_select_active db); [exact H|].
  now apply wf_insert_session.
Qed.

Lemma Forall_filter_keep {A : Type} (P : A -> Prop) (keep : A -> bool) (l : list A) :
  Forall P l -> Forall P (filter keep l).
Proof.
  rewrite !Forall_forall. intros H x Hx. apply filter_In in Hx. now apply H.
Qed.

Lemma distinct_file_ids_filter (keep : File -> bool) (rows : list File) :
  NoDup (map f_id rows) -> NoDup (map f_id (filter keep rows)).
Proof.
  intros Hnd. induction rows as [|f rows IH]; [constructor|].
  simpl in Hnd. apply NoDup_cons_iff in Hnd. destruct Hnd as [Hf Hrows].
  simpl. destruct (keep f); [|now apply IH].
  simpl. apply NoDup_cons_iff. split; [|now apply IH].
  rewrite in_map_iff. intros (y & E & Hy). apply filter_In in Hy.
  apply Hf. rewrite <- E. apply in_map. tauto.
Qed.

Lemma distinct_chat_ids_filter (keep : Chat -> bool) (rows : list Chat) :
  NoDup (map c_id rows) -> NoDup (map c_id (filter keep rows)).
Proof.
  intros Hnd. induction rows as [|x rows IH]; [constructor|].
  simpl in Hnd. apply NoDup_cons_iff in Hnd. destruct Hnd as [Hx Hrows].
  simpl. destruct (keep x); [|now apply IH].
  simpl. apply NoDup_cons_iff. split; [|now apply IH].
  rewrite in_map_iff. intros (y & E & Hy). apply filter_In in Hy.
  apply Hx. rewrite <- E. apply in_map. tauto.
Qed.

Lemma kept_session_id (id x : Z) (l : list Session) :
  In x (map s_id l) -> x <> id ->
  In x (map s_id (filter (fun s => negb (s_id s =? id)%Z) l)).
Proof.
  rewrite !in_map_iff. intros (s & E & Hs) Hne. exists s. split; [exact E|].
  apply filter_In. split; [exact Hs|].
  apply negb_true_iff, Z.eqb_neq. congruence.
Qed.

Lemma wf_delete_session (id : Z) (db : DB) :
  wf db -> wf (snd (sql_delete_session id db)).
Proof.
  intros H. pose proof (keys_ok_delete id db (proj1 H)) as Hk.
  unfold sql_delete_session in *. cbn [snd] in *.
  destruct (length _ =? 0)%nat; [exact H|].
  destruct H as (_ & [Hf1 Hf2] & [Hc1 Hc2] & Hfk & Hck).
  split; [exact Hk|].
  cbn [sessions files chats seq_sessions seq_files seq_chats].
  split; [split; [now apply distinct_file_ids_filter
                 | now apply Forall_filter_keep]|].
  split; [split; [now apply distinct_chat_ids_filter
                 | now apply Forall_filter_keep]|].
  split; apply Forall_forall; intros x Hx; apply filter_In in Hx;
    destruct Hx as [Hx Hne]; apply negb_true_iff, Z.eqb_neq in Hne;
    apply kept_session_id; try exact Hne.
  - rewrite Forall_forall in Hfk. now apply Hfk.
  - rewrite Forall_forall in Hck. now apply Hck.
Qed.

Lemma wf_insert_file (sid : Z) (name path : pystr) (size : option Z)
    (content type : option pystr) (clk : Clock) (db db' : DB) (id : Z) :
  wf db ->
  sql_insert_file sid name path size content type clk db = Return (id, db') ->
  wf db'.
Proof.
  intros (Hk & [Hf1 Hf2] & Hc & Hfk & Hck) E. unfold sql_insert_file in E.
  destruct (session_exists sid db) eqn:Hex; [|discriminate].
  injection E as _ <-. apply session_exists_in in Hex.
  split; [exact Hk|]. cbn [sessions files chats seq_files seq_chats with_files].
  split; [split|].
  - rewrite map_app. cbn [map f_id].
    apply (Permutation_NoDup (Permutation_cons_append _ _)).
    constructor; [apply next_rowid_fresh | exact Hf1].
  - apply Forall_app. split.
    + eapply Forall_impl; [|exact Hf2]. cbn beta. intros f Hf.
      pose proof (next_rowid_above_seq (seq_files db) (map f_id (files db))).
      lia.
    + constructor; [cbn; lia | constructor].
  - split; [exact Hc|]. split; [|exact Hck].
    apply Forall_app. split; [exact Hfk|]. now constructor.
Qed.

Lemma wf_insert_chat (sid : Z) (q a : pystr) (clk : Clock) (db db' : DB) (id : Z) :
  wf db -> sql_insert_chat sid q a clk db = Return (id, db') -> wf db'.
Proof.
  intros (Hk & Hf & [Hc1 Hc2] & Hfk & Hck) E. unfold sql_insert_chat in E.
  destruct (session_exists sid db) eqn:Hex; [|discriminate].
  injection E as _ <-. apply session_exists_in in Hex.
  split; [exact Hk|]. cbn [sessions files chats seq_files seq_chats with_chats].
  split; [exact Hf|]. split; [split|].
  - rewrite map_app. cbn [map c_id].
    apply (Permutation_NoDup (Permutation_cons_append _ _)).
    constructor; [apply next_rowid_fresh | exact Hc1].
  - apply Forall_app. split.
    + eapply Forall_impl; [|exact Hc2]. cbn beta. intros x Hx.
      pose proof (next_rowid_above_seq (seq_chats db) (map c_id (chats db))).
      lia.
    + constructor; [cbn; lia | constructor].
  - split; [exact Hfk|].
    apply Forall_app. split; [exact Hck|]. now constructor.
Qed.

Lemma wf_delete_file (id : Z) (db : DB) : wf db -> wf (snd (sql_delete_file id db)).
Proof.
  intros (Hk & [Hf1 Hf2] & Hc & Hfk & Hck). split; [exact Hk|].
  cbn [snd sql_delete_file sessions files chats seq_files seq_chats with_files].
  split; [split; [now apply distinct_file_ids_filter
                 | now apply Forall_filter_keep]|].
  split; [exact Hc|]. split; [now apply Forall_filter_keep | exact Hck].
Qed.

Lemma wf_delete_session_chats (id : Z) (db : DB) :
  wf db -> wf (snd (sql_delete_session_chats id db)).
Proof.
  intros (Hk & Hf & [Hc1 Hc2] & Hfk & Hck). split; [exact Hk|].
  cbn [snd sql_delete_session_chats sessions files chats seq_files seq_chats
       with_chats].
  split; [exact Hf|].
  split; [split; [now apply distinct_chat_ids_filter
                 | now apply Forall_filter_keep]|].
  split; [exact Hfk | now apply Forall_filter_keep].
Qed.

Lemma rollback_clean (db : DB) : rollback (clean db) = clean db.
Proof. reflexivity. Qed.

(** Every method leaves the connection without an open transaction, on
    a well-formed store. *)
Lemma run_op_wf (op : Op) (clk : Clock) (db : DB) :
  wf db -> exists db', run_op op clk (clean db) = clean db' /\ wf db'.
Proof.
  intros H. destruct op as [name|id|id|sid name path size content type|id
                           |sid q a|sid]; unfold run_op.
  - rewrite create_session_run. destruct (bind_parameters _).
    + exists db. now split.
    + eexists. split; [reflexivity|].
      now apply wf_insert_session, wf_deactivate.
  - rewrite set_active_session_run. destruct (fits_int64 id).
    + eexists. split; [reflexivity|]. now apply wf_activate, wf_deactivate.
    + exists db. now split.
  - rewrite delete_session_run. destruct (session_exists id (live (clean db))).
    + eexists. split; [reflexivity|]. now apply wf_ensured, wf_delete_session.
    + destruct (fits_int64 id); exists db; now split.
  - destruct (bind_parameters (file_parameters sid name path size content type))
      as [e|] eqn:Eb.
    { rewrite (add_file_unbindable _ _ _ _ _ _ clk (clean db) e Eb).
      exists db. now split. }
    destruct (session_exists sid db) eqn:Ex.
    + rewrite (add_file_run sid name path size content type clk (clean db)
                 Ex Eb).
      eexists. split; [reflexivity|]. apply wf_touch.
      eapply wf_insert_file; [exact H|].
      unfold sql_insert_file. cbn [live clean]. rewrite Ex. reflexivity.
    + rewrite (add_file_unknown_session sid name path size content type clk
                 (clean db) Eb Ex).
      exists db. now split.
  - unfold delete_file, bound. rewrite bind_int. run_method.
    destruct (fits_int64 id); cbn.
    + eexists. split; [reflexivity|]. now apply (wf_delete_file id db).
    + exists db. now split.
  - destruct (bind_parameters [PInt sid; PText q; PText a]) as [e|] eqn:Eb.
    { rewrite (add_chat_unbindable sid q a clk (clean db) e Eb).
      exists db. now split. }
    destruct (session_exists sid db) eqn:Ex.
    + rewrite (add_chat_run sid q a clk (clean db) Ex Eb).
      eexists. split; [reflexivity|]. apply wf_touch.
      eapply wf_insert_chat; [exact H|].
      unfold sql_insert_chat. cbn [live clean]. rewrite Ex. reflexivity.
    + rewrite (add_chat_unknown_session sid q a clk (clean db) Eb Ex).
      exists db. now split.
  - unfold delete_session_chats, bound. rewrite bind_int. run_method.
    destruct (fits_int64 sid); cbn.
    + eexists. split; [reflexivity|].
      now apply (wf_delete_session_chats sid db).
    + exists db. now split.
Qed.

Lemma wf_fresh_store (clk : Clock) : wf (fresh_store clk).
Proof.
  unfold wf, session_keys_ok, fresh_store. cbn.
  split; [split|].
  - constructor; [intros [] | constructor].
  - constructor; [discriminate | constructor].
  - repeat split; constructor.
Qed.

Lemma reachable_wf (c : Conn) :
  reachable c -> committed c = live c /\ wf (live c).
Proof.
  induction 1 as [clk|op clk c _ [Hc Hwf]].
  - rewrite Database_fresh_store. split; [reflexivity|]. apply wf_fresh_store.
  - destruct c as [d l]. cbn in Hc, Hwf. subst d.
    destruct (run_op_wf op clk l Hwf) as (db' & E & Hw).
    unfold clean in E. rewrite E. now split.
Qed.

(** On the stores a program reaches, the hypotheses of the theorems on
    [delete_session] and [get_file_content] hold. *)
Lemma reachable_session_keys (c : Conn) :
  reachable c -> session_keys_ok (live c).
Proof. intros H. apply reachable_wf in H. apply H. Qed.

Lemma reachable_file_keys (c : Conn) :
  reachable c -> NoDup (map f_id (files (live c))).
Proof. intros H. apply reachable_wf in H. apply H. Qed.

Lemma run_calls_reachable (calls : list (Call * Clock)) (c : Conn) :
  reachable c -> reachable (run_calls calls c).
Proof.
  revert c. induction calls as [|[call clk] rest IH]; intros c H; [exact H|].
  cbn [run_calls]. apply IH. destruct call as [name|id|id].
  - exact (reach_step (OpCreateSession name) clk c H).
  - exact (reach_step (OpSetActiveSession id) clk c H).
  - exact (reach_step (OpDeleteSession id) clk c H).
Qed.

(* ================================================================== *)
(** ** Timestamps under a clock that does not run backwards *)

Lemma stamped_later (t t' : timestamp) (db : DB) :
  (t <= t')%Z -> stamped t db -> stamped t' db.
Proof.
  intros Hle H. unfold stamped in *. eapply Forall_impl; [|exact H].
  cbn beta. intros s Hs. lia.
Qed.

Lemma stamped_relabel (t : timestamp) (g : Session -> Session) (db : DB) (seq : Z) :
  (forall s, (last_accessed s <= t)%Z -> (last_accessed (g s) <= t)%Z) ->
  stamped t db -> stamped t (with_sessions db (map g (sessions db)) seq).
Proof.
  intros Hg H. unfold stamped in *. cbn [sessions with_sessions].
  apply Forall_map. eapply Forall_impl; [|exact H]. exact Hg.
Qed.

Lemma stamped_deactivate (t : timestamp) (db : DB) :
  stamped t db -> stamped t (snd (sql_deactivate_all db)).
Proof. apply stamped_relabel. intros s Hs. exact Hs. Qed.

Lemma stamped_activate (id : Z) (clk : Clock) (db : DB) :
  stamped (current_timestamp clk) db ->
  stamped (current_timestamp clk) (snd (sql_activate id clk db)).
Proof.
  apply stamped_relabel. intros s Hs.
  destruct (s_id s =? id)%Z; [cbn [last_accessed set_last_accessed]; lia | exact Hs].
Qed.

Lemma stamped_touch (id : Z) (now : timestamp) (db : DB) :
  stamped now db -> stamped now (snd (sql_touch_session id now db)).
Proof.
  apply stamped_relabel. intros s Hs.
  destruct (s_id s =? id)%Z; [cbn [last_accessed set_last_accessed]; lia | exact Hs].
Qed.

Lemma stamped_insert (n : pystr) (a : bool) (clk : Clock) (db : DB) :
  stamped (current_timestamp clk) db ->
  stamped (current_timestamp clk) (snd (sql_insert_session n a clk db)).
Proof.
  intros H. unfold stamped in *. cbn [snd sql_insert_session sessions with_sessions].
  apply Forall_app. split; [exact H|].
  constructor; [cbn [last_accessed]; lia | constructor].
Qed.

Lemma stamped_ensured (clk : Clock) (db : DB) :
  stamped (current_timestamp clk) db ->
  stamped (current_timestamp clk) (ensured clk db).
Proof.
  intros H. unfold ensured. destruct (sql_select_active db); [exact H|].
  now apply stamped_insert.
Qed.

Lemma stamped_delete (t : timestamp) (id : Z) (db : DB) :
  stamped t db -> stamped t (snd (sql_delete_session id db)).
Proof.
  intros H. unfold sql_delete_session. cbn [snd].
  destruct (length _ =? 0)%nat; [exact H|].
  unfold stamped in *. cbn [sessions]. now apply Forall_filter_keep.
Qed.

(** Each method, run at a time not before the stored timestamps, leaves
    no stored timestamp later than the last reading of the clock in it:
    the premise on the stored timestamps in the theorem on [add_file]
    and [add_chat] holds along every run whose clock readings do not
    decrease. *)
Lemma run_op_stamped (op : Op) (clk : Clock) (t : timestamp) (db : DB) :
  (t <= current_timestamp clk)%Z ->
  (current_timestamp clk <= update_timestamp clk)%Z ->
  stamped t db ->
  stamped (update_timestamp clk) (live (run_op op clk (clean db))).
Proof.
  intros Hle Hup H0. pose proof (stamped_later _ _ db Hle H0) as H.
  pose proof (stamped_later _ _ db Hup H) as H'. clear H0 Hle.
  destruct op as [name|id|id|sid name path size content type|id
                 |sid q a|sid]; unfold run_op.
  - rewrite create_session_run.
    destruct (bind_parameters _); cbn [snd live clean rollback committed];
      [exact H'|].
    apply (stamped_later _ _ _ Hup).
    now apply stamped_insert, stamped_deactivate.
  - rewrite set_active_session_run.
    destruct (fits_int64 id); cbn [snd live clean rollback committed];
      [|exact H'].
    apply (stamped_later _ _ _ Hup).
    now apply stamped_activate, stamped_deactivate.
  - rewrite delete_session_run.
    destruct (session_exists id (live (clean db)));
      [|destruct (fits_int64 id)]; cbn [snd live clean rollback committed];
      try exact H'.
    apply (stamped_later _ _ _ Hup).
    now apply stamped_ensured, stamped_delete.
  - destruct (bind_parameters (file_parameters sid name path size content type))
      as [e|] eqn:Eb.
    { now rewrite (add_file_unbindable _ _ _ _ _ _ clk (clean db) e Eb). }
    destruct (session_exists sid db) eqn:Ex.
    + rewrite (add_file_run sid name path size content type clk (clean db)
                 Ex Eb).
      cbn [snd live clean].
      apply (stamped_touch sid (update_timestamp clk) (with_files db _ _)).
      exact H'.
    + now rewrite (add_file_unknown_session sid name path size content type
                     clk (clean db) Eb Ex).
  - unfold delete_file, bound. rewrite bind_int. run_method.
    now destruct (fits_int64 id).
  - destruct (bind_parameters [PInt sid; PText q; PText a]) as [e|] eqn:Eb.
    { now rewrite (add_chat_unbindable sid q a clk (clean db) e Eb). }
    destruct (session_exists sid db) eqn:Ex.
    + rewrite (add_chat_run sid q a clk (clean db) Ex Eb).
      cbn [snd live clean].
      apply (stamped_touch sid (update_timestamp clk) (with_chats db _ _)).
      exact H'.
    + now rewrite (add_chat_unknown_session sid q a clk (clean db) Eb Ex).
  - unfold delete_session_chats, bound. rewrite bind_int. run_method.
    now destruct (fits_int64 sid).
Qed.

(** Then no session's stored time is later than the reading, the owner's
    included. *)
Lemma stamped_owner (id : Z) (t : timestamp) (db : DB) :
  stamped t db ->
  Forall (fun s => s_id s = id -> (last_accessed s <= t)%Z) (sessions db).
Proof.
  unfold stamped. intros H. eapply Forall_impl; [|exact H]. cbn beta. auto.
Qed.
(* ================================================================== *)
(** ** Examples and instances *)

Example clean_text_example :
  clean_text (lit "  a" ++ [NUL; 9; 10; 160]%N ++ lit "b  c ") = lit "a b c".
Proof. reflexivity. Qed.

Example clean_text_blank : clean_text [9; 10; 32]%N = [].
Proof. reflexivity. Qed.

Example Database_has_default_session :
  sessions (live (Database clk0))
  = [{| s_id := 1; session_name := lit "Default Session";
        s_created_at := 1000%Z; is_active := true;
        last_accessed := 1000%Z |}].
Proof. reflexivity. Qed.

Example delete_active_session_example :
  map (fun s => (s_id s, is_active s))
      (sessions (live (run_calls [(CreateSession (Some (lit "A")), clk0);
                                  (DeleteSession 2, clk1)]
                                 (Database clk0))))
  = [(1%Z, false); (3%Z, true)].
Proof. reflexivity. Qed.

Example get_session_content_example :
  fst (get_session_content 1
         (snd (add_file 1 (lit "b.txt") (lit "data/uploads/b.txt") None
                 (Some (lit "world")) None clk1
                 (snd (add_file 1 (lit "e.txt") (lit "data/uploads/e.txt") None
                         (Some []) None clk1 one_upload)))))
  = Return (lit "hello" ++ [NEWLINE; NEWLINE] ++ lit "world").
Proof. reflexivity. Qed.

Example extract_unsupported_example :
  extract_text_from_file unreadable (lit "a.png") (lit "image/png")
  = Return (lit "Unsupported file format: image/png").
Proof. reflexivity. Qed.

Example extract_unreadable_example :
  extract_text_from_file unreadable (lit "a.PDF") (lit "Application/PDF")
  = Return (lit "Error reading PDF: No such file").
Proof. reflexivity. Qed.


(** *** Work that is interrupted, and work that commits *)

(** A [KeyboardInterrupt] in the work is no instance of [Exception]:
    it reaches the caller, the session the work inserted is still on the
    connection and not in the file, and the next block that returns
    commits it.  And a commit made inside the work (by a nested
    [get_cursor], as in the body of [delete_session]) is not undone when
    the work raises afterwards: the exception reaches the caller, and
    the database file has lost session 1 and gained the default
    session 2. *)
Lemma get_cursor_interrupted_or_committed_inside :
  fst (Wide.get_cursor insert_then_interrupt (Database clk0))
  = Wide.Raises (Wide.BaseExceptionOnly (lit "KeyboardInterrupt") []) /\
  map s_id (sessions (committed (Database clk0))) = [1%Z] /\
  map s_id (sessions (live (snd (Wide.get_cursor insert_then_interrupt
                                   (Database clk0)))))
  = [1%Z; 2%Z] /\
  map s_id (sessions (committed (snd (Wide.get_cursor insert_then_interrupt
                                        (Database clk0)))))
  = [1%Z] /\
  map s_id
    (sessions
       (committed
          (snd (Wide.get_cursor pass
                  (snd (Wide.get_cursor insert_then_interrupt
                          (Database clk0)))))))
  = [1%Z; 2%Z] /\
  fst (Wide.get_cursor (Wide.of_method repair_then_fail) (Database clk0))
  = Wide.Raises (Wide.ExceptionInstance (OSError (lit "disk I/O error"))) /\
  map s_id
    (sessions
       (committed (snd (Wide.get_cursor (Wide.of_method repair_then_fail)
                          (Database clk0)))))
  = [2%Z].
Proof. repeat split. Qed.

(** *** Instances of the theorems that carry hypotheses *)

Lemma get_cursor_rollback_instance :
  Wide.get_cursor (Wide.of_method insert_then_fail) (Database clk0)
  = (Wide.Raises (Wide.ExceptionInstance (OSError (lit "disk I/O error"))),
     Database clk0).
Proof.
  destruct (get_cursor_commit_rollback_or_open
              (Wide.of_method insert_then_fail) (Database clk0))
    as (_ & H & _).
  destruct (H (OSError (lit "disk I/O error"))
              (snd (insert_then_fail (Database clk0))) eq_refl)
    as (Hfst & _ & _ & Hsame).
  destruct (Hsame eq_refl) as [_ Hsnd].
  rewrite (surjective_pairing (Wide.get_cursor _ _)).
  now rewrite Hfst, (Hsnd eq_refl).
Defined.

Lemma Database_keys_ok : session_keys_ok (live (Database clk0)).
Proof.
  split.
  - constructor; [intros [] | constructor].
  - constructor; [discriminate | constructor].
Defined.

Lemma delete_session_instance :
  exists c',
    delete_session 1 clk1 (Database clk0) = (Return true, c') /\
    session_exists 1 (live c') = false /\
    existsb is_active (sessions (live c')) = true.
Proof.
  destruct (delete_session_cascades_and_keeps_active
              1 clk1 (Database clk0) Database_keys_ok eq_refl)
    as (c' & H1 & _ & H2 & _ & _ & _ & _ & _ & H3).
  exists c'. split; [exact H1 | split; [exact H2 | exact H3]].
Defined.

Lemma one_upload_file_keys : NoDup (map f_id (files (live one_upload))).
Proof. constructor; [intros [] | constructor]. Defined.

Lemma get_file_content_instance :
  get_file_content 1 one_upload
  = (Return (Some (lit "hello")), commit one_upload) /\
  get_file_content 2 one_upload = (Return (Some []), commit one_upload) /\
  get_file_content 9223372036854775808 one_upload
  = (Raise (OverflowError
              (lit "Python int too large to convert to SQLite INTEGER")),
     rollback one_upload).
Proof.
  split; [|split].
  - destruct (get_file_content_stored_or_empty 1 one_upload one_upload_file_keys)
      as [H _].
    destruct (H eq_refl) as [Hrow _].
    exact (Hrow notes_row (or_introl eq_refl) eq_refl).
  - destruct (get_file_content_stored_or_empty 2 one_upload one_upload_file_keys)
      as [H _].
    destruct (H eq_refl) as [_ Hnone].
    apply Hnone. intros f [<-|[]]. discriminate.
  - destruct (get_file_content_stored_or_empty 9223372036854775808 one_upload
                one_upload_file_keys) as [_ H].
    exact (H eq_refl).
Defined.

Lemma add_file_add_chat_instance :
  (exists id c',
     add_file 1 (lit "notes.txt") (lit "data/uploads/notes.txt") (Some 5%Z)
       (Some (lit "hello")) (Some (lit "text/plain")) clk1 (Database clk0)
     = (Return id, c') /\
     map last_accessed (sessions (live (Database clk0))) = [1000%Z] /\
     map last_accessed (sessions (live c')) = [2001%Z]) /\
  (exists id c',
     add_chat 1 (lit "What color is the sky?") (lit "Blue.") clk1 (Database clk0)
     = (Return id, c') /\
     map last_accessed (sessions (live c')) = [2001%Z]).
Proof.
  destruct (add_file_add_chat_touch_owner
              1 (lit "notes.txt") (lit "data/uploads/notes.txt") (Some 5%Z)
              (Some (lit "hello")) (Some (lit "text/plain"))
              (lit "What color is the sky?") (lit "Blue.") clk1 (Database clk0)
              eq_refl)
    as [(Hfile & _) (Hchat & _)].
  destruct (Hfile eq_refl) as (id & c' & H & _).
  destruct (Hchat eq_refl) as (id' & c'' & H' & _).
  split.
  - exists id, c'. split; [exact H|].
    injection H as _ <-. split; reflexivity.
  - exists id', c''. split; [exact H'|].
    injection H' as _ <-. reflexivity.
Defined.
(* ================================================================== *)
(** ** Ordered and limited listings *)

Section OrderBy.

Variable A : Type.
Variable le : A -> A -> bool.
Hypothesis le_total : forall a b, le a b = true \/ le b a = true.
Hypothesis le_trans : forall a b c, le a b = true -> le b c = true -> le a c = true.

Let before (a b : A) : Prop := le a b = true.

Lemma place_row_same_rows (x : A) (rows : list A) :
  Permutation (place_row le x rows) (x :: rows).
Proof.
  induction rows as [|y rows IH]; cbn [place_row]; [apply Permutation_refl|].
  destruct (le x y); [apply Permutation_refl|].
  eapply perm_trans; [apply perm_skip, IH | apply perm_swap].
Qed.

Lemma order_by_same_rows (rows : list A) : Permutation (order_by le rows) rows.
Proof.
  induction rows as [|x rows IH]; cbn [order_by fold_right]; [constructor|].
  eapply perm_trans; [apply place_row_same_rows|]. now apply perm_skip.
Qed.

Lemma place_row_in_order (x : A) (rows : list A) :
  StronglySorted before rows -> StronglySorted before (place_row le x rows).
Proof.
  induction 1 as [|y rows Hs IH Hy]; cbn [place_row].
  - repeat constructor.
  - destruct (le x y) eqn:E.
    + constructor; [now constructor|]. constructor; [exact E|].
      eapply Forall_impl; [|exact Hy]. intros z Hz. exact (le_trans _ _ _ E Hz).
    + constructor; [exact IH|].
      assert (Hyx : before y x) by (destruct (le_total x y); congruence).
      eapply Permutation_Forall; [symmetry; apply place_row_same_rows|].
      now constructor.
Qed.

Lemma order_by_in_order (rows : list A) : StronglySorted before (order_by le rows).
Proof.
  induction rows as [|x rows IH]; cbn [order_by fold_right]; [constructor|].
  now apply place_row_in_order.
Qed.

Lemma in_order_across (front back : list A) :
  StronglySorted before (front ++ back) ->
  forall a b, In a front -> In b back -> before a b.
Proof.
  induction front as [|x front IH]; cbn [app]; intros Hs a b Ha Hb; [destruct Ha|].
  apply StronglySorted_inv in Hs. destruct Hs as [Hs Hx].
  destruct Ha as [->|Ha]; [|now apply IH].
  rewrite Forall_forall in Hx. apply Hx, in_or_app. now right.
Qed.

Lemma in_order_front (front back : list A) :
  StronglySorted before (front ++ back) -> StronglySorted before front.
Proof.
  induction front as [|x front IH]; cbn [app]; intros Hs; [constructor|].
  apply StronglySorted_inv in Hs. destruct Hs as [Hs Hx].
  constructor; [now apply IH|]. apply Forall_app in Hx. tauto.
Qed.

(** What [ORDER BY ... LIMIT ?] shows and what it leaves out. *)
Lemma limit_of_ordered (limit : Z) (rows : list A) :
  exists hidden,
    Permutation (limit_rows limit (order_by le rows) ++ hidden) rows /\
    length (limit_rows limit (order_by le rows))
    = (if (limit <? 0)%Z then length rows
       else Nat.min (Z.to_nat limit) (length rows)) /\
    StronglySorted before (limit_rows limit (order_by le rows)) /\
    (forall a b, In a (limit_rows limit (order_by le rows)) -> In b hidden ->
                 before a b).
Proof.
  pose proof (order_by_same_rows rows) as Hp.
  pose proof (order_by_in_order rows) as Hs.
  unfold limit_rows. destruct (limit <? 0)%Z.
  - exists []. rewrite app_nil_r. split; [exact Hp|].
    split; [now apply Permutation_length|]. split; [exact Hs|].
    intros a b _ [].
  - exists (skipn (Z.to_nat limit) (order_by le rows)).
    rewrite firstn_skipn. split; [exact Hp|].
    split; [rewrite length_firstn; now rewrite (Permutation_length Hp)|].
    rewrite <- (firstn_skipn (Z.to_nat limit) (order_by le rows)) in Hs.
    split; [now apply in_order_front in Hs | now apply in_order_across].
Qed.

End OrderBy.

Lemma asc_total {A : Type} (key : A -> Z) (a b : A) :
  asc key a b = true \/ asc key b a = true.
Proof. unfold asc. destruct (Z.leb_spec (key a) (key b)); [now left|right]. apply Z.leb_le. lia. Qed.

Lemma asc_trans {A : Type} (key : A -> Z) (a b c : A) :
  asc key a b = true -> asc key b c = true -> asc key a c = true.
Proof. unfold asc. rewrite !Z.leb_le. lia. Qed.

Lemma desc_total {A : Type} (key : A -> Z) (a b : A) :
  desc key a b = true \/ desc key b a = true.
Proof. unfold desc. destruct (Z.leb_spec (key b) (key a)); [now left|right]. apply Z.leb_le. lia. Qed.

Lemma desc_trans {A : Type} (key : A -> Z) (a b c : A) :
  desc key a b = true -> desc key b c = true -> desc key a c = true.
Proof. unfold desc. rewrite !Z.leb_le. lia. Qed.

Lemma order_by_map {A B : Type} (f : A -> B) (le : A -> A -> bool)
    (le' : B -> B -> bool) (rows : list A) :
  (forall a b, le' (f a) (f b) = le a b) ->
  order_by le' (map f rows) = map f (order_by le rows).
Proof.
  intros Hle. induction rows as [|x rows IH]; [reflexivity|].
  cbn [map order_by fold_right]. fold (order_by le' (map f rows)).
  fold (order_by le rows). rewrite IH. clear IH.
  induction (order_by le rows) as [|y sorted IH]; [reflexivity|].
  cbn [map place_row]. rewrite Hle. destruct (le x y); [reflexivity|].
  cbn [map]. now rewrite IH.
Qed.

Lemma limit_rows_map {A B : Type} (f : A -> B) (limit : Z) (rows : list A) :
  limit_rows limit (map f rows) = map f (limit_rows limit rows).
Proof.
  unfold limit_rows. destruct (limit <? 0)%Z; [reflexivity|].
  apply firstn_map.
Qed.

Lemma desc_in_order {A : Type} (key : A -> Z) (rows : list A) :
  StronglySorted (fun a b => desc key a b = true) rows ->
  StronglySorted (fun a b => (key b <= key a)%Z) rows.
Proof.
  induction 1 as [|a rows _ IH Ha]; constructor; [exact IH|].
  eapply Forall_impl; [|exact Ha]. intros b H. now apply Z.leb_le.
Qed.

Lemma asc_in_order {A : Type} (key : A -> Z) (rows : list A) :
  StronglySorted (fun a b => asc key a b = true) rows ->
  StronglySorted (fun a b => (key a <= key b)%Z) rows.
Proof.
  induction 1 as [|a rows _ IH Ha]; constructor; [exact IH|].
  eapply Forall_impl; [|exact Ha]. intros b H. now apply Z.leb_le.
Qed.

(* ================================================================== *)
(** ** Listing sessions, files and chats *)

Lemma get_all_sessions_run (limit : Z) (c : Conn) :
  get_all_sessions limit c
  = if fits_int64 limit
    then (Return (map session_info (sql_select_sessions limit (live c))),
          commit c)
    else (Raise int_too_large, rollback c).
Proof.
  unfold get_all_sessions, get_cursor, bind, bound. rewrite bind_int.
  now destruct (fits_int64 limit).
Qed.

Lemma get_session_files_run (id : Z) (c : Conn) :
  get_session_files id c
  = if fits_int64 id
    then (Return (map file_info (sql_select_session_files id (live c))),
          commit c)
    else (Raise int_too_large, rollback c).
Proof.
  unfold get_session_files, get_cursor, bind, bound. rewrite bind_int.
  now destruct (fits_int64 id).
Qed.

Lemma get_session_chats_run (id limit : Z) (c : Conn) :
  get_session_chats id limit c
  = if fits_int64 id && fits_int64 limit
    then (Return (map chat_info (sql_select_session_chats id limit (live c))),
          commit c)
    else (Raise int_too_large, rollback c).
Proof.
  unfold get_session_chats, get_cursor, bind, bound. rewrite bind_two_ints.
  now destruct (fits_int64 id && fits_int64 limit).
Qed.

Lemma get_all_chats_run (limit : Z) (c : Conn) :
  get_all_chats limit c
  = if fits_int64 limit
    then (Return (map chat_with_session (sql_select_all_chats limit (live c))),
          commit c)
    else (Raise int_too_large, rollback c).
Proof.
  unfold get_all_chats, get_cursor, bind, bound. rewrite bind_int.
  now destruct (fits_int64 limit).
Qed.

(** X1.  With a limit that SQLite binds, [get_all_sessions(limit)]
    returns the sessions most recently accessed first, each with the
    numbers of its files and chats, [limit] of them at most and all of
    them when [limit] is negative; the sessions it leaves out are the
    least recently accessed ones.  With any other limit it raises
    [OverflowError]. *)
Theorem get_all_sessions_most_recent_first (limit : Z) (c : Conn) :
  (fits_int64 limit = true ->
   exists shown hidden : list Session,
     get_all_sessions limit c
     = (Return (map (fun s => session_info (session_row (live c) s)) shown),
        commit c) /\
     Permutation (shown ++ hidden) (sessions (live c)) /\
     length shown
     = (if (limit <? 0)%Z then length (sessions (live c))
        else Nat.min (Z.to_nat limit) (length (sessions (live c)))) /\
     StronglySorted (fun a b => (last_accessed b <= last_accessed a)%Z) shown /\
     (forall a b, In a shown -> In b hidden ->
                  (last_accessed b <= last_accessed a)%Z)) /\
  (fits_int64 limit = false ->
   get_all_sessions limit c
   = (Raise (OverflowError
               (lit "Python int too large to convert to SQLite INTEGER")),
      rollback c)).
Proof.
  rewrite get_all_sessions_run.
  split; intros Hfits; rewrite Hfits; [|reflexivity].
  destruct (limit_of_ordered Session (desc last_accessed)
              (desc_total last_accessed) (desc_trans last_accessed)
              limit (sessions (live c)))
    as (hidden & Hperm & Hlen & Hsorted & Hcross).
  exists (limit_rows limit (order_by (desc last_accessed) (sessions (live c)))),
         hidden.
  split.
  { unfold sql_select_sessions.
    rewrite (order_by_map (session_row (live c)) (desc last_accessed))
      by reflexivity.
    now rewrite limit_rows_map, map_map. }
  split; [exact Hperm|]. split; [exact Hlen|]. split.
  - now apply desc_in_order.
  - intros a b Ha Hb. apply Z.leb_le. exact (Hcross a b Ha Hb).
Qed.

Lemma type_or_unknown_not_empty (v : option pystr) : type_or_unknown v <> [].
Proof.
  unfold type_or_unknown. destruct v as [[|ch t]|]; discriminate.
Qed.

(** X2.  With an id that SQLite binds, [get_session_files(id)] returns
    one dict for each file of the session and for no other file, latest
    upload first: as many as the [file_count] that [get_all_sessions]
    reports for the session.  A NULL or empty type reads [Unknown], so no
    listed type is empty.  With any other id it raises
    [OverflowError]. *)
Theorem get_session_files_latest_first (id : Z) (c : Conn) :
  (fits_int64 id = true ->
   exists rows : list File,
     get_session_files id c = (Return (map file_info rows), commit c) /\
     Permutation rows
       (filter (fun f => f_session_id f =? id)%Z (files (live c))) /\
     length (map file_info rows) = count_files id (live c) /\
     StronglySorted (fun a b => (upload_time b <= upload_time a)%Z) rows /\
     Forall (fun i => fi_file_type i <> []) (map file_info rows)) /\
  (fits_int64 id = false ->
   get_session_files id c
   = (Raise (OverflowError
               (lit "Python int too large to convert to SQLite INTEGER")),
      rollback c)).
Proof.
  rewrite get_session_files_run.
  split; intros Hfits; rewrite Hfits; [|reflexivity].
  exists (sql_select_session_files id (live c)). split; [reflexivity|].
  unfold sql_select_session_files. split; [apply order_by_same_rows|].
  split.
  { rewrite length_map. unfold count_files.
    apply Permutation_length, order_by_same_rows. }
  split.
  - apply desc_in_order, order_by_in_order;
      [apply desc_total | apply desc_trans].
  - apply Forall_forall. intros i Hi. apply in_map_iff in Hi.
    destruct Hi as (f & <- & Hf). apply type_or_unknown_not_empty.
Qed.

(** X3.  With an id and a limit that SQLite binds,
    [get_session_chats(id, limit)] returns chats of the session only,
    earliest first, [limit] of them at most and all of them when [limit]
    is negative; the chats of the session it leaves out are the latest
    ones.  When the id or the limit is no 64-bit integer it raises
    [OverflowError]. *)
Theorem get_session_chats_earliest_first (id limit : Z) (c : Conn) :
  (fits_int64 id && fits_int64 limit = true ->
   exists shown hidden : list Chat,
     get_session_chats id limit c = (Return (map chat_info shown), commit c) /\
     Permutation (shown ++ hidden)
       (filter (fun x => c_session_id x =? id)%Z (chats (live c))) /\
     length shown
     = (if (limit <? 0)%Z then count_chats id (live c)
        else Nat.min (Z.to_nat limit) (count_chats id (live c))) /\
     StronglySorted (fun a b => (c_created_at a <= c_created_at b)%Z) shown /\
     (forall a b, In a shown -> In b hidden ->
                  (c_created_at a <= c_created_at b)%Z)) /\
  (fits_int64 id && fits_int64 limit = false ->
   get_session_chats id limit c
   = (Raise (OverflowError
               (lit "Python int too large to convert to SQLite INTEGER")),
      rollback c)).
Proof.
  rewrite get_session_chats_run.
  split; intros Hfits; rewrite Hfits; [|reflexivity].
  destruct (limit_of_ordered Chat (asc c_created_at)
              (asc_total c_created_at) (asc_trans c_created_at) limit
              (filter (fun x => c_session_id x =? id)%Z (chats (live c))))
    as (hidden & Hperm & Hlen & Hsorted & Hcross).
  exists (sql_select_session_chats id limit (live c)), hidden.
  split; [reflexivity|]. split; [exact Hperm|]. split; [exact Hlen|].
  split; [now apply asc_in_order|].
  intros a b Ha Hb. apply Z.leb_le. exact (Hcross a b Ha Hb).
Qed.

Lemma join_rows_owner (db : DB) (r : Chat * Session) :
  In r (join_chats_sessions db) ->
  In (fst r) (chats db) /\ In (snd r) (sessions db) /\
  s_id (snd r) = c_session_id (fst r).
Proof.
  unfold join_chats_sessions. rewrite in_flat_map. intros (x & Hx & Hr).
  apply in_map_iff in Hr. destruct Hr as (s & <- & Hs).
  apply filter_In in Hs. destruct Hs as [Hs E]. apply Z.eqb_eq in E.
  now repeat split.
Qed.

Lemma join_one_row_per_chat (db : DB) :
  wf db -> map fst (join_chats_sessions db) = chats db.
Proof.
  intros ([Hnd _] & _ & _ & _ & Hfk). unfold join_chats_sessions.
  induction Hfk as [|x rest Hx _ IH]; [reflexivity|].
  cbn [flat_map]. rewrite map_app, IH. clear IH.
  apply session_exists_in in Hx.
  pose proof (rows_with_id_one (c_session_id x) db Hnd Hx) as Hone.
  destruct (filter (fun s => s_id s =? c_session_id x)%Z (sessions db))
    as [|s [|s' more]]; try discriminate.
  reflexivity.
Qed.

(** X4.  On a store that keeps the schema's keys and with a limit that
    SQLite binds, [get_all_chats(limit)] lists every chat once, with the
    name of the session that owns it, latest first; it returns [limit]
    rows at most, all of them when [limit] is negative, and leaves out
    the earliest ones.  With any other limit it raises
    [OverflowError]. *)
Theorem get_all_chats_one_row_per_chat (limit : Z) (c : Conn)
    (Hwf : wf (live c)) :
  (fits_int64 limit = true ->
   exists shown hidden : list (Chat * Session),
     get_all_chats limit c = (Return (map chat_with_session shown), commit c) /\
     Permutation (map fst (shown ++ hidden)) (chats (live c)) /\
     Forall (fun r => In (snd r) (sessions (live c)) /\
                      s_id (snd r) = c_session_id (fst r))
            (shown ++ hidden) /\
     length shown
     = (if (limit <? 0)%Z then length (chats (live c))
        else Nat.min (Z.to_nat limit) (length (chats (live c)))) /\
     StronglySorted
       (fun a b => (c_created_at (fst b) <= c_created_at (fst a))%Z) shown /\
     (forall a b, In a shown -> In b hidden ->
                  (c_created_at (fst b) <= c_created_at (fst a))%Z)) /\
  (fits_int64 limit = false ->
   get_all_chats limit c
   = (Raise (OverflowError
               (lit "Python int too large to convert to SQLite INTEGER")),
      rollback c)).
Proof.
  rewrite get_all_chats_run.
  split; intros Hfits; rewrite Hfits; [|reflexivity].
  pose (key := fun r : Chat * Session => c_created_at (fst r)).
  destruct (limit_of_ordered (Chat * Session) (desc key)
              (desc_total key) (desc_trans key) limit
              (join_chats_sessions (live c)))
    as (hidden & Hperm & Hlen & Hsorted & Hcross).
  exists (sql_select_all_chats limit (live c)), hidden.
  split; [reflexivity|]. split.
  { rewrite <- (join_one_row_per_chat _ Hwf). now apply Permutation_map. }
  split.
  { apply Forall_forall. intros r Hr.
    apply (Permutation_in _ Hperm), join_rows_owner in Hr. tauto. }
  split.
  { unfold sql_select_all_chats. fold key. rewrite Hlen.
    now rewrite <- (join_one_row_per_chat _ Hwf), length_map. }
  split; [exact (desc_in_order key _ Hsorted)|].
  intros a b Ha Hb. apply Z.leb_le. exact (Hcross a b Ha Hb).
Qed.

(* ================================================================== *)
(** ** Reading the active session back *)

Lemma nobody_active_after_deactivate (rows : list Session) :
  find is_active (map (set_active false) rows) = None.
Proof. induction rows as [|s rows IH]; [reflexivity | exact IH]. Qed.

Lemma find_in_appended {A : Type} (p : A -> bool) (front : list A) (x : A) :
  find p front = None -> p x = true -> find p (front ++ [x]) = Some x.
Proof.
  induction front as [|y front IH]; cbn [find app]; intros Hn Hx.
  - now rewrite Hx.
  - destruct (p y); [discriminate | now apply IH].
Qed.

(** X5.  With a name that SQLite binds, [get_active_session] after
    [create_session] returns the new session: its id is the one
    [create_session] returned, which no session of the store had, its
    name is the given name (the dated default for a missing or empty
    one), and its times are the current time.  With a name that cannot be
    encoded, [create_session] raises what the binding raises and the
    connection is rolled back. *)
Theorem create_session_then_get_active_session
    (name : option pystr) (clk : Clock) (c : Conn) :
  (bind_parameters [PText (name_or_default name clk); PInt 1] = None ->
   exists id c1 s,
     create_session name clk c = (Return id, c1) /\
     get_active_session c1 = (Return (Some s), c1) /\
     s_id s = id /\ ~ In id (map s_id (sessions (live c))) /\
     session_name s = name_or_default name clk /\
     s_created_at s = current_timestamp clk /\
     last_accessed s = current_timestamp clk) /\
  (forall e,
     bind_parameters [PText (name_or_default name clk); PInt 1] = Some e ->
     create_session name clk c = (Raise e, rollback c)).
Proof.
  rewrite create_session_run. split; [intros Hbind | intros e Hbind];
    rewrite Hbind; [|reflexivity].
  do 3 eexists. split; [reflexivity|].
  split.
  { unfold get_active_session, sql_select_active. run_method.
    rewrite find_in_appended;
      [reflexivity | apply nobody_active_after_deactivate | reflexivity]. }
  cbn. repeat split.
  rewrite map_id_relabel by reflexivity. apply next_rowid_fresh.
Qed.

Lemma active_after_activate (id : Z) (clk : Clock) (rows : list Session) :
  match find is_active
          (map (fun s => if (s_id s =? id)%Z
                         then set_last_accessed (current_timestamp clk)
                                (set_active true s)
                         else s)
               (map (set_active false) rows)) with
  | Some s => s_id s = id /\ last_accessed s = current_timestamp clk /\
              existsb (fun s => s_id s =? id)%Z rows = true
  | None => existsb (fun s => s_id s =? id)%Z rows = false
  end.
Proof.
  induction rows as [|s rows IH]; [reflexivity|].
  cbn [map find existsb set_active s_id].
  destruct (s_id s =? id)%Z eqn:E; cbn.
  - apply Z.eqb_eq in E. now repeat split.
  - destruct (find _ _); [|exact IH]. tauto.
Qed.

(** X6.  With an id that SQLite binds, [get_active_session] after
    [set_active_session(id)] returns the session with that id, its
    last-accessed time refreshed, when [set_active_session] returned
    [True], and [None] when it returned [False]: an id that no session
    has leaves the store with no active session to read.  With any other
    id [set_active_session] raises [OverflowError] and the connection is
    rolled back. *)
Theorem set_active_session_then_get_active_session
    (id : Z) (clk : Clock) (c : Conn) :
  (fits_int64 id = true ->
   exists b c1,
     set_active_session id clk c = (Return b, c1) /\
     match get_active_session c1 with
     | (Return (Some s), c2) =>
         b = true /\ s_id s = id /\
         last_accessed s = current_timestamp clk /\ c2 = c1
     | (Return None, c2) => b = false /\ c2 = c1
     | (Raise _, _) => False
     end) /\
  (fits_int64 id = false ->
   set_active_session id clk c
   = (Raise (OverflowError
               (lit "Python int too large to convert to SQLite INTEGER")),
      rollback c)).
Proof.
  rewrite set_active_session_run.
  split; intros Hfits; rewrite Hfits; [|reflexivity].
  do 2 eexists. split; [reflexivity|].
  unfold get_active_session, sql_select_active. run_method.
  pose proof (active_after_activate id clk (sessions (live c))) as H.
  unfold session_exists.
  destruct (find _ _) as [s|]; [destruct H as (H1 & H2 & H3)|];
    rewrite ?H, ?H3; now repeat split.
Qed.
(* ================================================================== *)
(** ** Files: insert, look up, delete *)

Lemma find_new_row (id : Z) (rows : list File) (row : File) :
  ~ In id (map f_id rows) -> f_id row = id ->
  find (fun f => f_id f =? id)%Z (rows ++ [row]) = Some row.
Proof.
  intros Hfresh E. apply find_in_appended; [|now apply Z.eqb_eq].
  apply find_absent_id. intros f Hf Ef. apply Hfresh. rewrite <- Ef.
  now apply in_map.
Qed.

Lemma filter_out_new_row (id : Z) (rows : list File) (row : File) :
  ~ In id (map f_id rows) -> f_id row = id ->
  filter (fun f => negb (f_id f =? id)%Z) (rows ++ [row]) = rows.
Proof.
  intros Hfresh E. rewrite filter_app. cbn [filter]. rewrite E, Z.eqb_refl.
  cbn [negb]. rewrite app_nil_r.
  induction rows as [|f rows IH]; [reflexivity|]. cbn [filter].
  destruct (f_id f =? id)%Z eqn:Ef.
  - apply Z.eqb_eq in Ef. exfalso. apply Hfresh. left. exact Ef.
  - cbn [negb]. f_equal. apply IH. intros H. apply Hfresh. now right.
Qed.

Lemma next_file_id_fresh (db : DB) : ~ In (next_file_id db) (map f_id (files db)).
Proof. apply next_rowid_fresh. Qed.

Lemma session_exists_touch (id id' : Z) (now : timestamp) (db : DB) :
  session_exists id (snd (sql_touch_session id' now db)) = session_exists id db.
Proof.
  unfold session_exists. cbn [snd sql_touch_session sessions with_sessions].
  induction (sessions db) as [|s rows IH]; [reflexivity|].
  cbn [map existsb]. rewrite IH. now destruct (s_id s =? id')%Z.
Qed.

Lemma delete_file_run (id : Z) (c : Conn) :
  delete_file id c
  = if fits_int64 id
    then (Return (0 <? fst (sql_delete_file id (live c)))%nat,
          clean (snd (sql_delete_file id (live c))))
    else (Raise int_too_large, rollback c).
Proof.
  unfold delete_file, get_cursor, bind, bound. rewrite bind_int.
  now destruct (fits_int64 id).
Qed.

(** X7.  For a session of the store and parameters that SQLite binds,
    [add_file] returns the next rowid of the files table, which no file
    of the store had, and the text handed to it is what
    [get_file_content] returns for that id ([None] when [None] was handed
    over), whatever else the store holds.  The rowid is taken to be a
    64-bit integer, as the rowids of SQLite are. *)
Theorem add_file_then_get_file_content
    (session_id : Z) (name path : pystr) (size : option Z)
    (content type : option pystr) (clk : Clock) (c : Conn)
    (Hin : session_exists session_id (live c) = true)
    (Hbind : bind_parameters
               (file_parameters session_id name path size content type)
             = None)
    (Hid : fits_int64 (next_file_id (live c)) = true) :
  exists id c1,
    add_file session_id name path size content type clk c = (Return id, c1) /\
    id = next_file_id (live c) /\
    ~ In id (map f_id (files (live c))) /\
    get_file_content id c1 = (Return content, c1).
Proof.
  rewrite (add_file_run _ _ _ _ _ _ _ _ Hin Hbind).
  pose proof (next_file_id_fresh (live c)) as Hfresh.
  do 2 eexists. split; [reflexivity|]. split; [reflexivity|].
  split; [exact Hfresh|].
  rewrite get_file_content_run, Hid. unfold sql_select_file_content.
  cbn [live clean snd sql_touch_session files with_sessions with_files].
  match goal with
  | |- context [files (live c) ++ [?r]] =>
      rewrite (find_new_row (next_file_id (live c)) (files (live c)) r
                 Hfresh eq_refl)
  end.
  reflexivity.
Qed.

(** X8.  For a session of the store, parameters that SQLite binds and a
    next rowid that is a 64-bit integer, [delete_file] on the id that
    [add_file] just returned returns [True] and puts the files table
    back as it was; it leaves the sessions as [add_file] left them (the
    owner's refreshed time stays) and the chats untouched, after it
    [get_file_content] of the id is the empty string, and the id is not
    given out again: the next [add_file] returns a larger one. *)
Theorem add_file_then_delete_file
    (session_id : Z) (name path : pystr) (size : option Z)
    (content type : option pystr) (clk : Clock) (c : Conn)
    (Hin : session_exists session_id (live c) = true)
    (Hbind : bind_parameters
               (file_parameters session_id name path size content type)
             = None)
    (Hid : fits_int64 (next_file_id (live c)) = true) :
  exists id c1 c2 id' c3,
    add_file session_id name path size content type clk c = (Return id, c1) /\
    delete_file id c1 = (Return true, c2) /\
    files (live c2) = files (live c) /\
    sessions (live c2) = sessions (live c1) /\
    chats (live c2) = chats (live c) /\
    get_file_content id c2 = (Return (Some []), c2) /\
    add_file session_id name path size content type clk c2 = (Return id', c3) /\
    (id < id')%Z.
Proof.
  rewrite (add_file_run _ _ _ _ _ _ _ _ Hin Hbind).
  set (id := next_file_id (live c)) in *.
  pose proof (next_file_id_fresh (live c)) as Hfresh. fold id in Hfresh.
  do 2 eexists.
  assert (Hdel : exists c2,
    delete_file id
      (clean (snd (sql_touch_session session_id (update_timestamp clk)
                     (with_files (live c)
                        (files (live c)
                         ++ [{| f_id := id; f_session_id := session_id;
                                filename := name; filepath := path;
                                filesize := size; content_text := content;
                                upload_time := current_timestamp clk;
                                file_type := type |}]) id))))
    = (Return true, c2) /\
    files (live c2) = files (live c) /\
    sessions (live c2)
    = sessions (snd (sql_touch_session session_id (update_timestamp clk)
                       (live c))) /\
    chats (live c2) = chats (live c) /\
    seq_files (live c2) = id /\ committed c2 = live c2).
  { rewrite delete_file_run, Hid. unfold sql_delete_file. eexists.
    cbn [live clean snd fst sql_touch_session files with_sessions with_files
         sessions chats seq_files].
    rewrite filter_app, length_app. cbn [filter f_id]. rewrite Z.eqb_refl.
    cbn [length]. rewrite Nat.add_comm. cbn [Nat.add Nat.ltb Nat.leb].
    split; [reflexivity|].
    match goal with
    | |- context [files (live c) ++ [?r]] =>
        rewrite (filter_out_new_row id (files (live c)) r Hfresh eq_refl)
    end.
    now repeat split. }
  destruct Hdel as (c2 & Edel & Hf & Hs & Hc & Hseq & Hclean).
  exists c2. do 2 eexists. split; [reflexivity|]. split; [exact Edel|].
  split; [exact Hf|]. split; [exact Hs|]. split; [exact Hc|]. split.
  { rewrite get_file_content_run, Hid. unfold sql_select_file_content.
    rewrite Hf. rewrite find_absent_id.
    - destruct c2 as [d l]. cbn in Hclean. now subst d.
    - intros f Hin' Ef. apply Hfresh. rewrite <- Ef. now apply in_map. }
  assert (Hin2 : session_exists session_id (live c2) = true).
  { unfold session_exists. rewrite Hs. fold (session_exists session_id
      (snd (sql_touch_session session_id (update_timestamp clk) (live c)))).
    now rewrite session_exists_touch. }
  rewrite (add_file_run _ _ _ _ _ _ _ _ Hin2 Hbind). split; [reflexivity|].
  unfold next_file_id. rewrite Hseq. apply next_rowid_above_seq.
Qed.

(** X9.  After [add_file] for a session of the store with parameters
    that SQLite binds, [get_session_content] of that session joins, with
    the two characters [\n\n] between neighbours, the texts it joined
    before together with the new text, when that is neither [None] nor
    empty, and exactly the texts it joined before otherwise; the content
    of every other session whose id SQLite binds is what it was. *)
Theorem add_file_then_get_session_content
    (session_id other : Z) (name path : pystr) (size : option Z)
    (content type : option pystr) (clk : Clock) (c : Conn)
    (Hin : session_exists session_id (live c) = true)
    (Hbind : bind_parameters
               (file_parameters session_id name path size content type)
             = None)
    (Hother : other <> session_id)
    (Hfits : fits_int64 other = true) :
  exists id c1 texts,
    add_file session_id name path size content type clk c = (Return id, c1) /\
    Permutation texts
      (match content with
       | Some t => if truthy t then [t] else []
       | None => []
       end ++ session_texts session_id (live c)) /\
    get_session_content session_id c1
    = (Return (join [10; 10]%N texts), c1) /\
    get_session_content other c1
    = (Return (join [10; 10]%N (session_texts other (live c))), c1).
Proof.
  rewrite (add_file_run _ _ _ _ _ _ _ _ Hin Hbind). do 3 eexists.
  split; [reflexivity|]. rewrite !get_session_content_run.
  rewrite Hfits, (bind_int_fits _ _ Hbind).
  unfold session_texts. cbn [live clean snd sql_touch_session files
                             with_sessions with_files commit].
  rewrite !flat_map_app. cbn [flat_map f_session_id content_text].
  rewrite Z.eqb_refl, app_nil_r.
  apply Z.eqb_neq in Hother. rewrite Z.eqb_sym in Hother. rewrite Hother.
  rewrite app_nil_r. split; [|split; reflexivity].
  apply Permutation_app_comm.
Qed.
(* ================================================================== *)
(** ** Chats of a session *)

Lemma filter_none_left {A : Type} (p : A -> bool) (rows : list A) :
  filter p (filter (fun x => negb (p x)) rows) = [].
Proof.
  induction rows as [|x rows IH]; [reflexivity|]. cbn [filter].
  destruct (p x) eqn:E; cbn [negb filter]; [exact IH | now rewrite E].
Qed.

Lemma filter_other_session (id other : Z) (rows : list Chat) :
  other <> id ->
  filter (fun x => c_session_id x =? other)%Z
         (filter (fun x => negb (c_session_id x =? id)%Z) rows)
  = filter (fun x => c_session_id x =? other)%Z rows.
Proof.
  intros Hne. induction rows as [|x rows IH]; [reflexivity|]. cbn [filter].
  destruct (c_session_id x =? id)%Z eqn:E; cbn [negb filter].
  - apply Z.eqb_eq in E. rewrite IH.
    destruct (c_session_id x =? other)%Z eqn:E'; [|reflexivity].
    apply Z.eqb_eq in E'. congruence.
  - now rewrite IH.
Qed.

Lemma filter_split_length {A : Type} (p : A -> bool) (rows : list A) :
  (length (filter p rows) + length (filter (fun x => negb (p x)) rows)
   = length rows)%nat.
Proof.
  induction rows as [|x rows IH]; [reflexivity|]. cbn [filter].
  destruct (p x); cbn [negb length]; lia.
Qed.

Lemma delete_session_chats_run (id : Z) (c : Conn) :
  delete_session_chats id c
  = if fits_int64 id
    then (Return (fst (sql_delete_session_chats id (live c))),
          clean (snd (sql_delete_session_chats id (live c))))
    else (Raise int_too_large, rollback c).
Proof.
  unfold delete_session_chats, get_cursor, bind, bound. rewrite bind_int.
  now destruct (fits_int64 id).
Qed.

(** X10.  With an id that SQLite binds, [delete_session_chats(id)]
    returns the number of chats the session had and commits a store in
    which the session has none, so that [get_session_chats] returns the
    empty list for every limit that SQLite binds (and raises
    [OverflowError] for any other); the chats of every other session,
    the sessions and the files are as before.  With any other id
    [delete_session_chats] raises [OverflowError] and deletes
    nothing. *)
Theorem delete_session_chats_empties_the_session (id limit : Z) (c : Conn) :
  (fits_int64 id = true ->
   exists c1,
     delete_session_chats id c = (Return (count_chats id (live c)), c1) /\
     get_session_chats id limit c1
     = (if fits_int64 limit then Return []
        else Raise (OverflowError
                      (lit "Python int too large to convert to SQLite INTEGER")),
        c1) /\
     (length (chats (live c1)) + count_chats id (live c)
      = length (chats (live c)))%nat /\
     (forall other, other <> id ->
        filter (fun x => c_session_id x =? other)%Z (chats (live c1))
        = filter (fun x => c_session_id x =? other)%Z (chats (live c))) /\
     sessions (live c1) = sessions (live c) /\
     files (live c1) = files (live c)) /\
  (fits_int64 id = false ->
   delete_session_chats id c
   = (Raise (OverflowError
               (lit "Python int too large to convert to SQLite INTEGER")),
      rollback c)).
Proof.
  rewrite delete_session_chats_run.
  split; intros Hfits; rewrite Hfits; [|reflexivity].
  unfold sql_delete_session_chats. eexists. split; [reflexivity|].
  cbn [fst snd live clean chats sessions files with_chats].
  split.
  { rewrite get_session_chats_run, Hfits. cbn [andb live clean].
    destruct (fits_int64 limit); [|reflexivity].
    unfold sql_select_session_chats. cbn [chats with_chats].
    rewrite filter_none_left. unfold limit_rows.
    destruct (limit <? 0)%Z; [reflexivity|]. now rewrite firstn_nil. }
  split.
  { unfold count_chats. rewrite Nat.add_comm. apply filter_split_length. }
  split; [|split; reflexivity].
  intros other Hne. now apply filter_other_session.
Qed.

(* ================================================================== *)
(** ** Rows that refer to a missing session *)

Lemma deleted_id_gone (id : Z) (clk : Clock) (db : DB) :
  session_keys_ok db -> session_exists id db = true ->
  session_exists id (ensured clk (snd (sql_delete_session id db))) = false.
Proof.
  intros [_ Hle] Hin.
  destruct (ensured_tables clk (snd (sql_delete_session id db)))
    as (_ & _ & extra & Hs & Hextra).
  rewrite (delete_session_present _ _ Hin) in *. cbn [sessions seq_sessions] in *.
  apply session_exists_not_in. rewrite Hs, map_app, in_app_iff.
  intros [H|H]; apply in_map_iff in H; destruct H as (s & E & H).
  - apply filter_In in H. destruct H as [_ H].
    apply negb_true_iff, Z.eqb_neq in H. contradiction.
  - rewrite Forall_forall in Hextra, Hle. specialize (Hextra _ H).
    apply session_exists_in, in_map_iff in Hin.
    destruct Hin as (s0 & E0 & H0). specialize (Hle _ H0). lia.
Qed.

(** X11.  Once [delete_session(id)] has returned [True], the id belongs
    to no session.  [add_file] and [add_chat] for it store nothing: they
    raise what the binding of their parameters raises, and the
    foreign-key [IntegrityError] when all parameters bind.  A second
    [delete_session(id)] returns [False] and changes nothing.  The id,
    which was the rowid of a session, is taken to be a 64-bit
    integer. *)
Theorem deleted_session_takes_no_rows
    (id : Z) (name path : pystr) (size : option Z)
    (content type : option pystr) (q a : pystr) (clk clk' : Clock) (c : Conn)
    (Hkeys : session_keys_ok (live c))
    (Hin : session_exists id (live c) = true)
    (Hfits : fits_int64 id = true) :
  exists c1,
    delete_session id clk c = (Return true, c1) /\
    add_file id name path size content type clk' c1
    = (Raise match bind_parameters
                     (file_parameters id name path size content type) with
             | Some e => e
             | None => IntegrityError (lit "FOREIGN KEY constraint failed")
             end, c1) /\
    add_chat id q a clk' c1
    = (Raise match bind_parameters [PInt id; PText q; PText a] with
             | Some e => e
             | None => IntegrityError (lit "FOREIGN KEY constraint failed")
             end, c1) /\
    delete_session id clk' c1 = (Return false, c1).
Proof.
  rewrite delete_session_run, Hin. eexists. split; [reflexivity|].
  pose proof (deleted_id_gone id clk (live c) Hkeys Hin) as Hgone.
  split; [|split].
  - destruct (bind_parameters (file_parameters id name path size content type))
      as [e|] eqn:Eb.
    + now rewrite (add_file_unbindable _ _ _ _ _ _ _ _ e Eb).
    + now rewrite (add_file_unknown_session _ _ _ _ _ _ clk' (clean _)
                     Eb Hgone).
  - destruct (bind_parameters [PInt id; PText q; PText a]) as [e|] eqn:Eb.
    + now rewrite (add_chat_unbindable _ _ _ _ _ e Eb).
    + now rewrite (add_chat_unknown_session _ _ _ clk' (clean _) Eb Hgone).
  - rewrite delete_session_run. cbn [live clean]. now rewrite Hgone, Hfits.
Qed.

(* ================================================================== *)
(** ** Initialization *)

Lemma select_active_some (db : DB) :
  existsb is_active (sessions db) = true ->
  exists s, sql_select_active db = Some s.
Proof.
  unfold sql_select_active.
  induction (sessions db) as [|s rows IH]; cbn [existsb find]; [discriminate|].
  destruct (is_active s); [now exists s | exact IH].
Qed.

Lemma select_active_absent (db : DB) :
  existsb is_active (sessions db) = false -> sql_select_active db = None.
Proof.
  unfold sql_select_active.
  induction (sessions db) as [|s rows IH]; cbn [existsb find]; [reflexivity|].
  destruct (is_active s); [discriminate | exact IH].
Qed.

(** X12.  [_init_db] commits and leaves a store that has an active
    session as it is; on a store with no active session, with or without
    sessions, it activates none of them but appends a new active session
    named [Default Session] under a fresh id, and touches nothing else.
    Run again on its own result it changes nothing. *)
Theorem init_db_repairs_only_when_needed (clk clk' : Clock) (c : Conn) :
  exists c1,
    _init_db clk c = (Return tt, c1) /\
    committed c1 = live c1 /\
    (if existsb is_active (sessions (live c))
     then live c1 = live c
     else exists s,
         sessions (live c1) = sessions (live c) ++ [s] /\
         is_active s = true /\
         session_name s = lit "Default Session" /\
         ~ In (s_id s) (map s_id (sessions (live c))) /\
         files (live c1) = files (live c) /\
         chats (live c1) = chats (live c)) /\
    _init_db clk' c1 = (Return tt, c1).
Proof.
  rewrite init_db_run. eexists. split; [reflexivity|].
  split; [reflexivity|]. cbn [live clean]. split.
  - unfold ensured. destruct (existsb is_active (sessions (live c))) eqn:E.
    + destruct (select_active_some _ E) as [s ->]. reflexivity.
    + rewrite (select_active_absent _ E). eexists. cbn.
      split; [reflexivity|]. repeat split. apply next_rowid_fresh.
  - rewrite init_db_run. cbn [live clean]. f_equal. f_equal.
    pose proof (ensured_has_active clk (live c)) as H.
    destruct (select_active_some _ H) as [s Hs].
    unfold ensured at 1. now rewrite Hs.
Qed.

(* ================================================================== *)
(** ** Statistics *)

Lemma add_sizes_app (acc : Z) (front back : list Z) :
  add_sizes acc (front ++ back)
  = match add_sizes acc front with
    | Some total => add_sizes total back
    | None => None
    end.
Proof.
  revert acc. induction front as [|n front IH]; intros acc; [reflexivity|].
  cbn [app add_sizes]. destruct (fits_int64 (acc + n)); [apply IH | reflexivity].
Qed.

Lemma add_sizes_sum (acc total : Z) (sizes : list Z) :
  add_sizes acc sizes = Some total ->
  total = (acc + fold_right Z.add 0%Z sizes)%Z.
Proof.
  revert acc. induction sizes as [|n sizes IH]; intros acc; cbn [add_sizes].
  - intros [= <-]. cbn. lia.
  - destruct (fits_int64 (acc + n)); [|discriminate].
    intros H. rewrite (IH _ H). cbn [fold_right]. lia.
Qed.

(** [SUM(filesize) or 0] is the running sum of the sizes. *)
Lemma sum_filesize_run (db : DB) :
  match sql_sum_filesize db with
  | Return sum =>
      add_sizes 0 (known_sizes (files db)) = Some (size_or_zero sum)
  | Raise e =>
      add_sizes 0 (known_sizes (files db)) = None /\ e = integer_overflow
  end.
Proof.
  unfold sql_sum_filesize.
  destruct (known_sizes (files db)) as [|n sizes]; [reflexivity|].
  destruct (add_sizes 0 (n :: sizes)) as [total|]; [|now split].
  unfold size_or_zero. now destruct (Z.eqb_spec total 0); subst.
Qed.

Lemma get_stats_run (c : Conn) :
  get_stats c
  = match add_sizes 0 (known_sizes (files (live c))) with
    | Some total =>
        (Return {| total_sessions := length (sessions (live c));
                   active_sessions := active_count (live c);
                   total_files := length (files (live c));
                   total_size := total;
                   total_chats := length (chats (live c)) |},
         commit c)
    | None => (Raise integer_overflow, rollback c)
    end.
Proof.
  pose proof (sum_filesize_run (live c)) as H.
  unfold get_stats, get_cursor, bind, query, query_checked, ret.
  cbn [live]. destruct (sql_sum_filesize (live c)) as [sum|e].
  - rewrite H. reflexivity.
  - destruct H as [-> ->]. reflexivity.
Qed.

Lemma active_count_touch (id : Z) (now : timestamp) (db : DB) :
  active_count (snd (sql_touch_session id now db)) = active_count db.
Proof.
  unfold active_count. cbn [snd sql_touch_session sessions with_sessions].
  induction (sessions db) as [|s rows IH]; [reflexivity|]. cbn [map filter].
  destruct (s_id s =? id)%Z; cbn [is_active set_last_accessed];
    destruct (is_active s); cbn [length]; now rewrite IH.
Qed.

(** X13.  For a session of the store and parameters that SQLite binds,
    [add_file] is followed by a [get_stats] that depends on the sizes:
    when the sizes of the store and the new one add up within the 64-bit
    integers, [get_stats] counts one file more and the size handed over
    more (nothing more for a [None] size), with the numbers of sessions,
    of active sessions and of chats the same, and the total size is the
    sum of the sizes that are not NULL, 0 when there is none; when they
    do not, [get_stats] raises [OperationalError: integer overflow]. *)
Theorem add_file_then_get_stats
    (session_id : Z) (name path : pystr) (size : option Z)
    (content type : option pystr) (clk : Clock) (c : Conn)
    (Hin : session_exists session_id (live c) = true)
    (Hbind : bind_parameters
               (file_parameters session_id name path size content type)
             = None) :
  exists id c1,
    add_file session_id name path size content type clk c = (Return id, c1) /\
    (forall total,
       add_sizes 0 (known_sizes (files (live c))
                    ++ match size with Some n => [n] | None => [] end)
       = Some total ->
       exists before after,
         fst (get_stats c) = Return before /\
         get_stats c1 = (Return after, c1) /\
         total_size before
         = fold_right Z.add 0%Z (known_sizes (files (live c))) /\
         total_size after = total /\
         total_files after = S (total_files before) /\
         total_size after
         = (total_size before + match size with Some n => n | None => 0 end)%Z /\
         total_sessions after = total_sessions before /\
         active_sessions after = active_sessions before /\
         total_chats after = total_chats before) /\
    (add_sizes 0 (known_sizes (files (live c))
                  ++ match size with Some n => [n] | None => [] end)
     = None ->
     get_stats c1 = (Raise (OperationalError (lit "integer overflow")), c1)).
Proof.
  rewrite (add_file_run _ _ _ _ _ _ _ _ Hin Hbind).
  do 2 eexists. split; [reflexivity|].
  rewrite !get_stats_run.
  cbn [live clean snd sql_touch_session files with_sessions with_files].
  assert (Hsizes :
    known_sizes
      (files (live c)
       ++ [{| f_id := next_file_id (live c); f_session_id := session_id;
              filename := name; filepath := path; filesize := size;
              content_text := content; upload_time := current_timestamp clk;
              file_type := type |}])
    = known_sizes (files (live c))
      ++ match size with Some n => [n] | None => [] end).
  { unfold known_sizes. rewrite flat_map_app. cbn [flat_map filesize].
    now rewrite app_nil_r. }
  rewrite Hsizes. split.
  - intros total Hsum. rewrite Hsum.
    pose proof Hsum as Hsplit. rewrite add_sizes_app in Hsplit.
    destruct (add_sizes 0 (known_sizes (files (live c)))) as [old|] eqn:Eold;
      [|discriminate].
    do 2 eexists. split; [reflexivity|]. split; [reflexivity|].
    cbn [total_size total_files total_sessions active_sessions total_chats
         sessions chats with_files].
    apply add_sizes_sum in Eold, Hsplit.
    split; [lia|]. split; [reflexivity|]. split.
    { rewrite length_app. cbn [length]. lia. }
    split.
    { rewrite Hsplit. destruct size; cbn [fold_right]; lia. }
    split; [cbn [sessions with_sessions]; now rewrite length_map|].
    split; [|reflexivity].
    exact (active_count_touch session_id (update_timestamp clk)
             (with_files (live c) _ _)).
  - intros Hsum. now rewrite Hsum.
Qed.

(* ================================================================== *)
(** ** What every reachable store satisfies *)

(** X14.  On every store reached from [Database()] by the mutating
    methods, nothing is left uncommitted, the ids of each table are
    distinct and issued by its sequence, and every file and every chat
    refers to a session of the store. *)
Theorem reachable_store_keeps_schema_keys (c : Conn) (H : reachable c) :
  committed c = live c /\
  NoDup (map s_id (sessions (live c))) /\
  NoDup (map f_id (files (live c))) /\
  NoDup (map c_id (chats (live c))) /\
  Forall (fun f => session_exists (f_session_id f) (live c) = true)
         (files (live c)) /\
  Forall (fun x => session_exists (c_session_id x) (live c) = true)
         (chats (live c)).
Proof.
  destruct (reachable_wf c H) as (Hc & [Hs _] & [Hf _] & [Hx _] & Hfk & Hck).
  repeat split; try assumption.
  - eapply Forall_impl; [|exact Hfk]. intros f Hf'. now apply session_exists_in.
  - eapply Forall_impl; [|exact Hck]. intros x Hx'. now apply session_exists_in.
Qed.

Lemma run_op_active_le_one (op : Op) (clk : Clock) (db : DB) :
  session_keys_ok db -> (active_count db <= 1)%nat ->
  (active_count (live (run_op op clk (clean db))) <= 1)%nat.
Proof.
  intros Hk Ha.
  destruct op as [name|id|id|sid name path size content type|id
                 |sid q a|sid]; unfold run_op.
  - apply (run_call_inv (CreateSession name) clk (clean db) eq_refl).
    now split.
  - apply (run_call_inv (SetActiveSession id) clk (clean db) eq_refl).
    now split.
  - apply (run_call_inv (DeleteSession id) clk (clean db) eq_refl).
    now split.
  - destruct (bind_parameters (file_parameters sid name path size content type))
      as [e|] eqn:Eb.
    { now rewrite (add_file_unbindable _ _ _ _ _ _ clk (clean db) e Eb). }
    destruct (session_exists sid db) eqn:Ex.
    + rewrite (add_file_run sid name path size content type clk (clean db)
                 Ex Eb).
      cbn [snd live clean]. etransitivity; [|exact Ha]. apply Nat.eq_le_incl.
      exact (active_count_touch sid (update_timestamp clk)
               (with_files db _ _)).
    + now rewrite (add_file_unknown_session sid name path size content type
                     clk (clean db) Eb Ex).
  - rewrite delete_file_run. now destruct (fits_int64 id).
  - destruct (bind_parameters [PInt sid; PText q; PText a]) as [e|] eqn:Eb.
    { now rewrite (add_chat_unbindable sid q a clk (clean db) e Eb). }
    destruct (session_exists sid db) eqn:Ex.
    + rewrite (add_chat_run sid q a clk (clean db) Ex Eb).
      cbn [snd live clean]. etransitivity; [|exact Ha]. apply Nat.eq_le_incl.
      exact (active_count_touch sid (update_timestamp clk)
               (with_chats db _ _)).
    + now rewrite (add_chat_unknown_session sid q a clk (clean db) Eb Ex).
  - rewrite delete_session_chats_run. now destruct (fits_int64 sid).
Qed.

Lemma reachable_active_le_one (c : Conn) :
  reachable c -> (active_count (live c) <= 1)%nat.
Proof.
  induction 1 as [clk|op clk c Hr IH].
  - now rewrite (proj2 (Database_inv clk)).
  - destruct (reachable_wf c Hr) as [Hc [Hk _]].
    destruct c as [d l]. cbn in Hc, Hk, IH. subst d.
    now apply (run_op_active_le_one op clk l).
Qed.

Lemma active_le_total (db : DB) : (active_count db <= length (sessions db))%nat.
Proof.
  unfold active_count.
  induction (sessions db) as [|s rows IH]; cbn [filter length]; [lia|].
  destruct (is_active s); cbn [length]; lia.
Qed.

(** X15.  On every store reached from [Database()] by the mutating
    methods, [get_stats] changes nothing.  When the sizes of the files
    add up within the 64-bit integers it returns their sum and reports at
    most one active session, among the sessions it counts; when they do
    not, it raises [OperationalError: integer overflow]. *)
Theorem get_stats_at_most_one_active (c : Conn) (H : reachable c) :
  (forall total,
     add_sizes 0 (known_sizes (files (live c))) = Some total ->
     exists st,
       get_stats c = (Return st, c) /\
       total_size st = total /\
       (active_sessions st <= 1)%nat /\
       (active_sessions st <= total_sessions st)%nat) /\
  (add_sizes 0 (known_sizes (files (live c))) = None ->
   get_stats c = (Raise (OperationalError (lit "integer overflow")), c)).
Proof.
  rewrite get_stats_run.
  assert (Hsame : commit c = c /\ rollback c = c).
  { destruct (reachable_wf c H) as [Hc _]. destruct c as [d l].
    cbn in Hc. subst d. now split. }
  destruct Hsame as [-> ->]. split.
  - intros total ->. eexists. split; [reflexivity|].
    cbn [active_sessions total_sessions total_size].
    split; [reflexivity|]. split.
    + now apply reachable_active_le_one.
    + apply active_le_total.
  - now intros ->.
Qed.
(* ================================================================== *)
(** ** Session ids are not given out twice *)











(* ================================================================== *)
(** ** What clearing all data does to the file system *)





(** X18.  On a database that has its tables, when no step of
    [clear_all_data] other than the deletion of uploaded files fails, it
    returns [True], and [get_stats] then reports one session, which is
    active, and no file, no byte and no chat, whatever the store held
    before. *)
Theorem clear_all_data_then_get_stats
    (flt : Faults) (clk : Clock) (w : World)
    (Hok : fatal flt = false) (Htables : has_tables w = true) :
  exists w',
    clear_all_data flt clk w = (Return true, w') /\
    world_stats w'
    = (Return {| total_sessions := 1; active_sessions := 1;
                 total_files := 0; total_size := 0; total_chats := 0 |},
       w').
Proof.
  destruct (clear_all_data_run flt clk w) as (b & w' & E & Hb & _ & Hfresh).
  rewrite (step_raises_no_fault flt w Hok), Htables in Hb. cbn in Hb. subst b.
  exists w'. split; [exact E|].
  destruct (Hfresh eq_refl) as (Hd & Hc & _).
  unfold world_stats, on_connection, _get_connection. rewrite Hc.
  unfold tables. rewrite Hd, Hc. rewrite get_stats_run.
  cbn [live files known_sizes fresh_store flat_map add_sizes].
  unfold with_tables, linked. rewrite Hd, Hc.
  destruct w' as [d k p o]. cbn in Hd, Hc. now subst.
Qed.
(* ================================================================== *)
(** ** What [clean_text] keeps *)

Lemma visible_after_remove_nul (s : pystr) :
  filter visible (remove_char NUL s) = filter visible s.
Proof.
  unfold remove_char. induction s as [|ch s IH]; [reflexivity|].
  cbn [filter]. unfold visible at 2.
  destruct (N.eqb ch NUL) eqn:E; cbn [negb].
  - rewrite andb_false_r. exact IH.
  - cbn [filter]. unfold visible at 1. rewrite E. cbn [negb].
    destruct (negb (isspace ch) && true); now rewrite IH.
Qed.

Lemma visible_after_sub_runs (cls : N -> bool) (r : N) (b : bool) (s : pystr) :
  (forall ch, cls ch = true -> visible ch = false) -> visible r = false ->
  filter visible (sub_runs cls r b s) = filter visible s.
Proof.
  intros Hcls Hr. revert b. induction s as [|ch s IH]; intros b; [reflexivity|].
  cbn [sub_runs filter]. destruct (cls ch) eqn:E.
  - rewrite (Hcls _ E). destruct b; cbn [filter]; rewrite ?Hr; apply IH.
  - cbn [filter]. destruct (visible ch); now rewrite IH.
Qed.

Lemma visible_after_lstrip (s : pystr) :
  filter visible (lstrip s) = filter visible s.
Proof.
  induction s as [|ch s IH]; [reflexivity|]. cbn [lstrip filter].
  destruct (isspace ch) eqn:E; [|reflexivity].
  unfold visible at 2. rewrite E. exact IH.
Qed.

Lemma visible_rev (s : pystr) : filter visible (rev s) = rev (filter visible s).
Proof.
  induction s as [|ch s IH]; [reflexivity|]. cbn [rev filter].
  rewrite filter_app, IH. cbn [filter].
  destruct (visible ch); [reflexivity | now rewrite app_nil_r].
Qed.

Lemma visible_after_strip (s : pystr) :
  filter visible (strip s) = filter visible s.
Proof.
  unfold strip, rstrip.
  now rewrite visible_rev, visible_after_lstrip, visible_rev, rev_involutive,
    visible_after_lstrip.
Qed.

Lemma space_not_visible (ch : N) : isspace ch = true -> visible ch = false.
Proof. intros H. unfold visible. now rewrite H. Qed.

Lemma sub_runs_shorter (cls : N -> bool) (r : N) (b : bool) (s : pystr) :
  (length (sub_runs cls r b s) <= length s)%nat.
Proof.
  revert b. induction s as [|ch s IH]; intros b; [apply Nat.le_refl|].
  cbn [sub_runs]. destruct (cls ch); [destruct b|]; cbn [length].
  - specialize (IH true). lia.
  - specialize (IH true). lia.
  - specialize (IH false). lia.
Qed.

Lemma lstrip_shorter (s : pystr) : (length (lstrip s) <= length s)%nat.
Proof.
  induction s as [|ch s IH]; [apply Nat.le_refl|]. cbn [lstrip].
  destruct (isspace ch); cbn [length]; lia.
Qed.

Lemma strip_shorter (s : pystr) : (length (strip s) <= length s)%nat.
Proof.
  unfold strip, rstrip. rewrite length_rev.
  etransitivity; [apply lstrip_shorter|]. rewrite length_rev.
  apply lstrip_shorter.
Qed.

Lemma remove_char_shorter (ch : N) (s : pystr) :
  (length (remove_char ch s) <= length s)%nat.
Proof.
  unfold remove_char. induction s as [|x s IH]; [apply Nat.le_refl|].
  cbn [filter]. destruct (negb (N.eqb x ch)); cbn [length]; lia.
Qed.

(** X19.  [clean_text] neither drops, adds nor reorders a character that
    is not whitespace or NUL; it never makes the text longer; and its
    result is empty exactly when the text holds no such character. *)
Theorem clean_text_keeps_visible_characters (s : pystr) :
  filter visible (clean_text s) = filter visible s /\
  (length (clean_text s) <= length s)%nat /\
  (clean_text s = [] <-> filter visible s = []).
Proof.
  assert (Hkeep : filter visible (clean_text s) = filter visible s).
  { destruct s as [|ch s]; [reflexivity|].
    rewrite clean_text_unfold by discriminate. unfold collapsed, re_sub_plus.
    rewrite visible_after_strip, visible_after_sub_runs,
      visible_after_remove_nul;
      [reflexivity | exact space_not_visible | reflexivity]. }
  split; [exact Hkeep|]. split.
  - destruct s as [|ch s]; [apply Nat.le_refl|].
    rewrite clean_text_unfold by discriminate. unfold collapsed, re_sub_plus.
    etransitivity; [apply strip_shorter|].
    etransitivity; [apply sub_runs_shorter|]. apply remove_char_shorter.
  - rewrite <- Hkeep. split; [now intros ->|].
    destruct (clean_text_shape s) as (Hplain & _ & Hlead & _).
    destruct (clean_text s) as [|ch t]; [reflexivity|].
    cbn [filter]. unfold visible at 1.
    rewrite (Hlead ch t eq_refl). inversion Hplain as [|? ? [Hnul _] _]; subst.
    apply N.eqb_neq in Hnul. rewrite Hnul. discriminate.
Qed.

Lemma split_after_sub_runs (b : bool) (word s : pystr) :
  (b = true -> word = []) ->
  split_ws word (sub_runs isspace SPACE b s) = split_ws word s.
Proof.
  revert b word. induction s as [|ch s IH]; intros b word Hb; [reflexivity|].
  cbn [sub_runs split_ws]. destruct (isspace ch) eqn:E.
  - destruct b.
    + rewrite (Hb eq_refl). cbn [truthy]. now apply IH.
    + cbn [split_ws]. change (isspace SPACE) with true. cbn iota.
      now rewrite (IH true []).
  - cbn [split_ws]. rewrite E. apply IH. discriminate.
Qed.

Lemma split_after_lstrip (s : pystr) : split_ws [] (lstrip s) = split_ws [] s.
Proof.
  induction s as [|ch s IH]; [reflexivity|]. cbn [lstrip split_ws].
  destruct (isspace ch) eqn:E; [exact IH|]. cbn [split_ws]. now rewrite E.
Qed.

Lemma split_of_spaces (word spaces : pystr) :
  Forall (fun ch => isspace ch = true) spaces ->
  split_ws word spaces = if truthy word then [word] else [].
Proof.
  intros H. revert word. induction H as [|ch spaces Hch _ IH]; intros word;
    [reflexivity|].
  cbn [split_ws]. rewrite Hch, (IH []). cbn [truthy]. now destruct (truthy word).
Qed.

Lemma split_before_spaces (word s spaces : pystr) :
  Forall (fun ch => isspace ch = true) spaces ->
  split_ws word (s ++ spaces) = split_ws word s.
Proof.
  intros H. revert word. induction s as [|ch s IH]; intros word.
  - cbn [app split_ws]. now apply split_of_spaces.
  - cbn [app split_ws]. now rewrite !IH.
Qed.

Lemma lstrip_drops_spaces (s : pystr) :
  exists spaces, s = spaces ++ lstrip s /\
                 Forall (fun ch => isspace ch = true) spaces.
Proof.
  induction s as [|ch s (spaces & E & H)]; cbn [lstrip].
  - exists []. now split.
  - destruct (isspace ch) eqn:Ech.
    + exists (ch :: spaces). split; [cbn [app]; now f_equal | now constructor].
    + exists []. now split.
Qed.

Lemma split_after_rstrip (word s : pystr) :
  split_ws word (rstrip s) = split_ws word s.
Proof.
  unfold rstrip. destruct (lstrip_drops_spaces (rev s)) as (spaces & E & H).
  remember (rev (lstrip (rev s))) as kept eqn:Ek.
  assert (Hs : s = kept ++ rev spaces).
  { subst kept. rewrite <- rev_app_distr, <- E. symmetry. apply rev_involutive. }
  rewrite Hs. symmetry. apply split_before_spaces. now apply Forall_rev.
Qed.

Lemma no_trailing_tail (ch : N) (s : pystr) :
  no_trailing_ws (ch :: s) -> no_trailing_ws s.
Proof. intros H x t ->. exact (H x (ch :: t) eq_refl). Qed.

Lemma join_of_split (word s : pystr) :
  plain s -> no_adjacent_ws s -> no_trailing_ws s ->
  (word = [] -> no_leading_ws s) ->
  join [SPACE] (split_ws word s) = word ++ s.
Proof.
  intros Hplain. revert word.
  induction Hplain as [|ch s [_ Hch] _ IH]; intros word Hadj Htrail Hlead.
  - cbn [split_ws]. rewrite app_nil_r. now destruct word.
  - apply no_adjacent_cons in Hadj. destruct Hadj as [Hnext Hadj].
    pose proof (no_trailing_tail _ _ Htrail) as Htrail'.
    cbn [split_ws]. destruct (isspace ch) eqn:E.
    + destruct word as [|x word].
      { specialize (Hlead eq_refl ch s eq_refl). congruence. }
      cbn [truthy]. specialize (IH [] Hadj Htrail' (fun _ => Hnext eq_refl)).
      cbn [app] in IH. destruct s as [|y s].
      { specialize (Htrail ch [] eq_refl). congruence. }
      destruct (split_ws [] (y :: s)) as [|w1 ws] eqn:Es.
      { cbn [join] in IH. discriminate. }
      cbn [join]. cbn [join] in IH. rewrite (Hch eq_refl).
      change (join [SPACE] (w1 :: ws)) with
        (match ws with [] => w1 | _ :: _ => w1 ++ [SPACE] ++ join [SPACE] ws end)
        in IH.
      cbn [app]. f_equal. f_equal.
      destruct ws; cbn [join app]; now rewrite <- IH.
    + rewrite IH; [now rewrite <- app_assoc | exact Hadj | exact Htrail'|].
      intros H. now destruct word.
Qed.

(** X26.  [clean_text(s)] is [" ".join(s.replace(NUL, "").split())]: the
    words of the text without its NUL characters, each pair of
    neighbours joined by one space. *)
Theorem clean_text_is_join_of_split (s : pystr) :
  clean_text s = join [SPACE] (py_split (remove_char NUL s)).
Proof.
  destruct s as [|ch s]; [reflexivity|].
  destruct (clean_text_shape (ch :: s)) as (Hplain & Hadj & Hlead & Htrail).
  transitivity (join [SPACE] (split_ws [] (clean_text (ch :: s)))).
  { symmetry.
    exact (join_of_split [] (clean_text (ch :: s)) Hplain Hadj Htrail
             (fun _ => Hlead)). }
  f_equal. rewrite clean_text_unfold by discriminate.
  unfold collapsed, re_sub_plus, strip, py_split.
  rewrite split_after_rstrip, split_after_lstrip.
  apply split_after_sub_runs. discriminate.
Qed.

(* ================================================================== *)
(** ** Reading a PDF page by page *)

Lemma pdf_pages_text_all (text : pystr) (texts : list (option pystr)) :
  pdf_pages_text text (map Return texts)
  = Return (text ++ concat (map page_text texts)).
Proof.
  revert text. induction texts as [|p texts IH]; intros text; cbn.
  - now rewrite app_nil_r.
  - destruct p as [t|]; rewrite IH, <- app_assoc; [|reflexivity].
    now destruct t.
Qed.

Lemma pdf_pages_text_fails (text : pystr) (before : list (option pystr))
    (e : exn) (after : list (outcome (option pystr))) :
  pdf_pages_text text (map Return before ++ Raise e :: after) = Raise e.
Proof.
  revert text. induction before as [|p before IH]; intros text; [reflexivity|].
  cbn. destruct p as [t|]; apply IH.
Qed.

(** X20.  [extract_pdf] puts the texts of the pages one after the other
    with nothing between them (a page without text counts as empty) and
    cleans the whole; when a page fails, the texts of the pages before
    it are dropped and the result is the error message alone. *)
Theorem extract_pdf_concatenates_pages (rd : Readers) (file_path : pystr) :
  (forall texts,
     PdfReader rd file_path = Return (map Return texts) ->
     extract_pdf rd file_path
     = Return (clean_text (concat (map page_text texts)))) /\
  (forall before e after,
     PdfReader rd file_path = Return (map Return before ++ Raise e :: after) ->
     extract_pdf rd file_path
     = Return (lit "Error reading PDF: " ++ str_exn e)).
Proof.
  split.
  - intros texts H. rewrite extract_pdf_returns, H.
    now rewrite pdf_pages_text_all.
  - intros before e after H. rewrite extract_pdf_returns, H.
    now rewrite pdf_pages_text_fails.
Qed.

(* ================================================================== *)
(** ** The prompt *)

(** X21.  [study_prompt] joins the material and the question with fixed
    text and escapes neither: a material that holds the question banner
    gives the very prompt of a shorter material with a longer, different
    question. *)
Theorem study_prompt_does_not_separate (a b q : pystr) :
  study_prompt (a ++ prompt_middle ++ b) q
  = study_prompt a (b ++ prompt_middle ++ q) /\
  q <> b ++ prompt_middle ++ q.
Proof.
  split.
  - unfold study_prompt. now rewrite <- !app_assoc.
  - intros H. apply (f_equal (@length N)) in H.
    rewrite !length_app in H. cbn in H. lia.
Qed.

(* ================================================================== *)
(** ** Uploads *)

Lemma extraction_returns (rd : Readers) (file_path file_type : pystr) :
  exists text, extract_text_from_file rd file_path file_type = Return text.
Proof.
  unfold extract_text_from_file.
  rewrite extract_pdf_returns, extract_txt_returns, extract_docx_returns.
  repeat match goal with
         | |- context [if ?b then _ else _] => destruct b
         end; eexists; reflexivity.
Qed.

(** A method on a database whose tables the connection sees. *)
Lemma on_connection_tables {A : Type} (table : pystr) (m : M A)
    (w : World) (c : Conn) :
  tables (_get_connection w) = Some c ->
  on_connection table m w
  = (fst (m c), with_tables (_get_connection w) (snd (m c))).
Proof.
  intros H. unfold on_connection. rewrite H. now destruct (m c).
Qed.

Lemma get_connection_open (w : World) : connection (_get_connection w) <> None.
Proof.
  unfold _get_connection. destruct (connection w) eqn:E; cbn; congruence.
Qed.

Lemma get_connection_again (w : World) :
  connection w <> None -> _get_connection w = w.
Proof.
  unfold _get_connection. now destruct (connection w).
Qed.

(** Once a method has left the connection with nothing uncommitted, the
    connection sees what it left, and so does the file when the
    connection is on it. *)
Lemma with_tables_settled (w : World) (db : DB) :
  connection w <> None ->
  connection (with_tables w (clean db)) = Some (Tables db) /\
  tables (with_tables w (clean db)) = Some (clean db) /\
  linked (with_tables w (clean db)) = linked w /\
  (linked w = true -> db_file (with_tables w (clean db)) = Some (Tables db)).
Proof.
  intros Hopen. unfold with_tables, tables, linked.
  cbn [connection db_file committed live clean].
  destruct (connection w) as [[|l]|]; [| |congruence];
    destruct (db_file w) as [[|d]|]; cbn; repeat split; congruence.
Qed.

Lemma active_stays_after_touch (id : Z) (now : timestamp) (db : DB)
    (s : Session) :
  In s (sessions db) -> is_active s = true ->
  exists s', In s' (sessions (snd (sql_touch_session id now db))) /\
             s_id s' = s_id s /\ is_active s' = true.
Proof.
  intros Hs Ha. cbn [snd sql_touch_session sessions with_sessions].
  exists (if (s_id s =? id)%Z then set_last_accessed now s else s).
  split; [|now destruct (s_id s =? id)%Z].
  apply in_map_iff. now exists s.
Qed.

Lemma save_uploaded_file_run (up : UploadedFile) (stamp : pystr) (w : World) :
  exists ps',
    save_uploaded_file up stamp None w
    = (Return {| sf_filename := stamp ++ lit "_"
                                ++ spaces_to_underscores (up_name up);
                 sf_original_name := up_name up;
                 sf_file_path := upload_path up stamp;
                 sf_file_size := Z.of_nat (length (up_buffer up));
                 sf_file_type := declared_or_extension up |},
       {| db_file := db_file w; connection := connection w; paths := ps';
          stdout := stdout w |}) /\
    In (upload_path up stamp) ps' /\
    (forall p, In p (paths w) -> In p ps').
Proof.
  unfold save_uploaded_file, write_file, faulty, bind, ret.
  fold (upload_path up stamp). set (path := upload_path up stamp).
  eexists. split; [reflexivity|].
  destruct (existsb (pystr_eqb path) (paths w)) eqn:E.
  - split; [|auto]. apply existsb_exists in E. destruct E as (q & Hq & E).
    apply pystr_eqb_eq in E. now subst q.
  - split; [apply in_or_app; right; now left|].
    intros p Hp. apply in_or_app. now left.
Qed.

(** The session of an upload is a session of the store once
    [process_file_upload] has looked for it, and is active. *)
Lemma upload_session_active (clk : Clock) (db : DB) :
  exists s,
    In s (sessions (match sql_select_active db with
                    | Some _ => db
                    | None =>
                        snd (sql_insert_session (name_or_default None clk)
                               true clk (snd (sql_deactivate_all db)))
                    end)) /\
    s_id s = upload_session clk db /\ is_active s = true.
Proof.
  unfold upload_session. destruct (sql_select_active db) as [s|] eqn:E.
  - apply find_some in E. exists s. now repeat split.
  - eexists. split; [|split].
    + cbn [snd sql_insert_session sessions with_sessions].
      apply in_or_app. right. left. reflexivity.
    + reflexivity.
    + reflexivity.
Qed.

(** X22.  On a database whose tables the connection sees, when the file
    can be written and SQLite binds the parameters (the dated name of a
    session to create, and the row of the file with the text [text] that
    [extract_text_from_file] returns for the path written),
    [process_file_upload] returns: the file row it adds is the last of
    the files table, belongs to the session that was active, or to a new
    one when none was, which is active afterwards; it names the path
    written under the upload directory and holds [text] as content.  The
    connection sees that row, and so does the database file when the
    connection is on it.  The type is one that the browser declared or
    the extension of a name whose extension is ASCII. *)
Theorem process_file_upload_lands_in_active_session
    (rd : Readers) (up : UploadedFile) (stamp : pystr) (clk clk' : Clock)
    (w : World) (c : Conn) (text : pystr)
    (Htables : tables (_get_connection w) = Some c)
    (Htype : type_declared_or_ascii up = true)
    (Htext : extract_text_from_file rd (upload_path up stamp)
               (declared_or_extension up) = Return text)
    (Hname : sql_select_active (live c) = None ->
             bind_parameters [PText (name_or_default None clk); PInt 1]
             = None)
    (Hbind : bind_parameters
               (file_parameters (upload_session clk (live c)) (up_name up)
                  (upload_path up stamp)
                  (Some (Z.of_nat (length (up_buffer up))))
                  (Some text) (Some (declared_or_extension up)))
             = None) :
  exists r w' db',
    process_file_upload rd up stamp clk clk' None w = (Return r, w') /\
    connection w' = Some (Tables db') /\
    (linked (_get_connection w) = true -> db_file w' = Some (Tables db')) /\
    stored_upload up stamp clk' r db' /\
    ur_session_id r = upload_session clk (live c) /\
    (exists s, In s (sessions db') /\ s_id s = ur_session_id r /\
               is_active s = true) /\
    ur_content r = text /\
    In (upload_path up stamp) (paths w') /\
    ur_filename r = up_name up.
Proof.
  pose proof (get_connection_open w) as Hopen.
  set (w1 := _get_connection w) in *.
  set (id := upload_session clk (live c)) in *.
  (* the rest, from a world settled on a store with the session *)
  assert (Hgo : forall (db : DB) (w3 : World) (s : Session),
             In s (sessions db) -> s_id s = id -> is_active s = true ->
             connection w3 = Some (Tables db) ->
             tables w3 = Some (clean db) ->
             linked w3 = linked w1 ->
             exists r w' db',
               (file_info <- save_uploaded_file up stamp None ;;
                extracted_text <- of_outcome
                  (extract_text_from_file rd (sf_file_path file_info)
                     (sf_file_type file_info)) ;;
                file_id <- on_connection (lit "files")
                  (add_file id (sf_original_name file_info)
                     (sf_file_path file_info)
                     (Some (sf_file_size file_info))
                     (Some extracted_text)
                     (Some (sf_file_type file_info)) clk') ;;
                ret {| ur_file_id := file_id; ur_session_id := id;
                       ur_filename := sf_original_name file_info;
                       ur_content := extracted_text |}) w3
               = (Return r, w') /\
               connection w' = Some (Tables db') /\
               (linked w1 = true -> db_file w' = Some (Tables db')) /\
               stored_upload up stamp clk' r db' /\
               ur_session_id r = id /\
               (exists s', In s' (sessions db') /\ s_id s' = ur_session_id r /\
                           is_active s' = true) /\
               ur_content r = text /\
               In (upload_path up stamp) (paths w') /\
               ur_filename r = up_name up).
  { intros db w3 s Hs Hid Hact Hconn Htab Hlink.
    destruct (save_uploaded_file_run up stamp w3) as (ps' & Esave & Hpath & _).
    rewrite (bind_return _ _ _ _ _ Esave).
    cbn [sf_file_path sf_file_type sf_original_name sf_file_size].
    set (w4 := {| db_file := db_file w3; connection := connection w3;
                  paths := ps'; stdout := stdout w3 |}).
    assert (Eext : of_outcome
                     (extract_text_from_file rd (upload_path up stamp)
                        (declared_or_extension up)) w4
                   = (Return text, w4)).
    { unfold of_outcome. now rewrite Htext. }
    rewrite (bind_return _ _ _ _ _ Eext).
    assert (Hex : session_exists id (live (clean db)) = true).
    { apply session_exists_in. cbn [live clean]. rewrite <- Hid.
      now apply in_map. }
    assert (Hopen4 : connection w4 <> None).
    { unfold w4. cbn [connection]. congruence. }
    assert (Htab4 : tables (_get_connection w4) = Some (clean db)).
    { rewrite (get_connection_again w4 Hopen4). exact Htab. }
    unfold bind at 1.
    rewrite (on_connection_tables _ _ w4 (clean db) Htab4).
    rewrite (get_connection_again w4 Hopen4).
    rewrite (add_file_run _ _ _ _ _ _ clk' (clean db) Hex Hbind).
    cbn [fst snd]. unfold ret.
    match goal with
    | |- context [with_tables w4 (clean ?d)] =>
        destruct (with_tables_settled w4 d Hopen4) as (Hc' & _ & _ & Hf');
        exists {| ur_file_id := next_file_id (live (clean db));
                  ur_session_id := id; ur_filename := up_name up;
                  ur_content := text |},
               (with_tables w4 (clean d)), d
    end.
    split; [reflexivity|]. split; [exact Hc'|]. split.
    { intros Hl. apply Hf'. rewrite <- Hl, <- Hlink. reflexivity. }
    cbn [ur_file_id ur_session_id ur_filename ur_content].
    split.
    { eexists. cbn [files snd sql_touch_session with_sessions with_files live
                    clean].
      reflexivity. }
    split; [reflexivity|]. split.
    { destruct (active_stays_after_touch id (update_timestamp clk')
                  (with_files db
                     (files db
                      ++ [{| f_id := next_file_id db;
                             f_session_id := id; filename := up_name up;
                             filepath := upload_path up stamp;
                             filesize := Some (Z.of_nat (length (up_buffer up)));
                             content_text := Some text;
                             upload_time := current_timestamp clk';
                             file_type := Some (declared_or_extension up) |}])
                     (next_file_id db))
                  s Hs Hact) as (s' & Hs' & Hid' & Hact').
      exists s'. split; [exact Hs'|]. split; [congruence | exact Hact']. }
    split; [reflexivity|]. split; [exact Hpath | reflexivity]. }
  (* the active session, read or created *)
  unfold process_file_upload.
  rewrite (bind_return _ _ _ _ _
             (on_connection_tables (lit "sessions") get_active_session w c
                Htables)).
  fold w1. unfold get_active_session at 1, get_cursor at 1, query at 1.
  cbn [fst snd]. fold (clean (live c)).
  destruct (with_tables_settled w1 (live c) Hopen) as (Hc2 & Ht2 & Hl2 & _).
  pose proof (upload_session_active clk (live c)) as Hsession. fold id in Hsession.
  destruct (sql_select_active (live c)) as [s0|] eqn:Eactive.
  - unfold bind at 1. unfold ret at 1.
    destruct Hsession as (s & Hs & Hid & Hact).
    replace (s_id s0) with id
      by (unfold id, upload_session; now rewrite Eactive).
    exact (Hgo (live c) _ s Hs Hid Hact Hc2 Ht2 Hl2).
  - assert (Hopen2 : connection (with_tables w1 (clean (live c))) <> None)
      by congruence.
    assert (Ht2' : tables (_get_connection (with_tables w1 (clean (live c))))
                   = Some (clean (live c))).
    { now rewrite (get_connection_again _ Hopen2). }
    unfold bind at 1.
    rewrite (on_connection_tables _ _ _ _ Ht2'), create_session_run.
    rewrite (Hname eq_refl). cbn [fst snd live clean].
    rewrite (get_connection_again _ Hopen2).
    match goal with
    | |- context [with_tables _ (clean ?d)] => set (db1 := d) in *
    end.
    destruct (with_tables_settled (with_tables w1 (clean (live c))) db1 Hopen2)
      as (Hc3 & Ht3 & Hl3 & _).
    destruct Hsession as (s & Hs & Hid & Hact).
    replace (fst (sql_insert_session (name_or_default None clk) true clk
                    (snd (sql_deactivate_all (live c))))) with id
      by (unfold id, upload_session; now rewrite Eactive).
    refine (Hgo db1 _ s Hs Hid Hact Hc3 Ht3 _). congruence.
Qed.

Lemma spaces_to_underscores_twice (s : pystr) :
  spaces_to_underscores (spaces_to_underscores s) = spaces_to_underscores s.
Proof.
  unfold spaces_to_underscores. rewrite map_map. apply map_ext.
  intros ch. destruct (N.eqb ch SPACE) eqn:E; [reflexivity | now rewrite E].
Qed.

(** X23.  [save_uploaded_file] writes under [data/uploads/] (for a stamp
    that does not start with a slash, as a date does not), and the path
    depends on the name only up to its spaces: a second upload under the
    same stamp whose name differs in spaces against underscores only is
    written over the first one's file, and no new path appears. *)
Theorem save_uploaded_file_same_path_up_to_spaces
    (up up' : UploadedFile) (stamp : pystr) (w : World)
    (Hstamp : startswith stamp [SLASH] = false)
    (Hnames : spaces_to_underscores (up_name up)
              = spaces_to_underscores (up_name up')) :
  exists i w1 i' w2,
    save_uploaded_file up stamp None w = (Return i, w1) /\
    save_uploaded_file up' stamp None w1 = (Return i', w2) /\
    sf_file_path i
    = lit "data/uploads/" ++ stamp ++ lit "_"
      ++ spaces_to_underscores (up_name up) /\
    sf_file_path i' = sf_file_path i /\
    In (sf_file_path i) (paths w1) /\
    paths w2 = paths w1 /\
    sf_original_name i = up_name up /\ sf_original_name i' = up_name up'.
Proof.
  assert (Hjoin : forall n, os_path_join UPLOAD_DIR (stamp ++ lit "_" ++ n)
                            = lit "data/uploads/" ++ stamp ++ lit "_" ++ n).
  { intros n. unfold os_path_join.
    assert (E : startswith (stamp ++ lit "_" ++ n) [SLASH] = false).
    { destruct stamp as [|ch stamp]; [reflexivity|].
      cbn [app startswith] in *.
      assert (Hnil : forall t, startswith t [] = true) by (now intros [|? ?]).
      rewrite Hnil in *. exact Hstamp. }
    now rewrite E. }
  set (path := lit "data/uploads/" ++ stamp ++ lit "_"
               ++ spaces_to_underscores (up_name up)).
  set (ps1 := if existsb (pystr_eqb path) (paths w)
              then paths w else paths w ++ [path]).
  assert (Hin : In path ps1).
  { unfold ps1. destruct (existsb (pystr_eqb path) (paths w)) eqn:E.
    - apply existsb_exists in E. destruct E as (q & Hq & E).
      apply pystr_eqb_eq in E. now subst q.
    - apply in_or_app. right. now left. }
  assert (Hthere : existsb (pystr_eqb path) ps1 = true).
  { apply existsb_exists. exists path. split; [exact Hin|].
    apply pystr_eqb_refl. }
  assert (E1 : save_uploaded_file up stamp None w
               = (Return {| sf_filename := stamp ++ lit "_"
                              ++ spaces_to_underscores (up_name up);
                            sf_original_name := up_name up;
                            sf_file_path := path;
                            sf_file_size := Z.of_nat (length (up_buffer up));
                            sf_file_type := declared_or_extension up |},
                  {| db_file := db_file w; connection := connection w;
                     paths := ps1; stdout := stdout w |})).
  { unfold save_uploaded_file, write_file, faulty, bind, ret.
    rewrite Hjoin. reflexivity. }
  assert (E2 : save_uploaded_file up' stamp None
                 {| db_file := db_file w; connection := connection w;
                    paths := ps1; stdout := stdout w |}
               = (Return {| sf_filename := stamp ++ lit "_"
                              ++ spaces_to_underscores (up_name up');
                            sf_original_name := up_name up';
                            sf_file_path := path;
                            sf_file_size := Z.of_nat (length (up_buffer up'));
                            sf_file_type := declared_or_extension up' |},
                  {| db_file := db_file w; connection := connection w;
                     paths := ps1; stdout := stdout w |})).
  { unfold save_uploaded_file, write_file, faulty, bind, ret.
    rewrite Hjoin, <- Hnames. fold path. cbn [paths]. rewrite Hthere.
    reflexivity. }
  do 4 eexists. split; [exact E1|]. split; [exact E2|].
  cbn [sf_file_path sf_original_name paths]. now repeat split.
Qed.

(* ================================================================== *)
(** ** Counts that add up *)

Lemma total_pointwise_sum {A : Type} (f g : A -> nat) (rows : list A) :
  total (map (fun x => (f x + g x)%nat) rows)
  = (total (map f rows) + total (map g rows))%nat.
Proof.
  unfold total. induction rows as [|x rows IH]; [reflexivity|].
  cbn [map fold_right]. rewrite IH. lia.
Qed.

Lemma total_of_indicator (id : Z) (rows : list Session) :
  total (map (fun s => if (id =? s_id s)%Z then 1%nat else 0%nat) rows)
  = length (filter (fun s => s_id s =? id)%Z rows).
Proof.
  unfold total. induction rows as [|s rows IH]; [reflexivity|].
  cbn [map fold_right filter]. rewrite IH, (Z.eqb_sym id).
  now destruct (s_id s =? id)%Z.
Qed.

Lemma Permutation_total (a b : list nat) :
  Permutation a b -> total a = total b.
Proof.
  unfold total. induction 1; cbn [fold_right]; lia.
Qed.

Lemma counts_add_up {R : Type} (owner : R -> Z) (db : DB) (rows : list R) :
  NoDup (map s_id (sessions db)) ->
  Forall (fun r => In (owner r) (map s_id (sessions db))) rows ->
  total (map (fun s => length (filter (fun r => owner r =? s_id s)%Z rows))
             (sessions db))
  = length rows.
Proof.
  intros Hnd. induction 1 as [|r rows Hr _ IH].
  - unfold total. cbn [filter length]. clear Hnd.
    induction (sessions db) as [|s l IHl]; [reflexivity | exact IHl].
  - cbn [length]. rewrite <- IH.
    rewrite (map_ext _ (fun s =>
               ((if (owner r =? s_id s)%Z then 1 else 0)
                + length (filter (fun r0 => owner r0 =? s_id s)%Z rows))%nat)).
    + rewrite total_pointwise_sum, total_of_indicator.
      apply session_exists_in in Hr.
      now rewrite (rows_with_id_one _ _ Hnd Hr).
    + intros s. cbn [filter]. now destruct (owner r =? s_id s)%Z.
Qed.

(** X24.  On a store that keeps the schema's keys,
    [get_all_sessions(-1)] lists every session, and the file counts and
    the chat counts it lists add up to the numbers of files and of chats
    of the store, which are the totals that [get_stats] reports when the
    sizes of the files add up within the 64-bit integers; when they do
    not, [get_stats] raises [OperationalError: integer overflow]. *)
Theorem session_counts_add_up_to_stats (c : Conn) (Hwf : wf (live c)) :
  exists infos,
    fst (get_all_sessions (-1) c) = Return infos /\
    length infos = length (sessions (live c)) /\
    total (map file_count infos) = length (files (live c)) /\
    total (map chat_count infos) = length (chats (live c)) /\
    (forall sum,
       add_sizes 0 (known_sizes (files (live c))) = Some sum ->
       exists st,
         fst (get_stats c) = Return st /\
         total_size st = sum /\
         length infos = total_sessions st /\
         total (map file_count infos) = total_files st /\
         total (map chat_count infos) = total_chats st) /\
    (add_sizes 0 (known_sizes (files (live c))) = None ->
     fst (get_stats c) = Raise (OperationalError (lit "integer overflow"))).
Proof.
  destruct Hwf as ([Hnd _] & _ & _ & Hfk & Hck).
  rewrite get_stats_run, get_all_sessions_run.
  change (fits_int64 (-1)) with true. cbn iota.
  eexists. split; [reflexivity|].
  unfold sql_select_sessions, limit_rows. cbn [Z.ltb Z.compare].
  pose proof (order_by_same_rows _
                (desc (fun row : Session * nat * nat =>
                         last_accessed (fst (fst row))))
                (map (session_row (live c)) (sessions (live c)))) as Hp.
  assert (H1 : length
                 (map session_info
                    (order_by
                       (desc (fun row : Session * nat * nat =>
                                last_accessed (fst (fst row))))
                       (map (session_row (live c)) (sessions (live c)))))
               = length (sessions (live c))).
  { rewrite length_map, (Permutation_length Hp). apply length_map. }
  assert (H2 : total
                 (map file_count
                    (map session_info
                       (order_by
                          (desc (fun row : Session * nat * nat =>
                                   last_accessed (fst (fst row))))
                          (map (session_row (live c)) (sessions (live c))))))
               = length (files (live c))).
  { rewrite map_map.
    erewrite (Permutation_total _ _); [|apply Permutation_map, Hp].
    rewrite map_map. cbn.
    exact (counts_add_up f_session_id (live c) (files (live c)) Hnd Hfk). }
  assert (H3 : total
                 (map chat_count
                    (map session_info
                       (order_by
                          (desc (fun row : Session * nat * nat =>
                                   last_accessed (fst (fst row))))
                          (map (session_row (live c)) (sessions (live c))))))
               = length (chats (live c))).
  { rewrite map_map.
    erewrite (Permutation_total _ _); [|apply Permutation_map, Hp].
    rewrite map_map. cbn.
    exact (counts_add_up c_session_id (live c) (chats (live c)) Hnd Hck). }
  split; [exact H1|]. split; [exact H2|]. split; [exact H3|]. split.
  - intros sum ->. eexists. split; [reflexivity|].
    cbn [total_size total_sessions total_files total_chats].
    now repeat split.
  - now intros ->.
Qed.

(* ================================================================== *)
(** ** What is left of a deleted session *)

Lemma files_none_left (id : Z) (rows : list File) :
  filter (fun f => f_session_id f =? id)%Z
         (filter (fun f => negb (f_session_id f =? id)%Z) rows) = [].
Proof.
  induction rows as [|f rows IH]; [reflexivity|]. cbn [filter].
  destruct (f_session_id f =? id)%Z eqn:E; cbn [negb filter];
    [exact IH | now rewrite E].
Qed.

Lemma session_texts_none_left (id : Z) (db : DB) :
  filter (fun f => f_session_id f =? id)%Z (files db) = [] ->
  session_texts id db = [].
Proof.
  unfold session_texts. induction (files db) as [|f rows IH]; [reflexivity|].
  cbn [filter flat_map]. destruct (f_session_id f =? id)%Z; [discriminate|].
  exact IH.
Qed.

(** X25.  Once [delete_session(id)] has returned [True], nothing is
    listed for the id: [get_session_files] returns the empty list,
    [get_session_content] the empty string, and [get_session_chats] the
    empty list for every limit that SQLite binds (it raises
    [OverflowError] for any other).  The id, which was the rowid of a
    session, is taken to be a 64-bit integer. *)
Theorem deleted_session_lists_nothing
    (id limit : Z) (clk : Clock) (c : Conn)
    (Hin : session_exists id (live c) = true)
    (Hfits : fits_int64 id = true) :
  exists c1,
    delete_session id clk c = (Return true, c1) /\
    get_session_files id c1 = (Return [], c1) /\
    get_session_chats id limit c1
    = (if fits_int64 limit then Return []
       else Raise (OverflowError
                     (lit "Python int too large to convert to SQLite INTEGER")),
       c1) /\
    get_session_content id c1 = (Return [], c1).
Proof.
  rewrite delete_session_run, Hin. eexists. split; [reflexivity|].
  destruct (ensured_tables clk (snd (sql_delete_session id (live c))))
    as (Hf & Hc & _).
  pose proof (delete_session_present _ _ Hin) as Hd.
  assert (Hf' : filter (fun f => f_session_id f =? id)%Z
                  (files (ensured clk (snd (sql_delete_session id (live c)))))
                = []).
  { rewrite Hf, Hd. apply files_none_left. }
  assert (Hc' : filter (fun x => c_session_id x =? id)%Z
                  (chats (ensured clk (snd (sql_delete_session id (live c)))))
                = []).
  { rewrite Hc, Hd. apply filter_none_left. }
  rewrite get_session_files_run, get_session_chats_run,
    get_session_content_run, Hfits.
  unfold sql_select_session_files, sql_select_session_chats.
  cbn [live clean commit andb].
  rewrite (session_texts_none_left id _ Hf'), Hf', Hc'.
  unfold limit_rows. cbn [order_by fold_right map].
  destruct (fits_int64 limit); [|now repeat split].
  destruct (limit <? 0)%Z; [now repeat split|].
  rewrite firstn_nil. now repeat split.
Qed.
(* ================================================================== *)
(** ** Instances of the further theorems that carry hypotheses *)

Lemma one_upload_reachable : reachable one_upload.
Proof.
  exact (reach_step (OpAddFile 1 (lit "notes.txt")
                       (lit "data/uploads/notes.txt") (Some 5%Z)
                       (Some (lit "hello")) (Some (lit "text/plain")))
                    clk1 (Database clk0) (reach_init clk0)).
Qed.

Lemma one_chat_reachable : reachable one_chat.
Proof.
  exact (reach_step (OpAddChat 1 (lit "What color is the sky?") (lit "Blue."))
                    clk1 (Database clk0) (reach_init clk0)).
Qed.

Lemma one_chat_wf : wf (live one_chat).
Proof. exact (proj2 (reachable_wf one_chat one_chat_reachable)). Qed.

Lemma get_all_chats_instance :
  exists shown hidden : list (Chat * Session),
    get_all_chats 10 one_chat
    = (Return (map chat_with_session shown), commit one_chat) /\
    Permutation (map fst (shown ++ hidden)) (chats (live one_chat)) /\
    length shown = 1%nat.
Proof.
  destruct (get_all_chats_one_row_per_chat 10 one_chat one_chat_wf)
    as [H _].
  destruct (H eq_refl) as (shown & hidden & H1 & H2 & _ & H3 & _).
  exists shown, hidden. split; [exact H1|]. split; [exact H2 | exact H3].
Defined.

Lemma add_file_then_get_file_content_instance :
  exists id c1,
    add_file 1 (lit "notes.txt") (lit "data/uploads/notes.txt") (Some 5%Z)
      (Some (lit "hello")) None clk1 (Database clk0) = (Return id, c1) /\
    id = 1%Z /\
    get_file_content id c1 = (Return (Some (lit "hello")), c1).
Proof.
  destruct (add_file_then_get_file_content 1 (lit "notes.txt")
              (lit "data/uploads/notes.txt") (Some 5%Z) (Some (lit "hello"))
              None clk1 (Database clk0) eq_refl eq_refl eq_refl)
    as (id & c1 & H1 & H2 & _ & H3).
  exists id, c1. split; [exact H1|]. split; [exact H2 | exact H3].
Defined.

Lemma add_file_then_delete_file_instance :
  exists id c1 c2,
    add_file 1 (lit "notes.txt") (lit "data/uploads/notes.txt") (Some 5%Z)
      (Some (lit "hello")) None clk1 (Database clk0) = (Return id, c1) /\
    delete_file id c1 = (Return true, c2) /\
    files (live c2) = [].
Proof.
  destruct (add_file_then_delete_file 1 (lit "notes.txt")
              (lit "data/uploads/notes.txt") (Some 5%Z) (Some (lit "hello"))
              None clk1 (Database clk0) eq_refl eq_refl eq_refl)
    as (id & c1 & c2 & _ & _ & H1 & H2 & H3 & _).
  exists id, c1, c2. split; [exact H1|]. split; [exact H2 | exact H3].
Defined.

Lemma two_is_not_one : 2%Z <> 1%Z.
Proof. discriminate. Qed.

Lemma add_file_then_get_session_content_instance :
  exists id c1 texts,
    add_file 1 (lit "notes.txt") (lit "data/uploads/notes.txt") (Some 5%Z)
      (Some (lit "hello")) None clk1 (Database clk0) = (Return id, c1) /\
    Permutation texts [lit "hello"] /\
    get_session_content 1 c1 = (Return (join [10; 10]%N texts), c1) /\
    get_session_content 2 c1 = (Return [], c1).
Proof.
  destruct (add_file_then_get_session_content 1 2 (lit "notes.txt")
              (lit "data/uploads/notes.txt") (Some 5%Z) (Some (lit "hello"))
              None clk1 (Database clk0) eq_refl eq_refl two_is_not_one eq_refl)
    as (id & c1 & texts & H1 & H2 & H3 & H4).
  exists id, c1, texts. split; [exact H1|]. split; [exact H2|].
  split; [exact H3 | exact H4].
Defined.

Lemma deleted_session_takes_no_rows_instance :
  exists c1,
    delete_session 1 clk1 (Database clk0) = (Return true, c1) /\
    add_chat 1 (lit "q") (lit "a") clk1 c1
    = (Raise (IntegrityError (lit "FOREIGN KEY constraint failed")), c1) /\
    delete_session 1 clk1 c1 = (Return false, c1).
Proof.
  destruct (deleted_session_takes_no_rows 1 (lit "n") (lit "p") None None None
              (lit "q") (lit "a") clk1 clk1 (Database clk0)
              Database_keys_ok eq_refl eq_refl)
    as (c1 & H1 & _ & H2 & H3).
  exists c1. split; [exact H1|]. split; [exact H2 | exact H3].
Defined.

Lemma add_file_then_get_stats_instance :
  exists id c1 before after,
    add_file 1 (lit "notes.txt") (lit "data/uploads/notes.txt") (Some 5%Z)
      (Some (lit "hello")) None clk1 (Database clk0) = (Return id, c1) /\
    fst (get_stats (Database clk0)) = Return before /\
    get_stats c1 = (Return after, c1) /\
    total_files after = S (total_files before) /\ total_size after = 5%Z.
Proof.
  destruct (add_file_then_get_stats 1 (lit "notes.txt")
              (lit "data/uploads/notes.txt") (Some 5%Z) (Some (lit "hello"))
              None clk1 (Database clk0) eq_refl eq_refl)
    as (id & c1 & H1 & Hsum & _).
  destruct (Hsum 5%Z eq_refl)
    as (before & after & H2 & H3 & _ & H4 & H5 & _).
  exists id, c1, before, after. split; [exact H1|]. split; [exact H2|].
  split; [exact H3|]. split; [exact H5 | exact H4].
Defined.

Lemma reachable_store_keeps_schema_keys_instance :
  committed one_upload = live one_upload /\
  NoDup (map f_id (files (live one_upload))).
Proof.
  destruct (reachable_store_keeps_schema_keys one_upload one_upload_reachable)
    as (H1 & _ & H2 & _).
  split; [exact H1 | exact H2].
Defined.

Lemma get_stats_at_most_one_active_instance :
  exists st,
    get_stats one_upload = (Return st, one_upload) /\
    total_size st = 5%Z /\
    (active_sessions st <= 1)%nat.
Proof.
  destruct (get_stats_at_most_one_active one_upload one_upload_reachable)
    as [H _].
  destruct (H 5%Z eq_refl) as (st & H1 & H2 & H3 & _).
  exists st. split; [exact H1|]. split; [exact H2 | exact H3].
Defined.


Lemma clear_all_data_then_get_stats_instance :
  exists w',
    clear_all_data no_faults clk1 started_world = (Return true, w') /\
    world_stats w'
    = (Return {| total_sessions := 1; active_sessions := 1;
                 total_files := 0; total_size := 0; total_chats := 0 |},
       w').
Proof.
  exact (clear_all_data_then_get_stats no_faults clk1 started_world
           eq_refl eq_refl).
Defined.

Lemma process_file_upload_instance :
  exists r w' db',
    process_file_upload unreadable upload_a stamp0 clk0 clk1 None started_world
    = (Return r, w') /\
    connection w' = Some (Tables db') /\
    db_file w' = Some (Tables db') /\
    ur_session_id r = 1%Z /\
    ur_content r = lit "Error reading TXT: No such file" /\
    In (lit "data/uploads/20260101_000000_my_notes.txt") (paths w').
Proof.
  destruct (process_file_upload_lands_in_active_session
              unreadable upload_a stamp0 clk0 clk1 started_world
              (Database clk0) (lit "Error reading TXT: No such file")
              eq_refl eq_refl eq_refl (fun _ => eq_refl) eq_refl)
    as (r & w' & db' & H1 & H2 & H3 & _ & H4 & _ & H5 & H6 & _).
  exists r, w', db'. split; [exact H1|]. split; [exact H2|].
  split; [exact (H3 eq_refl)|]. split; [exact H4|].
  split; [exact H5 | exact H6].
Defined.

Lemma save_uploaded_file_instance :
  exists i w1 i' w2,
    save_uploaded_file upload_a stamp0 None new_world = (Return i, w1) /\
    save_uploaded_file upload_b stamp0 None w1 = (Return i', w2) /\
    sf_file_path i = lit "data/uploads/20260101_000000_my_notes.txt" /\
    sf_file_path i' = sf_file_path i /\
    paths w2 = paths w1.
Proof.
  destruct (save_uploaded_file_same_path_up_to_spaces upload_a upload_b stamp0
              new_world eq_refl eq_refl)
    as (i & w1 & i' & w2 & H1 & H2 & H3 & H4 & _ & H5 & _).
  exists i, w1, i', w2. split; [exact H1|]. split; [exact H2|].
  split; [exact H3|]. split; [exact H4 | exact H5].
Defined.

Lemma session_counts_add_up_instance :
  exists infos st,
    fst (get_all_sessions (-1) one_chat) = Return infos /\
    fst (get_stats one_chat) = Return st /\
    total (map chat_count infos) = total_chats st.
Proof.
  destruct (session_counts_add_up_to_stats one_chat one_chat_wf)
    as (infos & H1 & _ & _ & _ & Hsum & _).
  destruct (Hsum 0%Z eq_refl) as (st & H2 & _ & _ & _ & H3).
  exists infos, st. split; [exact H1|]. split; [exact H2 | exact H3].
Defined.

Lemma deleted_session_lists_nothing_instance :
  exists c1,
    delete_session 1 clk1 one_upload = (Return true, c1) /\
    get_session_files 1 c1 = (Return [], c1) /\
    get_session_chats 1 50 c1 = (Return [], c1) /\
    get_session_content 1 c1 = (Return [], c1).
Proof.
  destruct (deleted_session_lists_nothing 1 50 clk1 one_upload eq_refl eq_refl)
    as (c1 & H1 & H2 & H3 & H4).
  exists c1. split; [exact H1|]. split; [exact H2|].
  split; [exact H3 | exact H4].
Defined.

(** *** The listings and the uploads on small stores *)

Example get_all_sessions_example :
  map (fun i => (si_id i, si_is_active i, file_count i))
      (match fst (get_all_sessions 20
                    (run_ops [(OpCreateSession (Some (lit "A")), clk2)]
                             one_upload)) with
       | Return infos => infos
       | Raise _ => []
       end)
  = [(2%Z, true, 0%nat); (1%Z, false, 1%nat)].
Proof. reflexivity. Qed.

Example process_file_upload_example :
  match process_file_upload unreadable upload_a stamp0 clk0 clk1 None
          started_world
  with
  | (Return r, w') =>
      ur_session_id r = 1%Z /\ ur_file_id r = 1%Z /\
      ur_content r = lit "Error reading TXT: No such file" /\
      paths w' = [lit "data/uploads/old.txt";
                  lit "data/uploads/20260101_000000_my_notes.txt"]
  | (Raise _, _) => False
  end.
Proof. repeat split. Qed.

(** Before [Database()] has created the tables, nothing can be read or
    cleared: the database file that the connection creates is empty. *)
Example no_tables_example :
  fst (process_file_upload unreadable upload_a stamp0 clk0 clk1 None new_world)
  = Raise (OperationalError (lit "no such table: sessions")) /\
  fst (clear_all_data no_faults clk0 new_world) = Return false /\
  fst (world_stats new_world)
  = Raise (OperationalError (lit "no such table: sessions")).
Proof. repeat split. Qed.

(** Sizes that add up past the 64-bit integers: [get_stats] raises. *)
Example get_stats_overflow_example :
  fst (get_stats
         (snd (add_file 1 (lit "b") (lit "data/uploads/b") (Some 1%Z) None None
                 clk1
                 (snd (add_file 1 (lit "a") (lit "data/uploads/a")
                         (Some 9223372036854775807%Z) None None clk1
                         (Database clk0))))))
  = Raise (OperationalError (lit "integer overflow")).
Proof. reflexivity. Qed.

(** A text with a lone surrogate cannot be stored: [add_chat] raises and
    the store is as before. *)
Example add_chat_surrogate_example :
  add_chat 1 [97; 56448]%N (lit "Blue.") clk1 (Database clk0)
  = (Raise (UnicodeEncodeError
              (lit "'utf-8' codec can't encode character '\udc80' in position 1: surrogates not allowed")),
     Database clk0).
Proof. reflexivity. Qed.
